(** * Wall placement action (WallPlaceAction.cpp)

    A shallow embedding of [WallPlaceAction::Query], [WallPlaceAction::Execute],
    [WallPlaceAction::WallCheckObstruction],
    [WallPlaceAction::WallCheckObstructionWithTrack] and
    [WallPlaceAction::TrackIsAllowedWallEdges], followed by the properties
    of the two-phase placement protocol.

    Integers are [Z]; the wrap-around of the [uint8_t] locals of the source
    is written out with [u8]; C++ [/] on [int32_t] is [Z.quot]; bit tests
    are [Z.land] against the mask constants of the headers.  The world
    (global flags, tile storage, banner registry, side channels) is threaded
    explicitly: every entry point maps a [World] to a result and a [World].
    The calls of [log_error] are left out. *)

From stdpp Require Import base option list gmap.
From Stdlib Require Import ZArith Lia.
From Stdlib Require String.

Local Open Scope Z_scope.

(** ** Coordinates *)

Record CoordsXYZ := mkCoordsXYZ { coord_x : Z; coord_y : Z; coord_z : Z }.

Definition COORDS_XY_STEP : Z := 32.
Definition COORDS_Z_STEP : Z := 8.

(** [TileCoordsXY(loc)]: the key of a tile in the tile storage. *)
Definition TileCoordsXY (loc : CoordsXYZ) : Z * Z :=
  (Z.quot (coord_x loc) COORDS_XY_STEP, Z.quot (coord_y loc) COORDS_XY_STEP).

(** Modelled from the spec: directions and edges range over 0-3; the mask
    that reduces a value to a direction is 3, as the source itself writes
    it in [_edge & 3]. *)
Definition TILE_ELEMENT_DIRECTION_MASK : Z := 3.

(** [uint8_t] conversion. *)
Definition u8 (v : Z) : Z := v mod 256.

(** [flags & mask] used as a condition. *)
Definition has_flag (flags mask : Z) : bool := negb (Z.land flags mask =? 0).

(** ** Results *)

Module Status.

Inductive t :=
| Ok | InvalidParameters | Disallowed | NoClearance | NoFreeElements | NotOwned.

Definition eqb (a b : t) : bool :=
  match a, b with
  | Ok, Ok | InvalidParameters, InvalidParameters | Disallowed, Disallowed
  | NoClearance, NoClearance | NoFreeElements, NoFreeElements
  | NotOwned, NotOwned => true
  | _, _ => false
  end.

End Status.

Inductive rct_string_id :=
| STR_NONE
| STR_CANT_BUILD_THIS_HERE
| STR_CANT_POSITION_THIS_HERE
| STR_CANT_BUILD_THIS_UNDERWATER
| STR_CAN_ONLY_BUILD_THIS_ABOVE_GROUND
| STR_ERR_UNABLE_TO_BUILD_THIS_ON_SLOPE
| STR_TOO_MANY_BANNERS_IN_GAME
| STR_TILE_ELEMENT_LIMIT_REACHED
| STR_OFF_EDGE_OF_MAP.

Inductive ExpenditureType := Expenditure_Unset | Landscaping.

(** [WallPlaceActionResult]: resulting base height and banner id. *)
Record WallPlaceActionResult := mkWallPlaceActionResult {
  BaseHeight : Z;
  BannerId : Z
}.

(** ** Tile elements

    The polymorphic [TileElement] of the source (type tag plus downcast
    accessors [AsPath], [AsTrack], ...) is a common header with a payload
    per variant. *)

Inductive TileElementType :=
| TILE_ELEMENT_TYPE_SURFACE
| TILE_ELEMENT_TYPE_PATH
| TILE_ELEMENT_TYPE_TRACK
| TILE_ELEMENT_TYPE_SMALL_SCENERY
| TILE_ELEMENT_TYPE_ENTRANCE
| TILE_ELEMENT_TYPE_WALL
| TILE_ELEMENT_TYPE_LARGE_SCENERY
| TILE_ELEMENT_TYPE_BANNER.

Record WallElement := mkWallElement {
  wall_Slope : Z;
  wall_PrimaryColour : Z;
  wall_SecondaryColour : Z;
  wall_TertiaryColour : Z;
  wall_AcrossTrack : bool;
  wall_EntryIndex : Z;
  wall_BannerIndex : Z
}.

Inductive ElementData :=
| SurfaceData (Slope : Z) (WaterHeight : Z)
| PathData (Edges : Z)
| TrackData (TrackType : Z) (SequenceIndex : Z) (RideIndex : Z)
| SmallSceneryData (EntryIndex : Z)
| EntranceData
| WallData (wall : WallElement)
| LargeSceneryData (EntryIndex : Z) (SequenceIndex : Z)
| BannerData.

Record TileElement := mkTileElement {
  base_height : Z;          (* in vertical levels *)
  clearance_height : Z;     (* in vertical levels *)
  GetDirection : Z;
  IsGhost : bool;
  GetOccupiedQuadrants : Z;
  data : ElementData
}.

Definition GetType (e : TileElement) : TileElementType :=
  match data e with
  | SurfaceData _ _ => TILE_ELEMENT_TYPE_SURFACE
  | PathData _ => TILE_ELEMENT_TYPE_PATH
  | TrackData _ _ _ => TILE_ELEMENT_TYPE_TRACK
  | SmallSceneryData _ => TILE_ELEMENT_TYPE_SMALL_SCENERY
  | EntranceData => TILE_ELEMENT_TYPE_ENTRANCE
  | WallData _ => TILE_ELEMENT_TYPE_WALL
  | LargeSceneryData _ _ => TILE_ELEMENT_TYPE_LARGE_SCENERY
  | BannerData => TILE_ELEMENT_TYPE_BANNER
  end.

(** [GetBaseZ()]: the base height in coordinate units, [COORDS_Z_STEP]
    units to the level. *)
Definition GetBaseZ (e : TileElement) : Z := base_height e * COORDS_Z_STEP.

(** A surface element, seen through [AsSurface()]. *)
Record SurfaceElement := mkSurfaceElement {
  surface_element : TileElement;
  GetSlope : Z;
  GetWaterHeight : Z
}.

Definition AsSurface (e : TileElement) : option SurfaceElement :=
  match data e with
  | SurfaceData s wh => Some (mkSurfaceElement e s wh)
  | _ => None
  end.

Record Result := mkResult {
  Error : Status.t;
  ErrorTitle : rct_string_id;
  ErrorMessage : rct_string_id;
  ObstructedBy : option TileElement;
  Position : CoordsXYZ;
  Cost : Z;
  Expenditure : ExpenditureType;
  ResultData : option WallPlaceActionResult
}.

Definition LOCATION_NULL : CoordsXYZ := mkCoordsXYZ (-32768) 0 0.

(** [MakeResult()], [MakeResult(status, message)] and
    [MakeResult(status, title, message)]. *)
Definition MakeResult : Result :=
  mkResult Status.Ok STR_NONE STR_NONE None LOCATION_NULL 0 Expenditure_Unset None.

Definition MakeResult2 (st : Status.t) (message : rct_string_id) : Result :=
  mkResult st STR_NONE message None LOCATION_NULL 0 Expenditure_Unset None.

Definition MakeResult3 (st : Status.t) (title message : rct_string_id) : Result :=
  mkResult st title message None LOCATION_NULL 0 Expenditure_Unset None.

(** Modelled from the spec: [map_obstruction_set_error_text] is not part of
    the sources at hand; per the specification an obstruction result is
    annotated with the offending element, the status is left alone. *)
Definition map_obstruction_set_error_text (e : TileElement) (res : Result) : Result :=
  mkResult (Error res) (ErrorTitle res) (ErrorMessage res) (Some e)
           (Position res) (Cost res) (Expenditure res) (ResultData res).

(** ** Catalog entries and track metadata *)

Record WallSceneryEntry := mkWallSceneryEntry {
  wall_flags : Z;
  wall_height : Z;
  wall_price : Z;
  scrolling_mode : Z
}.

Record SmallSceneryEntry := mkSmallSceneryEntry { small_flags : Z }.

Record rct_large_scenery_tile := mkLargeSceneryTile { tile_flags : Z }.

Record LargeSceneryEntry := mkLargeSceneryEntry {
  tiles : Z -> rct_large_scenery_tile
}.

Record rct_preview_track := mkPreviewTrack { block_index : Z; block_z : Z }.

Record TrackElementDescriptor := mkTrackElementDescriptor {
  SequenceProperties : Z -> Z;
  SequenceElementAllowedWallEdges : Z -> Z;
  bank_start : Z;
  bank_end : Z;
  rotation_begin : Z;
  rotation_end : Z;
  z_begin : Z;
  z_end : Z;
  Block : Z -> rct_preview_track
}.

Record Ride := mkRide { ride_type : Z }.

Inductive RideTypeFlag :=
| RIDE_TYPE_FLAG_TRACK_NO_WALLS
| RIDE_TYPE_FLAG_ALLOW_DOORS_ON_TRACK.

(** ** Banners *)

Record Banner := mkBanner {
  banner_id : Z;
  banner_type : Z;
  banner_flags : Z;
  banner_text : String.string;
  banner_colour : Z;
  banner_text_colour : Z;
  banner_ride_index : Z;
  banner_position : Z * Z
}.

(** ** The world *)

Record World := mkWorld {
  gScreenFlags : Z;
  gCheatsSandboxMode : bool;
  gCheatsDisableClearanceChecks : bool;
  _trackDesignDrawingPreview : bool;
  (* tile storage: the stack of elements of every tile, in storage order,
     and the number of pool slots consumed so far *)
  tileElements : gmap (Z * Z) (list TileElement);
  tileElementsInUse : Z;
  (* banner registry: one entry per slot, [None] for a free slot *)
  banners : list (option Banner);
  (* side channels *)
  mapAnimations : list (Z * CoordsXYZ);
  invalidatedTiles : list (CoordsXYZ * Z * Z)
}.

(** ** The request *)

Record WallPlaceAction := mkWallPlaceAction {
  _wallType : Z;
  _loc : CoordsXYZ;
  _edge : Z;
  _primaryColour : Z;
  _secondaryColour : Z;
  _tertiaryColour : Z;
  GetFlags : Z
}.

(** ** Constants, tables and oracles of the headers the action includes

    None of these is defined in WallPlaceAction.cpp; the mask constants, the
    [LandSlopeToWallSlope] table, the object and track catalogs and the
    read-only map oracles are taken as parameters. *)

Class Externals := {
  SCREEN_FLAGS_SCENARIO_EDITOR : Z;
  GAME_COMMAND_FLAG_PATH_SCENERY : Z;
  GAME_COMMAND_FLAG_GHOST : Z;
  EDGE_SLOPE_ELEVATED : Z;
  EDGE_SLOPE_UPWARDS : Z;
  EDGE_SLOPE_DOWNWARDS : Z;
  TILE_ELEMENT_SLOPE_DOUBLE_HEIGHT : Z;
  WALL_SCENERY_CANT_BUILD_ON_SLOPE : Z;
  WALL_SCENERY_IS_DOOR : Z;
  WALL_SCENERY_HAS_TERNARY_COLOUR : Z;
  SMALL_SCENERY_FLAG_NO_WALLS : Z;
  TRACK_SEQUENCE_FLAG_DISALLOW_DOORS : Z;
  SCROLLING_MODE_NONE : Z;
  BANNER_INDEX_NULL : Z;
  BANNER_FLAG_IS_WALL : Z;
  BANNER_FLAG_LINKED_TO_RIDE : Z;
  COLOUR_WHITE : Z;
  RIDE_ID_NULL : Z;
  MAP_ANIMATION_TYPE_WALL : Z;
  MAX_TILE_ELEMENTS : Z;
  LandSlopeToWallSlope : Z -> Z -> Z;
  (* object catalogs and track metadata *)
  get_wall_entry : Z -> option WallSceneryEntry;
  get_small_scenery_entry : Z -> option SmallSceneryEntry;
  get_large_scenery_entry : Z -> option LargeSceneryEntry;
  get_ride : Z -> option Ride;
  RideTypeHasFlag : Z -> RideTypeFlag -> bool;
  GetTrackElementDescriptor : Z -> TrackElementDescriptor;
  (* read-only map oracles *)
  LocationValid : CoordsXYZ -> bool;
  GetMapSizeMaxXY : Z;
  map_is_location_in_park : CoordsXYZ -> bool;
  map_is_location_owned : CoordsXYZ -> bool;
  map_is_location_at_edge : CoordsXYZ -> bool;
  tile_element_height : CoordsXYZ -> Z;
  banner_get_closest_ride_index : CoordsXYZ -> Z
}.

Section WallPlace.
Context `{X : Externals}.

(** ** Track-edge compatibility *)

(** [WallPlaceAction::TrackIsAllowedWallEdges]. *)
Definition TrackIsAllowedWallEdges
    (rideType trackType trackSequence direction : Z) : bool :=
  if negb (RideTypeHasFlag rideType RIDE_TYPE_FLAG_TRACK_NO_WALLS) then
    let ted := GetTrackElementDescriptor trackType in
    if has_flag (SequenceElementAllowedWallEdges ted trackSequence)
                (Z.shiftl 1 direction)
    then true else false
  else false.

(** [direction_reverse(d)] of Location.hpp. *)
Definition direction_reverse (d : Z) : Z := Z.lxor d 2.

(** [WallPlaceAction::WallCheckObstructionWithTrack].  The track element is
    given by its header and the payload fields the function reads; the
    result pairs the returned [bool] with the final value of the
    out-parameter [*wallAcrossTrack]. *)
Definition WallCheckObstructionWithTrack
    (a : WallPlaceAction) (wall : WallSceneryEntry) (z0 : Z)
    (trackElement : TileElement) (trackType sequence rideIndex : Z)
    (wallAcrossTrack : bool) : bool * bool :=
  let ted := GetTrackElementDescriptor trackType in
  let direction :=
    Z.land (_edge a - GetDirection trackElement) TILE_ELEMENT_DIRECTION_MASK in
  match get_ride rideIndex with
  | None => (false, wallAcrossTrack)
  | Some ride =>
    if TrackIsAllowedWallEdges (ride_type ride) trackType sequence direction
    then (true, wallAcrossTrack)
    else if negb (has_flag (wall_flags wall) WALL_SCENERY_IS_DOOR)
    then (false, wallAcrossTrack)
    else if negb (RideTypeHasFlag (ride_type ride) RIDE_TYPE_FLAG_ALLOW_DOORS_ON_TRACK)
    then (false, wallAcrossTrack)
    else
      (* *wallAcrossTrack = true; *)
      if negb (Z.land z0 1 =? 0) then (false, true)
      else
        let tail :=
          (* from [trackBlock = &ted.Block[sequence + 1]] on *)
          if negb (block_index (Block ted (sequence + 1)) =? 255) then false
          else if negb (bank_end ted =? 0) then false
          else if negb (Z.land (rotation_end ted) 4 =? 0) then false
          else if negb (Z.land (GetDirection trackElement + rotation_end ted)
                               TILE_ELEMENT_DIRECTION_MASK =? _edge a)
          then false
          else
            (base_height trackElement
               + (z_end ted - block_z (Block ted sequence)) * 8) =? z0 in
        if sequence =? 0 then
          if has_flag (SequenceProperties ted 0) TRACK_SEQUENCE_FLAG_DISALLOW_DOORS
          then (false, true)
          else if (bank_start ted =? 0)
                  && (Z.land (rotation_begin ted) 4 =? 0)
                  && (direction_reverse (GetDirection trackElement) =? _edge a)
                  && ((base_height trackElement
                         + (z_begin ted - block_z (Block ted sequence)) * 8) =? z0)
          then (true, true)
          else (tail, true)
        else (tail, true)
  end.

(** ** Obstruction scan *)

(** The body of the [do ... while] loop of [WallCheckObstruction] for one
    element: [Some res] when the body returns [res], [None] when control
    reaches the loop condition ([continue], [break] out of the [switch] or
    falling off its end); with the value of [*wallAcrossTrack]. *)
Definition WallCheckObstruction_element
    (a : WallPlaceAction) (wall : WallSceneryEntry) (z0 z1 : Z)
    (tileElement : TileElement) (wallAcrossTrack : bool)
    : option Result * bool :=
  match data tileElement with
  | SurfaceData _ _ => (None, wallAcrossTrack)
  | d =>
    if IsGhost tileElement then (None, wallAcrossTrack)
    else if z0 >=? clearance_height tileElement then (None, wallAcrossTrack)
    else if z1 <=? base_height tileElement then (None, wallAcrossTrack)
    else
      match d with
      | WallData _ =>
        if _edge a =? GetDirection tileElement
        then (Some (map_obstruction_set_error_text tileElement
                      (MakeResult2 Status.NoClearance STR_NONE)),
              wallAcrossTrack)
        else (None, wallAcrossTrack)
      | _ =>
        if GetOccupiedQuadrants tileElement =? 0 then (None, wallAcrossTrack)
        else
          let res := MakeResult2 Status.NoClearance STR_NONE in
          match d with
          | EntranceData =>
            (Some (map_obstruction_set_error_text tileElement res), wallAcrossTrack)
          | PathData edges =>
            if has_flag edges (Z.shiftl 1 (_edge a))
            then (Some (map_obstruction_set_error_text tileElement res), wallAcrossTrack)
            else (None, wallAcrossTrack)
          | LargeSceneryData entryIndex sequence =>
            match get_large_scenery_entry entryIndex with
            | None => (None, wallAcrossTrack)
            | Some sceneryEntry =>
              let direction :=
                Z.land (_edge a - GetDirection tileElement)
                       TILE_ELEMENT_DIRECTION_MASK + 8 in
              if negb (has_flag (tile_flags (tiles sceneryEntry sequence))
                                (Z.shiftl 1 direction))
              then (Some (map_obstruction_set_error_text tileElement res),
                    wallAcrossTrack)
              else (None, wallAcrossTrack)
            end
          | SmallSceneryData entryIndex =>
            match get_small_scenery_entry entryIndex with
            | Some sceneryEntry =>
              if has_flag (small_flags sceneryEntry) SMALL_SCENERY_FLAG_NO_WALLS
              then (Some (map_obstruction_set_error_text tileElement res),
                    wallAcrossTrack)
              else (None, wallAcrossTrack)
            | None => (None, wallAcrossTrack)
            end
          | TrackData trackType sequence rideIndex =>
            let '(allowed, across) :=
              WallCheckObstructionWithTrack a wall z0 tileElement
                trackType sequence rideIndex wallAcrossTrack in
            if negb allowed then (Some res, across) else (None, across)
          | _ => (None, wallAcrossTrack)
          end
      end
  end.

(** The loop over the elements of the tile, first to last. *)
Fixpoint WallCheckObstruction_loop
    (a : WallPlaceAction) (wall : WallSceneryEntry) (z0 z1 : Z)
    (elements : list TileElement) (wallAcrossTrack : bool) : Result * bool :=
  match elements with
  | [] => (MakeResult, wallAcrossTrack)
  | tileElement :: rest =>
    match WallCheckObstruction_element a wall z0 z1 tileElement wallAcrossTrack with
    | (Some res, across) => (res, across)
    | (None, across) => WallCheckObstruction_loop a wall z0 z1 rest across
    end
  end.

(** Modelled from the spec: [map_get_first_element_at] is not part of the
    sources at hand; [element_at(coord)] iterates over the elements stacked
    on the tile, up to the one flagged last-for-tile; there are no elements
    where the source gets [nullptr]. *)
Definition map_get_first_element_at (w : World) (loc : CoordsXYZ) : list TileElement :=
  default [] (tileElements w !! TileCoordsXY loc).

(** [WallPlaceAction::WallCheckObstruction]. *)
Definition WallCheckObstruction
    (a : WallPlaceAction) (w : World) (wall : WallSceneryEntry) (z0 z1 : Z)
    : Result * bool :=
  if map_is_location_at_edge (_loc a)
  then (MakeResult2 Status.InvalidParameters STR_OFF_EDGE_OF_MAP, false)
  else WallCheckObstruction_loop a wall z0 z1
         (map_get_first_element_at w (_loc a)) false.

(** ** Tile storage and banner registry *)

Definition set_tileElementsInUse (n : Z) (w : World) : World :=
  mkWorld (gScreenFlags w) (gCheatsSandboxMode w) (gCheatsDisableClearanceChecks w)
          (_trackDesignDrawingPreview w) (tileElements w) n (banners w)
          (mapAnimations w) (invalidatedTiles w).

Definition set_tileElements (m : gmap (Z * Z) (list TileElement)) (w : World) : World :=
  mkWorld (gScreenFlags w) (gCheatsSandboxMode w) (gCheatsDisableClearanceChecks w)
          (_trackDesignDrawingPreview w) m (tileElementsInUse w) (banners w)
          (mapAnimations w) (invalidatedTiles w).

Definition set_banners (bs : list (option Banner)) (w : World) : World :=
  mkWorld (gScreenFlags w) (gCheatsSandboxMode w) (gCheatsDisableClearanceChecks w)
          (_trackDesignDrawingPreview w) (tileElements w) (tileElementsInUse w) bs
          (mapAnimations w) (invalidatedTiles w).

(** Modelled from the spec: [map_get_surface_element_at] is not part of the
    sources at hand; it looks up the surface element at (x,y) and yields
    nothing if the tile has none. *)
Fixpoint find_surface (elements : list TileElement) : option SurfaceElement :=
  match elements with
  | [] => None
  | e :: rest =>
    match AsSurface e with
    | Some s => Some s
    | None => find_surface rest
    end
  end.

Definition map_get_surface_element_at (w : World) (loc : CoordsXYZ)
    : option SurfaceElement :=
  find_surface (map_get_first_element_at w loc).

(** Modelled from the spec: the tile storage engine is not part of the
    sources at hand.  The number of elements stacked on all tiles
    together. *)
Definition live_elements (w : World) : Z :=
  map_fold (fun _ l n => n + Z.of_nat (length l)) 0 (tileElements w).

(** Modelled from the spec: reorganizing/compacting tile storage is not
    part of the sources at hand.  The pool is rewritten without the slots
    that removed elements left behind; the stacks of the tiles stay as they
    are. *)
Definition map_reorganise_elements (w : World) : World :=
  set_tileElementsInUse (live_elements w) w.

(** Modelled from the spec: [MapCheckCapacityAndReorganise] is not part of
    the sources at hand; it verifies that tile storage has capacity for one
    more element, reorganizing/compacting the pool if needed, and reports
    failure when there is no room even then. *)
Definition MapCheckCapacityAndReorganise (loc : CoordsXYZ) (w : World) : bool * World :=
  if tileElementsInUse w + 1 <=? MAX_TILE_ELEMENTS then (true, w)
  else
    let w' := map_reorganise_elements w in
    (tileElementsInUse w' + 1 <=? MAX_TILE_ELEMENTS, w').

(** Modelled from the spec: the capacity of tile storage, which is not part
    of the sources at hand.  The pool has room for one more element, as it
    is or once compacted. *)
Definition has_capacity (w : World) : bool :=
  (tileElementsInUse w + 1 <=? MAX_TILE_ELEMENTS)
  || (live_elements w + 1 <=? MAX_TILE_ELEMENTS).

(** Modelled from the spec: the order of a stack of elements is not part of
    the sources at hand.  A new element of base height [h] goes after the
    elements that are not higher. *)
Fixpoint insert_index (h : Z) (elements : list TileElement) : nat :=
  match elements with
  | [] => 0%nat
  | e :: rest => if base_height e <=? h then S (insert_index h rest) else 0%nat
  end.

(** Modelled from the spec: [TileElementInsert] is not part of the sources
    at hand; [insert(coord, height, variant)] yields an element handle or a
    failure.  It fails when the pool has no capacity (after compaction) or
    the coordinate has no tile; otherwise a fresh element of the variant at
    the given height takes one more slot; its base and clearance height are
    the level [z / COORDS_Z_STEP] of that height.  The handle is the tile
    key and the index in the stack; the fresh element is returned with
    it. *)
Definition TileElementInsert (loc : CoordsXYZ) (occupiedQuadrants : Z)
    (d : ElementData) (w : World)
    : option ((Z * Z) * nat * TileElement) * World :=
  let '(ok, w1) := MapCheckCapacityAndReorganise loc w in
  if negb ok then (None, w1)
  else
    match tileElements w1 !! TileCoordsXY loc with
    | None => (None, w1)
    | Some elements =>
      let h := Z.quot (coord_z loc) COORDS_Z_STEP in
      let e := mkTileElement h h 0 false occupiedQuadrants d in
      let i := insert_index h elements in
      let elements' := take i elements ++ e :: drop i elements in
      (Some (TileCoordsXY loc, i, e),
       set_tileElementsInUse (tileElementsInUse w1 + 1)
         (set_tileElements (<[TileCoordsXY loc := elements']> (tileElements w1)) w1))
    end.

(** Modelled from the spec: writing through the element handle that
    [TileElementInsert] returned (the setters of [WallElement] are not part
    of the sources at hand). *)
Definition store_element (handle : (Z * Z) * nat) (e : TileElement) (w : World) : World :=
  set_tileElements (alter (fun l => <[handle.2 := e]> l) handle.1 (tileElements w)) w.

(** Modelled from the spec: the banner registry is not part of the sources
    at hand; [allocate() -> Banner | exhausted].  A slot of the registry is
    free or holds a banner; the registry is exhausted when no slot is free,
    and allocation takes the first free slot. *)
Fixpoint first_free_slot (slots : list (option Banner)) : option nat :=
  match slots with
  | [] => None
  | None :: _ => Some 0%nat
  | Some _ :: rest => S <$> first_free_slot rest
  end.

Definition HasReachedBannerLimit (w : World) : bool :=
  match first_free_slot (banners w) with
  | None => true
  | Some _ => false
  end.

Definition CreateBanner (w : World) : option Banner * World :=
  match first_free_slot (banners w) with
  | None => (None, w)
  | Some i =>
    let b := mkBanner (Z.of_nat i) 0 0 String.EmptyString 0 0 RIDE_ID_NULL (0, 0) in
    (Some b, set_banners (<[i := Some b]> (banners w)) w)
  end.

(** Modelled from the spec: writing through the banner that [CreateBanner]
    returned. *)
Definition store_banner (b : Banner) (w : World) : World :=
  set_banners (<[Z.to_nat (banner_id b) := Some b]> (banners w)) w.

(** Modelled from the spec: [DeleteBanner] is not part of the sources at
    hand; releasing a banner makes its slot free again. *)
Definition DeleteBanner (id : Z) (w : World) : World :=
  set_banners (<[Z.to_nat id := None]> (banners w)) w.

(** Modelled from the spec: [map_animation_create] and
    [map_invalidate_tile_zoom1] are not part of the sources at hand; they
    are fire-and-forget side channels, recorded in the world. *)
Definition map_animation_create (type : Z) (loc : CoordsXYZ) (w : World) : World :=
  mkWorld (gScreenFlags w) (gCheatsSandboxMode w) (gCheatsDisableClearanceChecks w)
          (_trackDesignDrawingPreview w) (tileElements w) (tileElementsInUse w)
          (banners w) (mapAnimations w ++ [(type, loc)]) (invalidatedTiles w).

Definition map_invalidate_tile_zoom1 (loc : CoordsXYZ) (zLow zHigh : Z) (w : World) : World :=
  mkWorld (gScreenFlags w) (gCheatsSandboxMode w) (gCheatsDisableClearanceChecks w)
          (_trackDesignDrawingPreview w) (tileElements w) (tileElementsInUse w)
          (banners w) (mapAnimations w) (invalidatedTiles w ++ [(loc, zLow, zHigh)]).

(** ** The action: Query and Execute *)

(** The result both entry points start from: [MakeResult()] with the error
    title, the expenditure type and the position set (lines 63-74 and
    267-278). *)
Definition InitialResult (a : WallPlaceAction) : Result :=
  let pos := mkCoordsXYZ (coord_x (_loc a) + 16) (coord_y (_loc a) + 16)
                         (coord_z (_loc a)) in
  let pos :=
    if coord_z (_loc a) =? 0
    then mkCoordsXYZ (coord_x pos) (coord_y pos) (tile_element_height pos)
    else pos in
  mkResult Status.Ok STR_CANT_BUILD_THIS_HERE STR_NONE None pos 0 Landscaping None.

Definition set_Cost_Data (cost : Z) (d : WallPlaceActionResult) (res : Result) : Result :=
  mkResult (Error res) (ErrorTitle res) (ErrorMessage res) (ObstructedBy res)
           (Position res) cost (Expenditure res) (Some d).

(** Early return on a condition, in the order of the source. *)
Notation "'When' c 'Return' r ';;' k" := (if c then inl r else k)
  (at level 10, c at level 99, r at level 99, k at level 200,
   format "'[v' 'When'  c  'Return'  r ';;' '/' k ']'").

(** Height and slope resolution: lines 106-125 of [Query], repeated word
    for word at lines 280-299 of [Execute].  Yields the target height and
    the edge slope flags, or the error result.  The entries of the table
    are [uint8_t], so is [edgeSlope]; the bitwise and cannot leave that
    range. *)
Definition ResolveTargetHeight (a : WallPlaceAction) (w : World) : Result + (Z * Z) :=
  let edgeSlope := 0 in
  let targetHeight := coord_z (_loc a) in
  if targetHeight =? 0 then
    match map_get_surface_element_at w (_loc a) with
    | None =>
      inl (MakeResult3 Status.InvalidParameters STR_CANT_BUILD_THIS_HERE STR_NONE)
    | Some surfaceElement =>
      let targetHeight := GetBaseZ (surface_element surfaceElement) in
      let slope := GetSlope surfaceElement in
      let edgeSlope := LandSlopeToWallSlope slope (Z.land (_edge a) 3) in
      if has_flag edgeSlope EDGE_SLOPE_ELEVATED
      then inr (targetHeight + 16, Z.land edgeSlope (Z.lnot EDGE_SLOPE_ELEVATED))
      else inr (targetHeight, edgeSlope)
    end
  else inr (targetHeight, edgeSlope).

(** [edgeSlope & (EDGE_SLOPE_UPWARDS | EDGE_SLOPE_DOWNWARDS)]. *)
Definition edge_is_sloped (edgeSlope : Z) : bool :=
  has_flag edgeSlope (Z.lor EDGE_SLOPE_UPWARDS EDGE_SLOPE_DOWNWARDS).

(** [surfaceElement->GetSlope() & (1 << newEdge)]. *)
Definition corner_raised (surfaceElement : SurfaceElement) (newEdge : Z) : bool :=
  has_flag (GetSlope surfaceElement) (Z.shiftl 1 newEdge).

(** Lines 151-212 of [Query]: the check of a flat wall against the raised
    corners next to its edge; [true] where the source returns the
    can-only-build-above-ground result. *)
Definition Query_BelowRaisedCorner
    (a : WallPlaceAction) (surfaceElement : SurfaceElement) (targetHeight : Z) : bool :=
  let doubleHeight :=
    has_flag (GetSlope surfaceElement) TILE_ELEMENT_SLOPE_DOUBLE_HEIGHT in
  let newEdge := Z.land (_edge a + 2) 3 in
  let newBaseHeight := u8 (base_height (surface_element surfaceElement)) in
  let newBaseHeight := u8 (newBaseHeight + 2) in
  (* first corner: the value of [newBaseHeight] after it, unless rejected *)
  let first : option Z :=
    if corner_raised surfaceElement newEdge then
      if Z.quot targetHeight 8 <? newBaseHeight then None
      else if doubleHeight then
        let newEdge := Z.land (newEdge - 1) 3 in
        if corner_raised surfaceElement newEdge then
          let newEdge := Z.land (newEdge + 2) 3 in
          if corner_raised surfaceElement newEdge then
            let newBaseHeight := u8 (newBaseHeight + 2) in
            if Z.quot targetHeight 8 <? newBaseHeight then None
            else Some (u8 (newBaseHeight - 2))
          else Some newBaseHeight
        else Some newBaseHeight
      else Some newBaseHeight
    else Some newBaseHeight in
  match first with
  | None => true
  | Some newBaseHeight =>
    let newEdge := Z.land (_edge a + 3) 3 in
    if corner_raised surfaceElement newEdge then
      if Z.quot targetHeight 8 <? newBaseHeight then true
      else if doubleHeight then
        let newEdge := Z.land (newEdge - 1) 3 in
        if corner_raised surfaceElement newEdge then
          let newEdge := Z.land (newEdge + 2) 3 in
          if corner_raised surfaceElement newEdge then
            let newBaseHeight := u8 (newBaseHeight + 2) in
            Z.quot targetHeight 8 <? newBaseHeight
          else false
        else false
      else false
    else false
  end.

(** Lines 232-241 of [Query]: the clearance height, or the slope
    rejection. *)
Definition Query_clearanceHeight
    (wallEntry : WallSceneryEntry) (targetHeight edgeSlope : Z) : Result + Z :=
  let clearanceHeight := u8 (Z.quot targetHeight 8) in
  if edge_is_sloped edgeSlope then
    When has_flag (wall_flags wallEntry) WALL_SCENERY_CANT_BUILD_ON_SLOPE
    Return MakeResult3 Status.Disallowed STR_CANT_BUILD_THIS_HERE
                       STR_ERR_UNABLE_TO_BUILD_THIS_ON_SLOPE;;
    let clearanceHeight := u8 (clearanceHeight + 2) in
    inr (u8 (clearanceHeight + wall_height wallEntry))
  else inr (u8 (clearanceHeight + wall_height wallEntry)).

(** Lines 310-315 of [Execute]: the clearance height. *)
Definition Execute_clearanceHeight
    (wallEntry : WallSceneryEntry) (targetHeight edgeSlope : Z) : Z :=
  let clearanceHeight := u8 (Z.quot targetHeight COORDS_Z_STEP) in
  let clearanceHeight :=
    if edge_is_sloped edgeSlope then u8 (clearanceHeight + 2) else clearanceHeight in
  u8 (clearanceHeight + wall_height wallEntry).

(** Lines 243-251 and 317-325: the obstruction scan, unless the placement
    is a path accessory or clearance checks are disabled. *)
Definition CheckObstruction (a : WallPlaceAction) (w : World)
    (wallEntry : WallSceneryEntry) (z0 z1 : Z) : Result * bool :=
  if negb (has_flag (GetFlags a) GAME_COMMAND_FLAG_PATH_SCENERY)
     && negb (gCheatsDisableClearanceChecks w)
  then WallCheckObstruction a w wallEntry z0 z1
  else (MakeResult, false).

(** Lines 76-213 of [Query]: location, ownership and edge checks, height
    resolution, water and ground checks.  Yields the target height and the
    edge slope flags, or the error result. *)
Definition Query_CheckTerrain (a : WallPlaceAction) (w : World) : Result + (Z * Z) :=
  let NotOwned := MakeResult3 Status.NotOwned STR_CANT_BUILD_THIS_HERE STR_NONE in
  let Invalid := MakeResult3 Status.InvalidParameters STR_CANT_BUILD_THIS_HERE STR_NONE in
  let AboveGround := MakeResult3 Status.Disallowed STR_CANT_BUILD_THIS_HERE
                                 STR_CAN_ONLY_BUILD_THIS_ABOVE_GROUND in
  When negb (LocationValid (_loc a)) Return NotOwned;;
  When
    (if negb (has_flag (gScreenFlags w) SCREEN_FLAGS_SCENARIO_EDITOR)
        && negb (has_flag (GetFlags a) GAME_COMMAND_FLAG_PATH_SCENERY)
        && negb (gCheatsSandboxMode w)
     then
       if coord_z (_loc a) =? 0
       then negb (map_is_location_in_park (_loc a))
       else negb (map_is_location_owned (_loc a))
     else false)
  Return NotOwned;;
  When
    (if negb (has_flag (gScreenFlags w) SCREEN_FLAGS_SCENARIO_EDITOR)
        && negb (has_flag (GetFlags a) GAME_COMMAND_FLAG_PATH_SCENERY)
        && negb (gCheatsSandboxMode w)
     then false
     else negb (_trackDesignDrawingPreview w)
          && ((coord_x (_loc a) >? GetMapSizeMaxXY)
              || (coord_y (_loc a) >? GetMapSizeMaxXY)))
  Return Invalid;;
  When _edge a >? 3 Return Invalid;;
  match ResolveTargetHeight a w with
  | inl err => inl err
  | inr (targetHeight, edgeSlope) =>
    match map_get_surface_element_at w (_loc a) with
    | None => inl Invalid
    | Some surfaceElement =>
      When (GetWaterHeight surfaceElement >? 0)
           && (targetHeight <? GetWaterHeight surfaceElement mod 65536)
           && negb (gCheatsDisableClearanceChecks w)
      Return MakeResult3 Status.Disallowed STR_CANT_BUILD_THIS_HERE
                         STR_CANT_BUILD_THIS_UNDERWATER;;
      When (targetHeight <? GetBaseZ (surface_element surfaceElement))
           && negb (gCheatsDisableClearanceChecks w)
      Return AboveGround;;
      When negb (edge_is_sloped edgeSlope)
           && Query_BelowRaisedCorner a surfaceElement targetHeight
      Return AboveGround;;
      inr (targetHeight, edgeSlope)
    end
  end.

(** Lines 76-251 of [Query]: every check before the capacity check.  Yields
    the catalog entry, or the error result. *)
Definition Query_validate (a : WallPlaceAction) (w : World) : Result + WallSceneryEntry :=
  match Query_CheckTerrain a w with
  | inl err => inl err
  | inr (targetHeight, edgeSlope) =>
    match get_wall_entry (_wallType a) with
    | None =>
      inl (MakeResult3 Status.InvalidParameters STR_CANT_BUILD_THIS_HERE STR_NONE)
    | Some wallEntry =>
      When negb (scrolling_mode wallEntry =? SCROLLING_MODE_NONE)
           && HasReachedBannerLimit w
      Return MakeResult3 Status.InvalidParameters STR_CANT_BUILD_THIS_HERE
                         STR_TOO_MANY_BANNERS_IN_GAME;;
      match Query_clearanceHeight wallEntry targetHeight edgeSlope with
      | inl err => inl err
      | inr clearanceHeight =>
        let '(result, wallAcrossTrack) :=
          CheckObstruction a w wallEntry (Z.quot targetHeight 8) clearanceHeight in
        When negb (Status.eqb (Error result) Status.Ok) Return result;;
        inr wallEntry
      end
    end
  end.

(** [WallPlaceAction::Query]. *)
Definition Query (a : WallPlaceAction) (w : World) : Result * World :=
  match Query_validate a w with
  | inl err => (err, w)
  | inr wallEntry =>
    let '(ok, w') := MapCheckCapacityAndReorganise (_loc a) w in
    if negb ok
    then (MakeResult3 Status.NoFreeElements STR_CANT_BUILD_THIS_HERE
                      STR_TILE_ELEMENT_LIMIT_REACHED, w')
    else
      (set_Cost_Data (wall_price wallEntry)
         (mkWallPlaceActionResult 0 BANNER_INDEX_NULL) (InitialResult a), w')
  end.

(** Lines 327-350 of [Execute]: the banner of a wall that has a sign.
    Yields the banner (or none for a wall without sign) and the world with
    the banner registered, or nothing when the registry is exhausted. *)
Definition Execute_banner (a : WallPlaceAction) (wallEntry : WallSceneryEntry)
    (targetLoc : CoordsXYZ) (w : World) : option (option Banner * World) :=
  if negb (scrolling_mode wallEntry =? SCROLLING_MODE_NONE) then
    match CreateBanner w with
    | (None, w1) => None
    | (Some banner, w1) =>
      let rideIndex := banner_get_closest_ride_index targetLoc in
      let linked := negb (rideIndex =? RIDE_ID_NULL) in
      let banner :=
        mkBanner (banner_id banner)
                 0
                 (if linked
                  then Z.lor BANNER_FLAG_IS_WALL BANNER_FLAG_LINKED_TO_RIDE
                  else BANNER_FLAG_IS_WALL)
                 String.EmptyString
                 COLOUR_WHITE
                 COLOUR_WHITE
                 (if linked then rideIndex else banner_ride_index banner)
                 (TileCoordsXY (_loc a)) in
      Some (Some banner, store_banner banner w1)
    end
  else Some (None, w).

(** Lines 358-374 of [Execute]: the fields written through the new
    element. *)
Definition Execute_wallElement (a : WallPlaceAction) (wallEntry : WallSceneryEntry)
    (edgeSlope clearanceHeight : Z) (wallAcrossTrack : bool)
    (banner : option Banner) (inserted : TileElement) : TileElement :=
  let wall :=
    mkWallElement
      edgeSlope
      (_primaryColour a)
      (_secondaryColour a)
      (if has_flag (wall_flags wallEntry) WALL_SCENERY_HAS_TERNARY_COLOUR
       then _tertiaryColour a else 0)
      wallAcrossTrack
      (_wallType a)
      (match banner with Some b => banner_id b | None => BANNER_INDEX_NULL end) in
  mkTileElement
    (base_height inserted)
    clearanceHeight
    (Z.land (_edge a) TILE_ELEMENT_DIRECTION_MASK)
    (has_flag (GetFlags a) GAME_COMMAND_FLAG_GHOST)
    (GetOccupiedQuadrants inserted)
    (WallData wall).

(** [WallPlaceAction::Execute]. *)
Definition Execute (a : WallPlaceAction) (w : World) : Result * World :=
  let Invalid := MakeResult3 Status.InvalidParameters STR_CANT_BUILD_THIS_HERE STR_NONE in
  match ResolveTargetHeight a w with
  | inl err => (err, w)
  | inr (targetHeight, edgeSlope) =>
    let targetLoc :=
      mkCoordsXYZ (coord_x (_loc a)) (coord_y (_loc a)) targetHeight in
    match get_wall_entry (_wallType a) with
    | None => (Invalid, w)
    | Some wallEntry =>
      let clearanceHeight := Execute_clearanceHeight wallEntry targetHeight edgeSlope in
      let '(result, wallAcrossTrack) :=
        CheckObstruction a w wallEntry
          (Z.quot targetHeight COORDS_Z_STEP) clearanceHeight in
      if negb (Status.eqb (Error result) Status.Ok) then (result, w)
      else
        match Execute_banner a wallEntry targetLoc w with
        | None =>
          (MakeResult3 Status.InvalidParameters STR_CANT_BUILD_THIS_HERE
                       STR_TOO_MANY_BANNERS_IN_GAME, w)
        | Some (banner, w1) =>
          match TileElementInsert targetLoc 0
                  (WallData (mkWallElement 0 0 0 0 false 0 0)) w1 with
          | (None, w2) =>
            (MakeResult3 Status.NoFreeElements STR_CANT_POSITION_THIS_HERE
                         STR_TILE_ELEMENT_LIMIT_REACHED, w2)
          | (Some (handle, inserted), w2) =>
            let wallElement :=
              Execute_wallElement a wallEntry edgeSlope clearanceHeight
                wallAcrossTrack banner inserted in
            let w3 := store_element handle wallElement w2 in
            let w4 := map_animation_create MAP_ANIMATION_TYPE_WALL targetLoc w3 in
            let w5 :=
              map_invalidate_tile_zoom1 (_loc a) (GetBaseZ wallElement)
                (GetBaseZ wallElement + 72) w4 in
            let bannerId :=
              match banner with Some b => banner_id b | None => BANNER_INDEX_NULL end in
            (set_Cost_Data (wall_price wallEntry)
               (mkWallPlaceActionResult (GetBaseZ wallElement) bannerId)
               (InitialResult a), w5)
          end
        end
    end
  end.

End WallPlace.

(** ** A test configuration

    Mask values as in the headers of the game; a catalog of four walls; a
    slope table with the flat tile, a tile with one raised corner and a tile
    sloping along an edge. *)

Definition test_wall_entry (id : Z) : option WallSceneryEntry :=
  if id =? 5 then Some (mkWallSceneryEntry 0 4 30 255)        (* plain fence *)
  else if id =? 6 then Some (mkWallSceneryEntry 0 4 50 0)     (* wall with sign *)
  else if id =? 7 then Some (mkWallSceneryEntry 16 4 40 255)  (* door *)
  else if id =? 8 then Some (mkWallSceneryEntry 4 4 35 255)   (* not on slopes *)
  else None.

Definition test_slope_table (slope edge : Z) : Z :=
  if slope =? 1 then
    (if edge =? 2 then 128 else if edge =? 3 then 64 else 0)
  else if slope =? 3 then
    (if edge =? 1 then 128 else if edge =? 2 then 1 else if edge =? 3 then 64 else 0)
  else 0.

Definition test_track (wallEdges : Z) : TrackElementDescriptor :=
  mkTrackElementDescriptor (fun _ => 0) (fun _ => wallEdges) 0 0 0 0 0 0
    (fun i => if i =? 0 then mkPreviewTrack 0 0 else mkPreviewTrack 255 0).

Definition in_map (loc : CoordsXYZ) : bool :=
  (0 <=? coord_x loc) && (coord_x loc <? 8192)
  && (0 <=? coord_y loc) && (coord_y loc <? 8192).

(** The configuration, by the capacity of the element pool. *)
Definition test_externals (maxElements : Z) : Externals := {|
  SCREEN_FLAGS_SCENARIO_EDITOR := 2;
  GAME_COMMAND_FLAG_PATH_SCENERY := 128;
  GAME_COMMAND_FLAG_GHOST := 64;
  EDGE_SLOPE_ELEVATED := 1;
  EDGE_SLOPE_UPWARDS := 64;
  EDGE_SLOPE_DOWNWARDS := 128;
  TILE_ELEMENT_SLOPE_DOUBLE_HEIGHT := 16;
  WALL_SCENERY_CANT_BUILD_ON_SLOPE := 4;
  WALL_SCENERY_IS_DOOR := 16;
  WALL_SCENERY_HAS_TERNARY_COLOUR := 128;
  SMALL_SCENERY_FLAG_NO_WALLS := 262144;
  TRACK_SEQUENCE_FLAG_DISALLOW_DOORS := 32;
  SCROLLING_MODE_NONE := 255;
  BANNER_INDEX_NULL := 65535;
  BANNER_FLAG_IS_WALL := 8;
  BANNER_FLAG_LINKED_TO_RIDE := 4;
  COLOUR_WHITE := 2;
  RIDE_ID_NULL := 65535;
  MAP_ANIMATION_TYPE_WALL := 8;
  MAX_TILE_ELEMENTS := maxElements;
  LandSlopeToWallSlope := test_slope_table;
  get_wall_entry := test_wall_entry;
  get_small_scenery_entry := fun _ => None;
  get_large_scenery_entry := fun _ => None;
  get_ride := fun id => if id =? 0 then Some (mkRide 0) else None;
  RideTypeHasFlag := fun _ f =>
    match f with
    | RIDE_TYPE_FLAG_TRACK_NO_WALLS => false
    | RIDE_TYPE_FLAG_ALLOW_DOORS_ON_TRACK => true
    end;
  GetTrackElementDescriptor := fun t => test_track (if t =? 1 then 15 else 0);
  LocationValid := in_map;
  GetMapSizeMaxXY := 8192;
  map_is_location_in_park := in_map;
  map_is_location_owned := in_map;
  map_is_location_at_edge := fun _ => false;
  tile_element_height := fun _ => 0;
  banner_get_closest_ride_index := fun _ => 65535
|}.

Definition test_surface (slope : Z) : TileElement :=
  mkTileElement 0 0 0 false 15 (SurfaceData slope 0).

(** A world of one tile at (32,32) holding [elements], with [used] pool
    slots consumed and the given banner registry. *)
Definition test_world (elements : list TileElement) (used : Z)
    (registry : list (option Banner)) : World :=
  mkWorld 0 false false false {[ (1, 1) := elements ]} used registry [] [].

Definition test_request (wallType edge : Z) : WallPlaceAction :=
  mkWallPlaceAction wallType (mkCoordsXYZ 32 32 0) edge 0 0 0 0.

(** The catalog entries 5 and 7, and the world of one flat tile. *)
Definition test_fence : WallSceneryEntry := mkWallSceneryEntry 0 4 30 255.
Definition test_door : WallSceneryEntry := mkWallSceneryEntry 16 4 40 255.
Definition test_flat_world : World := test_world [test_surface 0] 1 [None].

(** A fence on [edge], an entrance with the given occupancy mask and a piece
    of track of the given type, each from level 0 up. *)
Definition test_wall_element (edge : Z) : TileElement :=
  mkTileElement 0 4 edge false 0 (WallData (mkWallElement 0 0 0 0 false 5 65535)).

Definition test_entrance (occupiedQuadrants : Z) : TileElement :=
  mkTileElement 0 6 0 false occupiedQuadrants EntranceData.

Definition test_track_element (trackType : Z) : TileElement :=
  mkTileElement 0 4 0 false 15 (TrackData trackType 0 0).

(** ** Notions used by the further properties *)

(** The elements the loop body of [WallCheckObstruction] passes over before
    it looks at what kind of element it has (lines 502-509 and 521): the
    surface, ghosts, elements out of the height interval and, walls apart,
    elements that occupy no quadrant. *)
Definition passed_over (z0 z1 : Z) (e : TileElement) : bool :=
  match data e with
  | SurfaceData _ _ => true
  | WallData _ =>
    IsGhost e || (z0 >=? clearance_height e) || (z1 <=? base_height e)
  | _ =>
    IsGhost e || (z0 >=? clearance_height e) || (z1 <=? base_height e)
    || (GetOccupiedQuadrants e =? 0)
  end.

(** A path, a small scenery item, a large scenery item and a banner, each
    from level 0 up and occupying the tile. *)
Definition test_path (edges : Z) : TileElement :=
  mkTileElement 0 4 0 false 15 (PathData edges).

Definition test_small_scenery (entryIndex : Z) : TileElement :=
  mkTileElement 0 4 0 false 15 (SmallSceneryData entryIndex).

Definition test_large_scenery (direction entryIndex : Z) : TileElement :=
  mkTileElement 0 4 direction false 15 (LargeSceneryData entryIndex 0).

Definition test_ghost (e : TileElement) : TileElement :=
  mkTileElement (base_height e) (clearance_height e) (GetDirection e) true
                (GetOccupiedQuadrants e) (data e).

(** The request with its edge turned by [k] quarter turns, and the element
    with its direction turned likewise. *)
Definition rotate_action (k : Z) (a : WallPlaceAction) : WallPlaceAction :=
  mkWallPlaceAction (_wallType a) (_loc a) (Z.land (_edge a + k) 3)
    (_primaryColour a) (_secondaryColour a) (_tertiaryColour a) (GetFlags a).

Definition rotate_element (k : Z) (e : TileElement) : TileElement :=
  mkTileElement (base_height e) (clearance_height e) (Z.land (GetDirection e + k) 3)
    (IsGhost e) (GetOccupiedQuadrants e) (data e).

(** The two ways a door may stand across a piece of track, read off lines
    428-451 and 454-480 of [WallCheckObstructionWithTrack]: at the begin
    boundary of the first block, or at the end boundary of the last one. *)
Definition door_at_begin (a : WallPlaceAction) (z0 : Z) (trackElement : TileElement)
    (ted : TrackElementDescriptor) (sequence : Z) : bool :=
  (sequence =? 0)
  && (bank_start ted =? 0)
  && (Z.land (rotation_begin ted) 4 =? 0)
  && (Z.lxor (GetDirection trackElement) 2 =? _edge a)
  && (base_height trackElement + (z_begin ted - block_z (Block ted sequence)) * 8 =? z0).

Definition door_at_end (a : WallPlaceAction) (z0 : Z) (trackElement : TileElement)
    (ted : TrackElementDescriptor) (sequence : Z) : bool :=
  (block_index (Block ted (sequence + 1)) =? 255)
  && (bank_end ted =? 0)
  && (Z.land (rotation_end ted) 4 =? 0)
  && (Z.land (GetDirection trackElement + rotation_end ted) 3 =? _edge a)
  && (base_height trackElement + (z_end ted - block_z (Block ted sequence)) * 8 =? z0).

(** The fresh element that [TileElementInsert] hands to Execute for a wall
    at height [t] (line 352). *)
Definition inserted_wall (t : Z) : TileElement :=
  mkTileElement (Z.quot t COORDS_Z_STEP) (Z.quot t COORDS_Z_STEP) 0 false 0
    (WallData (mkWallElement 0 0 0 0 false 0 0)).

(** [GetSlope()] of a wall element: its slope flags, 0 for other elements. *)
Definition wall_slope_of (e : TileElement) : Z :=
  match data e with
  | WallData wl => wall_Slope wl
  | _ => 0
  end.

(** ** Strong enum operators (util/Enum.hpp)

    The operators are templates over an enum class; they are modelled for an
    enum whose underlying type is unsigned and [bits] wide.  A value of the
    enum is its underlying value; [static_cast<Enum>] of an [int] that the
    integer promotions produced is the reduction to [bits] bits. *)

Module Enum.

Section Operators.
Variable bits : Z.

Definition cast (v : Z) : Z := v mod 2 ^ bits.

(** The values of the underlying type. *)
Definition in_range (v : Z) : Prop := 0 <= v < 2 ^ bits.

(** [operator+]: the underlying value. *)
Definition underlying (lhs : Z) : Z := lhs.

(** [operator!]: the comparison with 0, converted to the underlying type. *)
Definition is_zero (lhs : Z) : Z := if underlying lhs =? 0 then 1 else 0.

(** [operator++] (prefix): the returned value and the new value of [lhs]. *)
Definition pre_increment (lhs : Z) : Z * Z :=
  let lhs := cast (underlying lhs + 1) in (lhs, lhs).

(** [operator++] (postfix): the returned value and the new value of [lhs]. *)
Definition post_increment (lhs : Z) : Z * Z :=
  let ret := lhs in
  let '(_, lhs) := pre_increment lhs in
  (ret, lhs).

(** [operator~], [operator|], [operator&], [operator^]. *)
Definition bit_not (lhs : Z) : Z := cast (Z.lnot (underlying lhs)).
Definition bit_or (lhs rhs : Z) : Z := cast (Z.lor (underlying lhs) (underlying rhs)).
Definition bit_and (lhs rhs : Z) : Z := cast (Z.land (underlying lhs) (underlying rhs)).
Definition bit_xor (lhs rhs : Z) : Z := cast (Z.lxor (underlying lhs) (underlying rhs)).

(** [operator|=], [operator&=], [operator^=]: the returned value and the new
    value of [lhs]. *)
Definition or_assign (lhs rhs : Z) : Z * Z :=
  let lhs := bit_or lhs rhs in (lhs, lhs).
Definition and_assign (lhs rhs : Z) : Z * Z :=
  let lhs := bit_and lhs rhs in (lhs, lhs).
Definition xor_assign (lhs rhs : Z) : Z * Z :=
  let lhs := bit_xor lhs rhs in (lhs, lhs).

(** The loop [for (e = first; e != last; ++e) visit(e)] that the increment
    operators are there for: the values visited, with [fuel] bounding the
    number of iterations; nothing when the fuel runs out. *)
Fixpoint traverse (fuel : nat) (e last : Z) : option (list Z) :=
  if e =? last then Some []
  else
    match fuel with
    | O => None
    | S fuel =>
      match traverse fuel (pre_increment e).2 last with
      | Some visited => Some (e :: visited)
      | None => None
      end
    end.

End Operators.

(** [ConstEnumeratedArray] and [EnumeratedArray]: a pointer to the first
    element of an array, indexed by the underlying value of the enum.  The
    arrays live in a store by address; the default [EnumeratedArray] holds
    the null pointer.  Reading or writing through the null pointer or past
    the array is undefined in the source and yields nothing here. *)
Section Arrays.
Context {ValueType : Type}.



End Arrays.

End Enum.

(** Further test data: the flat tile with a fence on edge 0, a request that
    is a path accessory, a surface with corner 2 raised, and a store with
    one array. *)
Definition test_fenced_world : World :=
  test_world [test_surface 0; test_wall_element 0] 2 [None].

Definition test_path_accessory (wallType edge : Z) : WallPlaceAction :=
  mkWallPlaceAction wallType (mkCoordsXYZ 32 32 0) edge 0 0 0 128.

Definition test_raised_surface : SurfaceElement :=
  mkSurfaceElement (test_surface 4) 4 0.


(** * Properties *)

(** ** The obstruction scan *)

Section ObstructionScan.
Context `{X : Externals}.

Implicit Types (a : WallPlaceAction) (wall : WallSceneryEntry).
Implicit Types (e : TileElement) (across : bool).

Ltac scan_cases :=
  repeat match goal with
  | |- context [match ?d with SurfaceData _ _ => _ | _ => _ end] => destruct d eqn:?
  | |- context [match ?o with Some _ => _ | None => _ end] => destruct o eqn:?
  | |- context [let '(_, _) := ?p in _] => destruct p eqn:?
  | |- context [if ?c then _ else _] => destruct c eqn:?
  | H : context [match ?d with SurfaceData _ _ => _ | _ => _ end] |- _ =>
      destruct d eqn:?
  | H : context [match ?o with Some _ => _ | None => _ end] |- _ => destruct o eqn:?
  | H : context [let '(_, _) := ?p in _] |- _ => destruct p eqn:?
  | H : context [if ?c then _ else _] |- _ => destruct c eqn:?
  end.

(** Whatever the loop body returns is a no-clearance result. *)
Lemma element_conflict_status a wall z0 z1 e across res across' :
  WallCheckObstruction_element a wall z0 z1 e across = (Some res, across') ->
  Error res = Status.NoClearance.
Proof.
  unfold WallCheckObstruction_element. intros H.
  scan_cases; inversion H; subst; reflexivity.
Qed.

(** An element on which the body falls through, whatever the flag, can be
    taken out of the tile without changing the outcome of the scan. *)
Lemma loop_skip a wall z0 z1 e :
  (forall across, WallCheckObstruction_element a wall z0 z1 e across = (None, across)) ->
  forall l1 l2 across,
    WallCheckObstruction_loop a wall z0 z1 (l1 ++ e :: l2) across
    = WallCheckObstruction_loop a wall z0 z1 (l1 ++ l2) across.
Proof.
  intros Hskip l1 l2. induction l1 as [|x l1 IH]; intros across; simpl.
  - rewrite Hskip. reflexivity.
  - destruct (WallCheckObstruction_element a wall z0 z1 x across) as [[r|] ac];
      [reflexivity | apply IH].
Qed.

(** An element on which the body returns, whatever the flag, makes the scan
    of any tile that holds it end in a no-clearance result: its own, or that
    of an element before it. *)
Lemma loop_conflict a wall z0 z1 e :
  (forall across, exists res across',
      WallCheckObstruction_element a wall z0 z1 e across = (Some res, across')) ->
  forall l1 l2 across,
    Error (WallCheckObstruction_loop a wall z0 z1 (l1 ++ e :: l2) across).1
    = Status.NoClearance.
Proof.
  intros Hret l1 l2. induction l1 as [|x l1 IH]; intros across; simpl.
  - destruct (Hret across) as (res & ac & Hres). rewrite Hres. simpl.
    eapply element_conflict_status; eassumption.
  - destruct (WallCheckObstruction_element a wall z0 z1 x across) as [[r|] ac] eqn:Hx.
    + simpl. eapply element_conflict_status; eassumption.
    + apply IH.
Qed.

(** The scan ends in [Ok] or in a no-clearance result. *)
Lemma loop_status a wall z0 z1 l across :
  Error (WallCheckObstruction_loop a wall z0 z1 l across).1 = Status.Ok
  \/ Error (WallCheckObstruction_loop a wall z0 z1 l across).1 = Status.NoClearance.
Proof.
  revert across. induction l as [|x l IH]; intros across; simpl.
  - left. reflexivity.
  - destruct (WallCheckObstruction_element a wall z0 z1 x across) as [[r|] ac] eqn:Hx.
    + right. simpl. eapply element_conflict_status; eassumption.
    + apply IH.
Qed.

(** C6: an element examined by the scan is skipped by the two height
    comparisons exactly when its clearance height is at most z0 or its base
    height is at least z1.  Such an element never causes a conflict: the
    body falls through on it and the scan of a tile is the same with and
    without it.  The comparisons skip nothing else: an entrance that
    occupies the tile is passed over if and only if one of them holds.  For
    intervals that are not empty the test says that [z0, z1) and
    [base, clearance) have no height in common. *)
Theorem height_skip_exact a wall z0 z1 e :
  ((clearance_height e <= z0 \/ z1 <= base_height e) ->
     (forall across,
         WallCheckObstruction_element a wall z0 z1 e across = (None, across))
     /\ (forall l1 l2 across,
           WallCheckObstruction_loop a wall z0 z1 (l1 ++ e :: l2) across
           = WallCheckObstruction_loop a wall z0 z1 (l1 ++ l2) across))
  /\ (GetType e = TILE_ELEMENT_TYPE_ENTRANCE -> IsGhost e = false ->
      GetOccupiedQuadrants e <> 0 ->
      forall across,
        WallCheckObstruction_element a wall z0 z1 e across = (None, across)
        <-> (clearance_height e <= z0 \/ z1 <= base_height e))
  /\ (z0 < z1 -> base_height e < clearance_height e ->
      (clearance_height e <= z0 \/ z1 <= base_height e)
      <-> ~ exists z, (z0 <= z < z1) /\ (base_height e <= z < clearance_height e)).
Proof.
  assert (Hskip : (clearance_height e <= z0 \/ z1 <= base_height e) ->
            forall across,
              WallCheckObstruction_element a wall z0 z1 e across = (None, across)).
  { intros Hcmp across. unfold WallCheckObstruction_element.
    destruct (data e); try reflexivity;
      destruct (IsGhost e); try reflexivity;
      destruct (Z.geb_spec z0 (clearance_height e)); try reflexivity;
      destruct (Z.leb_spec z1 (base_height e)); try reflexivity; lia. }
  split; [|split].
  - intros Hcmp. split; [auto|]. apply loop_skip; auto.
  - intros Hty Hghost Hquad across. split; [|auto].
    unfold WallCheckObstruction_element, GetType in *.
    destruct (data e); try discriminate. rewrite Hghost.
    destruct (Z.geb_spec z0 (clearance_height e)); [lia|].
    destruct (Z.leb_spec z1 (base_height e)); [lia|].
    destruct (Z.eqb_spec (GetOccupiedQuadrants e) 0); [contradiction|].
    discriminate.
  - intros Hcand Helem. split.
    + intros Hcmp (z & Hz0 & Hz1). lia.
    + intros Hnone.
      destruct (Z_le_gt_dec (clearance_height e) z0) as [|Hc]; [auto|].
      destruct (Z_le_gt_dec z1 (base_height e)) as [|Hb]; [auto|].
      exfalso. apply Hnone. exists (Z.max z0 (base_height e)). lia.
Qed.

(** The body on a wall element. *)
Lemma wall_element_body a wall z0 z1 e across :
  GetType e = TILE_ELEMENT_TYPE_WALL ->
  WallCheckObstruction_element a wall z0 z1 e across
  = if IsGhost e || (z0 >=? clearance_height e) || (z1 <=? base_height e)
    then (None, across)
    else if _edge a =? GetDirection e
         then (Some (map_obstruction_set_error_text e
                       (MakeResult2 Status.NoClearance STR_NONE)), across)
         else (None, across).
Proof.
  intros Hty. unfold WallCheckObstruction_element, GetType in *.
  destruct (data e); try discriminate.
  destruct (IsGhost e), (z0 >=? clearance_height e), (z1 <=? base_height e);
    reflexivity.
Qed.

(** C5: for an existing wall element that is not a ghost and overlaps the
    candidate interval, the body reports a conflict (NoClearance, naming the
    wall) if and only if the wall stands on the edge of the candidate.  On
    the same edge the scan of any tile holding the wall ends in NoClearance;
    on another edge the wall is passed over and the scan is the same with
    and without it. *)
Theorem wall_conflict_iff_same_edge a wall z0 z1 e :
  GetType e = TILE_ELEMENT_TYPE_WALL -> IsGhost e = false ->
  z0 < clearance_height e -> base_height e < z1 ->
  (forall across,
      (exists res,
          WallCheckObstruction_element a wall z0 z1 e across = (Some res, across)
          /\ Error res = Status.NoClearance /\ ObstructedBy res = Some e)
      <-> _edge a = GetDirection e)
  /\ (_edge a = GetDirection e ->
      forall l1 l2 across,
        Error (WallCheckObstruction_loop a wall z0 z1 (l1 ++ e :: l2) across).1
        = Status.NoClearance)
  /\ (_edge a <> GetDirection e ->
      (forall across,
          WallCheckObstruction_element a wall z0 z1 e across = (None, across))
      /\ (forall l1 l2 across,
            WallCheckObstruction_loop a wall z0 z1 (l1 ++ e :: l2) across
            = WallCheckObstruction_loop a wall z0 z1 (l1 ++ l2) across)).
Proof.
  intros Hty Hghost Hc Hb.
  assert (Hbody : forall across,
            WallCheckObstruction_element a wall z0 z1 e across
            = if _edge a =? GetDirection e
              then (Some (map_obstruction_set_error_text e
                            (MakeResult2 Status.NoClearance STR_NONE)), across)
              else (None, across)).
  { intros across. rewrite (wall_element_body a wall z0 z1 e across Hty), Hghost.
    destruct (Z.geb_spec z0 (clearance_height e)); [lia|].
    destruct (Z.leb_spec z1 (base_height e)); [lia|]. reflexivity. }
  split; [|split].
  - intros across. rewrite Hbody.
    destruct (Z.eqb_spec (_edge a) (GetDirection e)) as [Heq|Hne]; split.
    + auto.
    + intros _. eexists. split; [reflexivity|]. split; reflexivity.
    + intros (res & Hres & _). discriminate.
    + contradiction.
  - intros Heq. apply loop_conflict. intros across. rewrite Hbody.
    apply Z.eqb_eq in Heq. rewrite Heq. eauto.
  - intros Hne.
    assert (Hnone : forall across,
              WallCheckObstruction_element a wall z0 z1 e across = (None, across)).
    { intros across. rewrite Hbody. apply Z.eqb_neq in Hne. rewrite Hne.
      reflexivity. }
    split; [exact Hnone|]. apply loop_skip. exact Hnone.
Qed.

(** C8, amended: an entrance element that is not a ghost, overlaps the
    candidate interval and has a non-empty occupancy mask always produces a
    conflict (NoClearance, naming the entrance), for every edge, and the
    scan of any tile holding it ends in NoClearance. *)
Theorem occupying_entrance_conflicts a wall z0 z1 e :
  GetType e = TILE_ELEMENT_TYPE_ENTRANCE -> IsGhost e = false ->
  z0 < clearance_height e -> base_height e < z1 ->
  GetOccupiedQuadrants e <> 0 ->
  (forall across,
      WallCheckObstruction_element a wall z0 z1 e across
      = (Some (map_obstruction_set_error_text e
                 (MakeResult2 Status.NoClearance STR_NONE)), across))
  /\ (forall l1 l2 across,
        Error (WallCheckObstruction_loop a wall z0 z1 (l1 ++ e :: l2) across).1
        = Status.NoClearance).
Proof.
  intros Hty Hghost Hc Hb Hquad.
  assert (Hbody : forall across,
            WallCheckObstruction_element a wall z0 z1 e across
            = (Some (map_obstruction_set_error_text e
                       (MakeResult2 Status.NoClearance STR_NONE)), across)).
  { intros across. unfold WallCheckObstruction_element, GetType in *.
    destruct (data e); try discriminate. rewrite Hghost.
    destruct (Z.geb_spec z0 (clearance_height e)); [lia|].
    destruct (Z.leb_spec z1 (base_height e)); [lia|].
    destruct (Z.eqb_spec (GetOccupiedQuadrants e) 0); [contradiction|].
    reflexivity. }
  split; [exact Hbody|]. apply loop_conflict. intros across. rewrite Hbody. eauto.
Qed.

Lemma land_1_odd (z : Z) : Z.odd z = true -> (Z.land z 1 =? 0) = false.
Proof.
  intros Hodd. apply Z.eqb_neq. intros Hland.
  assert (Hbit : Z.testbit (Z.land z 1) 0 = true).
  { rewrite Z.land_spec, Z.bit0_odd, Hodd. reflexivity. }
  rewrite Hland in Hbit. discriminate.
Qed.

(** C10, amended: for a door wall over a track element whose ride type
    permits doors on its track and whose track piece does not itself allow a
    wall on that edge, an odd candidate base height z0 makes the track check
    answer not-allowed (with the across-track flag raised), whatever the
    sequence, rotation and heights of the track piece are; the body then
    reports a conflict and the scan of any tile holding the track element
    (not a ghost, overlapping, occupying the tile) ends in NoClearance. *)
Theorem odd_base_height_rejects_door
    a wall z0 e trackType sequence rideIndex ride :
  has_flag (wall_flags wall) WALL_SCENERY_IS_DOOR = true ->
  get_ride rideIndex = Some ride ->
  RideTypeHasFlag (ride_type ride) RIDE_TYPE_FLAG_ALLOW_DOORS_ON_TRACK = true ->
  TrackIsAllowedWallEdges (ride_type ride) trackType sequence
    (Z.land (_edge a - GetDirection e) TILE_ELEMENT_DIRECTION_MASK) = false ->
  Z.odd z0 = true ->
  (forall across,
      WallCheckObstructionWithTrack a wall z0 e trackType sequence rideIndex across
      = (false, true))
  /\ (data e = TrackData trackType sequence rideIndex -> IsGhost e = false ->
      GetOccupiedQuadrants e <> 0 ->
      forall z1, z0 < clearance_height e -> base_height e < z1 ->
      (forall across,
          WallCheckObstruction_element a wall z0 z1 e across
          = (Some (MakeResult2 Status.NoClearance STR_NONE), true))
      /\ (forall l1 l2 across,
            Error (WallCheckObstruction_loop a wall z0 z1 (l1 ++ e :: l2) across).1
            = Status.NoClearance)).
Proof.
  intros Hdoor Hride Hallow Hedges Hodd.
  assert (Htrack : forall across,
            WallCheckObstructionWithTrack a wall z0 e trackType sequence rideIndex across
            = (false, true)).
  { intros across. unfold WallCheckObstructionWithTrack.
    rewrite Hride, Hedges, Hdoor, Hallow. simpl.
    rewrite (land_1_odd z0 Hodd). reflexivity. }
  split; [exact Htrack|].
  intros Hdata Hghost Hquad z1 Hc Hb.
  assert (Hbody : forall across,
            WallCheckObstruction_element a wall z0 z1 e across
            = (Some (MakeResult2 Status.NoClearance STR_NONE), true)).
  { intros across. unfold WallCheckObstruction_element.
    rewrite Hdata, Hghost.
    destruct (Z.geb_spec z0 (clearance_height e)); [lia|].
    destruct (Z.leb_spec z1 (base_height e)); [lia|].
    destruct (Z.eqb_spec (GetOccupiedQuadrants e) 0); [contradiction|].
    rewrite Htrack. reflexivity. }
  split; [exact Hbody|]. apply loop_conflict. intros across. rewrite Hbody. eauto.
Qed.

End ObstructionScan.

(** ** Height resolution and clearance *)

Section HeightAndClearance.
Context `{X : Externals}.

Lemma has_flag_cleared (v mask : Z) :
  has_flag (Z.land v (Z.lnot mask)) mask = false.
Proof.
  unfold has_flag.
  rewrite <- Z.land_assoc, (Z.land_comm (Z.lnot mask)), Z.land_lnot_diag, Z.land_0_r.
  reflexivity.
Qed.

Lemma land_3_edge (edge : Z) : 0 <= edge <= 3 -> Z.land edge 3 = edge.
Proof.
  intros H. change 3 with (Z.ones 2). rewrite Z.land_ones by lia.
  apply Z.mod_small. simpl. lia.
Qed.

(** C7: with request height 0 the resolved target height is the base
    height of the surface element and the slope flags are the entry of the
    table at the surface slope and the edge; if that entry has the elevated
    flag the target height is 16 units more and the flag is cleared in the
    resolved flags.  With a request height other than 0 the target height is
    the request height and the slope flags are flat. *)
Theorem resolve_target_height_spec (a : WallPlaceAction) (w : World) :
  (coord_z (_loc a) = 0 ->
   forall s, map_get_surface_element_at w (_loc a) = Some s ->
     let entry := LandSlopeToWallSlope (GetSlope s) (Z.land (_edge a) 3) in
     (has_flag entry EDGE_SLOPE_ELEVATED = false ->
        ResolveTargetHeight a w = inr (GetBaseZ (surface_element s), entry))
     /\ (has_flag entry EDGE_SLOPE_ELEVATED = true ->
          ResolveTargetHeight a w
          = inr (GetBaseZ (surface_element s) + 16,
                 Z.land entry (Z.lnot EDGE_SLOPE_ELEVATED))
          /\ has_flag (Z.land entry (Z.lnot EDGE_SLOPE_ELEVATED))
                      EDGE_SLOPE_ELEVATED = false))
  /\ (coord_z (_loc a) <> 0 ->
      ResolveTargetHeight a w = inr (coord_z (_loc a), 0))
  /\ (0 <= _edge a <= 3 -> Z.land (_edge a) 3 = _edge a).
Proof.
  split; [|split].
  - intros Hz s Hs entry. unfold ResolveTargetHeight.
    rewrite Hz, Hs. simpl. fold entry. split.
    + intros Hflat. rewrite Hflat. reflexivity.
    + intros Helev. rewrite Helev. split; [reflexivity|]. apply has_flag_cleared.
  - intros Hz. unfold ResolveTargetHeight.
    apply Z.eqb_neq in Hz. rewrite Hz. reflexivity.
  - apply land_3_edge.
Qed.

(** The only error of the height resolution is the missing surface. *)
Lemma ResolveTargetHeight_error (a : WallPlaceAction) (w : World) err :
  ResolveTargetHeight a w = inl err ->
  err = MakeResult3 Status.InvalidParameters STR_CANT_BUILD_THIS_HERE STR_NONE.
Proof.
  unfold ResolveTargetHeight. intros H.
  destruct (coord_z (_loc a) =? 0); [|discriminate].
  destruct (map_get_surface_element_at w (_loc a)); [|congruence].
  destruct (has_flag _ _); discriminate.
Qed.

(** The obstruction check ends in [Ok], InvalidParameters (off the edge of
    the map) or NoClearance. *)
Lemma CheckObstruction_status (a : WallPlaceAction) (w : World) wall z0 z1 :
  let st := Error (CheckObstruction a w wall z0 z1).1 in
  st = Status.Ok \/ st = Status.InvalidParameters \/ st = Status.NoClearance.
Proof.
  unfold CheckObstruction, WallCheckObstruction.
  destruct (_ && _); [|left; reflexivity].
  destruct (map_is_location_at_edge (_loc a)); [right; left; reflexivity|].
  destruct (loop_status a wall z0 z1 (map_get_first_element_at w (_loc a)) false)
    as [H|H]; simpl; rewrite H; auto.
Qed.

Lemma u8_add_l (x y : Z) : u8 (u8 x + y) = u8 (x + y).
Proof. unfold u8. apply Zplus_mod_idemp_l. Qed.

(** C4, amended: Execute repeats the clearance computation of step (9)
    exactly: the target level, plus 2 if the edge slopes up or down, plus
    the height of the wall, as an 8-bit value; Query computes the same
    value unless it rejects.  The rejection is not repeated: Query returns
    Disallowed when the edge slopes and the catalog entry forbids slopes,
    and Execute never returns Disallowed. *)
Theorem clearance_repeated_rejection_not
    (wallEntry : WallSceneryEntry) (targetHeight edgeSlope : Z) :
  Execute_clearanceHeight wallEntry targetHeight edgeSlope
  = (Z.quot targetHeight 8 + (if edge_is_sloped edgeSlope then 2 else 0)
     + wall_height wallEntry) mod 256
  /\ Query_clearanceHeight wallEntry targetHeight edgeSlope
    = (if edge_is_sloped edgeSlope
          && has_flag (wall_flags wallEntry) WALL_SCENERY_CANT_BUILD_ON_SLOPE
       then inl (MakeResult3 Status.Disallowed STR_CANT_BUILD_THIS_HERE
                             STR_ERR_UNABLE_TO_BUILD_THIS_ON_SLOPE)
       else inr (Execute_clearanceHeight wallEntry targetHeight edgeSlope))
  /\ (forall a w, Error (Execute a w).1 <> Status.Disallowed).
Proof.
  split; [|split].
  - unfold Execute_clearanceHeight. change COORDS_Z_STEP with 8.
    destruct (edge_is_sloped edgeSlope).
    + rewrite u8_add_l, <- Z.add_assoc, u8_add_l, Z.add_assoc. reflexivity.
    + rewrite u8_add_l, Z.add_0_r. reflexivity.
  - unfold Query_clearanceHeight, Execute_clearanceHeight.
    change COORDS_Z_STEP with 8.
    destruct (edge_is_sloped edgeSlope); simpl; [|reflexivity].
    destruct (has_flag _ _); reflexivity.
  - intros a w. unfold Execute.
    destruct (ResolveTargetHeight a w) as [err|[targetHeight' edgeSlope']] eqn:Hres.
    { apply ResolveTargetHeight_error in Hres. subst err. discriminate. }
    destruct (get_wall_entry (_wallType a)) as [entry|]; [|discriminate].
    pose proof (CheckObstruction_status a w entry
                  (Z.quot targetHeight' COORDS_Z_STEP)
                  (Execute_clearanceHeight entry targetHeight' edgeSlope')) as Hst.
    destruct (CheckObstruction a w entry _ _) as [result across].
    simpl in Hst.
    destruct (negb (Status.eqb (Error result) Status.Ok)).
    { simpl. destruct Hst as [H|[H|H]]; rewrite H; discriminate. }
    destruct (Execute_banner a entry _ w) as [[banner w1]|]; [|discriminate].
    destruct (TileElementInsert _ 0 _ w1) as [[[handle inserted]|] w2]; discriminate.
Qed.

End HeightAndClearance.

(** ** The two phases *)

Section TwoPhase.
Context `{X : Externals}.

Implicit Types (a : WallPlaceAction) (w : World).

Lemma Status_eqb_eq (s1 s2 : Status.t) : Status.eqb s1 s2 = true <-> s1 = s2.
Proof. destruct s1, s2; simpl; split; intros H; try reflexivity; discriminate. Qed.

Lemma negb_Status_eqb_false (s1 s2 : Status.t) :
  negb (Status.eqb s1 s2) = false <-> s1 = s2.
Proof. rewrite negb_false_iff. apply Status_eqb_eq. Qed.

Lemma MapCheckCapacityAndReorganise_ok loc w :
  (MapCheckCapacityAndReorganise loc w).1 = has_capacity w.
Proof.
  unfold MapCheckCapacityAndReorganise, has_capacity.
  destruct (tileElementsInUse w + 1 <=? MAX_TILE_ELEMENTS); reflexivity.
Qed.

Lemma MapCheckCapacityAndReorganise_world loc w :
  (MapCheckCapacityAndReorganise loc w).2 = w
  \/ (tileElementsInUse w + 1 <=? MAX_TILE_ELEMENTS) = false
     /\ (MapCheckCapacityAndReorganise loc w).2 = map_reorganise_elements w.
Proof.
  unfold MapCheckCapacityAndReorganise.
  destruct (tileElementsInUse w + 1 <=? MAX_TILE_ELEMENTS); auto.
Qed.

Lemma has_capacity_after loc w :
  has_capacity w = true ->
  has_capacity (MapCheckCapacityAndReorganise loc w).2 = true.
Proof.
  unfold MapCheckCapacityAndReorganise, has_capacity.
  destruct (tileElementsInUse w + 1 <=? MAX_TILE_ELEMENTS) eqn:Hfree; simpl.
  - rewrite Hfree. reflexivity.
  - intros Hlive. unfold live_elements in *. simpl. rewrite Hlive. reflexivity.
Qed.

(** The checks of [Query] before the catalog lookup never yield [Ok] as an
    error, and passing them means that the heights resolved and the tile has
    a surface. *)
Lemma Query_CheckTerrain_error a w err :
  Query_CheckTerrain a w = inl err -> Error err <> Status.Ok.
Proof.
  unfold Query_CheckTerrain. intros H.
  repeat match type of H with
  | context [if ?c then _ else _] => destruct c eqn:?
  end;
  try (inversion H; subst; discriminate).
  all: destruct (ResolveTargetHeight a w) as [e|[t s]] eqn:Hres;
    [ apply ResolveTargetHeight_error in Hres; inversion H; subst; discriminate |].
  all: destruct (map_get_surface_element_at w (_loc a));
    [| inversion H; subst; discriminate].
  all: repeat match type of H with
       | context [if ?c then _ else _] => destruct c eqn:?
       end; inversion H; subst; discriminate.
Qed.

Lemma Query_CheckTerrain_ok a w t s :
  Query_CheckTerrain a w = inr (t, s) ->
  ResolveTargetHeight a w = inr (t, s)
  /\ exists surfaceElement, map_get_surface_element_at w (_loc a) = Some surfaceElement.
Proof.
  unfold Query_CheckTerrain. intros H.
  repeat match type of H with
  | context [if ?c then _ else _] => destruct c eqn:?
  end; try discriminate.
  all: destruct (ResolveTargetHeight a w) as [e|[t' s']] eqn:Hres; [discriminate|].
  all: destruct (map_get_surface_element_at w (_loc a)) eqn:Hsurf; [|discriminate].
  all: repeat match type of H with
       | context [if ?c then _ else _] => destruct c eqn:?
       end; try discriminate.
  all: inversion H; subst; eauto.
Qed.

(** What [Query] does to the world: nothing, or the compaction of its
    capacity check. *)
Lemma Query_world a w :
  (Query a w).2 = w
  \/ (tileElementsInUse w + 1 <=? MAX_TILE_ELEMENTS) = false
     /\ (Query a w).2 = map_reorganise_elements w.
Proof.
  unfold Query. destruct (Query_validate a w) as [err|wallEntry]; [left; reflexivity|].
  pose proof (MapCheckCapacityAndReorganise_world (_loc a) w) as Hw.
  destruct (MapCheckCapacityAndReorganise (_loc a) w) as [ok w'].
  destruct (negb ok); exact Hw.
Qed.

(** C3, amended: whatever it returns, Query leaves the element stacks of
    all tiles, the banner registry, the global flags and the side channels
    unchanged.  The one thing it can change is the slot count of the tile
    storage pool, through the compaction its capacity check performs when
    the pool has no free slot; if a check before the capacity check fails,
    or the pool has a free slot, the world is left exactly as it was. *)
Theorem query_changes_only_pool_accounting a w :
  let w' := (Query a w).2 in
  (w' = w \/ w' = map_reorganise_elements w)
  /\ tileElements w' = tileElements w
  /\ banners w' = banners w
  /\ gScreenFlags w' = gScreenFlags w
  /\ gCheatsSandboxMode w' = gCheatsSandboxMode w
  /\ gCheatsDisableClearanceChecks w' = gCheatsDisableClearanceChecks w
  /\ _trackDesignDrawingPreview w' = _trackDesignDrawingPreview w
  /\ mapAnimations w' = mapAnimations w
  /\ invalidatedTiles w' = invalidatedTiles w
  /\ (tileElementsInUse w + 1 <= MAX_TILE_ELEMENTS -> w' = w)
  /\ (forall err, Query_validate a w = inl err -> Query a w = (err, w)).
Proof.
  intros w'. subst w'.
  destruct (Query_world a w) as [Hw|[Hfull Hw]]; rewrite Hw.
  - repeat split; auto. intros err Herr. unfold Query. rewrite Herr. reflexivity.
  - repeat split; auto.
    + intros Hfree. apply Z.leb_nle in Hfull. contradiction.
    + intros err Herr. unfold Query. rewrite Herr. reflexivity.
Qed.

Lemma HasReachedBannerLimit_CreateBanner w :
  HasReachedBannerLimit w = true -> CreateBanner w = (None, w).
Proof.
  unfold HasReachedBannerLimit, CreateBanner.
  destruct (first_free_slot (banners w)); [discriminate|reflexivity].
Qed.

(** C9, amended: for a wall whose catalog entry requires a sign, with the
    banner registry exhausted, Query and Execute both fail and leave the
    world, and with it the registry, as it was: no banner is allocated.  The
    status is InvalidParameters (too many banners) whenever the request gets
    as far as the banner step: in Query when the location, ownership, edge,
    surface, water and ground checks pass, in Execute when the heights
    resolve and the obstruction check passes. *)
Theorem exhausted_registry_fails a w wallEntry :
  get_wall_entry (_wallType a) = Some wallEntry ->
  scrolling_mode wallEntry <> SCROLLING_MODE_NONE ->
  HasReachedBannerLimit w = true ->
  let TooMany := MakeResult3 Status.InvalidParameters STR_CANT_BUILD_THIS_HERE
                             STR_TOO_MANY_BANNERS_IN_GAME in
  (Error (Query a w).1 <> Status.Ok /\ (Query a w).2 = w)
  /\ (Error (Execute a w).1 <> Status.Ok /\ (Execute a w).2 = w)
  /\ (forall t s, Query_CheckTerrain a w = inr (t, s) -> Query a w = (TooMany, w))
  /\ (forall t s, ResolveTargetHeight a w = inr (t, s) ->
        Error (CheckObstruction a w wallEntry (Z.quot t COORDS_Z_STEP)
                 (Execute_clearanceHeight wallEntry t s)).1 = Status.Ok ->
        Execute a w = (TooMany, w)).
Proof.
  intros Hentry Hsign Hfull TooMany.
  apply Z.eqb_neq in Hsign.
  assert (HQ : forall t s, Query_CheckTerrain a w = inr (t, s) ->
                 Query a w = (TooMany, w)).
  { intros t s Hterrain. unfold Query, Query_validate.
    rewrite Hterrain, Hentry, Hsign, Hfull. reflexivity. }
  assert (HE : forall t s, ResolveTargetHeight a w = inr (t, s) ->
                 Error (CheckObstruction a w wallEntry (Z.quot t COORDS_Z_STEP)
                          (Execute_clearanceHeight wallEntry t s)).1 = Status.Ok ->
                 Execute a w = (TooMany, w)).
  { intros t s Hres Hobst. unfold Execute. rewrite Hres, Hentry.
    destruct (CheckObstruction a w wallEntry _ _) as [result across].
    simpl in Hobst. rewrite Hobst. simpl.
    unfold Execute_banner. rewrite Hsign. simpl.
    rewrite (HasReachedBannerLimit_CreateBanner w Hfull). reflexivity. }
  split; [|split; [|split]]; [| |exact HQ|exact HE].
  - destruct (Query_CheckTerrain a w) as [err|[t s]] eqn:Hterrain.
    + unfold Query, Query_validate. rewrite Hterrain. simpl.
      split; [|reflexivity]. eapply Query_CheckTerrain_error; eassumption.
    + rewrite (HQ t s eq_refl). split; [discriminate|reflexivity].
  - destruct (ResolveTargetHeight a w) as [err|[t s]] eqn:Hres.
    + unfold Execute. rewrite Hres. simpl. split; [|reflexivity].
      apply ResolveTargetHeight_error in Hres. subst err. discriminate.
    + destruct (Status.eqb (Error (CheckObstruction a w wallEntry
                  (Z.quot t COORDS_Z_STEP)
                  (Execute_clearanceHeight wallEntry t s)).1) Status.Ok) eqn:Hobst.
      * apply Status_eqb_eq in Hobst. rewrite (HE t s eq_refl Hobst).
        split; [discriminate|reflexivity].
      * unfold Execute. rewrite Hres, Hentry.
        destruct (CheckObstruction a w wallEntry _ _) as [result across].
        simpl in Hobst. rewrite Hobst. simpl. split; [|reflexivity].
        intros Hok. apply Status_eqb_eq in Hok. congruence.
Qed.

(** *** A successful Query is followed by a successful Execute *)

Lemma insert_index_le h (l : list TileElement) : (insert_index h l <= length l)%nat.
Proof.
  induction l as [|e l IH]; simpl; [lia|].
  destruct (base_height e <=? h); simpl; lia.
Qed.

Lemma insert_middle {A} (l : list A) (i : nat) (x y : A) :
  (i <= length l)%nat ->
  <[i := y]> (take i l ++ x :: drop i l) = take i l ++ y :: drop i l.
Proof.
  intros Hi. rewrite insert_app_r_alt; rewrite length_take_le by lia; [|lia].
  rewrite Nat.sub_diag. reflexivity.
Qed.

Lemma Execute_banner_ok a wallEntry targetLoc w :
  (scrolling_mode wallEntry <> SCROLLING_MODE_NONE -> HasReachedBannerLimit w = false) ->
  exists banner w1,
    Execute_banner a wallEntry targetLoc w = Some (banner, w1)
    /\ tileElements w1 = tileElements w
    /\ tileElementsInUse w1 = tileElementsInUse w.
Proof.
  intros Hfree. unfold Execute_banner.
  destruct (Z.eqb_spec (scrolling_mode wallEntry) SCROLLING_MODE_NONE) as [|Hsign]; simpl.
  - exists None, w. auto.
  - specialize (Hfree Hsign). unfold HasReachedBannerLimit in Hfree.
    unfold CreateBanner. destruct (first_free_slot (banners w)); [|discriminate].
    eexists _, _. split; [reflexivity|]. split; reflexivity.
Qed.

Lemma TileElementInsert_ok loc occupiedQuadrants d w elements :
  has_capacity w = true ->
  tileElements w !! TileCoordsXY loc = Some elements ->
  let h := Z.quot (coord_z loc) COORDS_Z_STEP in
  let e := mkTileElement h h 0 false occupiedQuadrants d in
  let i := insert_index h elements in
  exists w2,
    TileElementInsert loc occupiedQuadrants d w = (Some (TileCoordsXY loc, i, e), w2)
    /\ tileElements w2
       = <[TileCoordsXY loc := take i elements ++ e :: drop i elements]> (tileElements w).
Proof.
  intros Hcap Htile h e i. unfold TileElementInsert.
  pose proof (MapCheckCapacityAndReorganise_ok loc w) as Hok.
  pose proof (MapCheckCapacityAndReorganise_world loc w) as Hw.
  destruct (MapCheckCapacityAndReorganise loc w) as [ok w1]. simpl in Hok, Hw.
  rewrite Hok, Hcap. simpl.
  assert (Htiles : tileElements w1 = tileElements w).
  { destruct Hw as [->|[_ ->]]; reflexivity. }
  rewrite Htiles, Htile. eexists. split; reflexivity.
Qed.

Lemma Execute_succeeds a w t s wallEntry elements result across :
  ResolveTargetHeight a w = inr (t, s) ->
  get_wall_entry (_wallType a) = Some wallEntry ->
  CheckObstruction a w wallEntry (Z.quot t COORDS_Z_STEP)
    (Execute_clearanceHeight wallEntry t s) = (result, across) ->
  Error result = Status.Ok ->
  (scrolling_mode wallEntry <> SCROLLING_MODE_NONE -> HasReachedBannerLimit w = false) ->
  tileElements w !! TileCoordsXY (_loc a) = Some elements ->
  has_capacity w = true ->
  exists wallElement bannerId i,
    (Execute a w).1
    = set_Cost_Data (wall_price wallEntry)
        (mkWallPlaceActionResult (GetBaseZ wallElement) bannerId) (InitialResult a)
    /\ tileElements (Execute a w).2 !! TileCoordsXY (_loc a)
       = Some (take i elements ++ wallElement :: drop i elements)
    /\ GetType wallElement = TILE_ELEMENT_TYPE_WALL
    /\ base_height wallElement = Z.quot t COORDS_Z_STEP
    /\ clearance_height wallElement = Execute_clearanceHeight wallEntry t s
    /\ GetDirection wallElement = Z.land (_edge a) 3
    /\ IsGhost wallElement = has_flag (GetFlags a) GAME_COMMAND_FLAG_GHOST.
Proof.
  intros Hres Hentry Hobst Hok Hfree Htile Hcap.
  unfold Execute. rewrite Hres, Hentry, Hobst, Hok. simpl.
  set (targetLoc := mkCoordsXYZ (coord_x (_loc a)) (coord_y (_loc a)) t).
  destruct (Execute_banner_ok a wallEntry targetLoc w Hfree)
    as (banner & w1 & -> & Htiles1 & Hinuse1).
  assert (Hcap1 : has_capacity w1 = true).
  { unfold has_capacity, live_elements in *. rewrite Htiles1, Hinuse1. exact Hcap. }
  assert (Htile1 : tileElements w1 !! TileCoordsXY targetLoc = Some elements).
  { rewrite Htiles1. exact Htile. }
  destruct (TileElementInsert_ok targetLoc 0
              (WallData (mkWallElement 0 0 0 0 false 0 0)) w1 elements Hcap1 Htile1)
    as (w2 & -> & Htiles2).
  eexists _, _, _. split; [reflexivity|]. simpl.
  split; [|repeat split].
  unfold store_element. simpl. rewrite Htiles2.
  change (TileCoordsXY targetLoc) with (TileCoordsXY (_loc a)).
  rewrite lookup_alter_eq, lookup_insert_eq. simpl.
  rewrite insert_middle by apply insert_index_le. reflexivity.
Qed.

Lemma Query_clearanceHeight_ok wallEntry t s clearanceHeight :
  Query_clearanceHeight wallEntry t s = inr clearanceHeight ->
  clearanceHeight = Execute_clearanceHeight wallEntry t s.
Proof.
  unfold Query_clearanceHeight, Execute_clearanceHeight.
  change COORDS_Z_STEP with 8.
  destruct (edge_is_sloped s); [destruct (has_flag _ _); [discriminate|]|];
    intros H; inversion H; reflexivity.
Qed.

Lemma Query_validate_error a w err :
  Query_validate a w = inl err -> Error err <> Status.Ok.
Proof.
  unfold Query_validate. intros H.
  destruct (Query_CheckTerrain a w) as [e|[t s]] eqn:Hterrain.
  { inversion H; subst. eapply Query_CheckTerrain_error; eassumption. }
  destruct (get_wall_entry (_wallType a)) as [wallEntry|];
    [|inversion H; subst; discriminate].
  destruct (_ && _); [inversion H; subst; discriminate|].
  unfold Query_clearanceHeight in H.
  destruct (edge_is_sloped s);
    [destruct (has_flag _ _); [inversion H; subst; discriminate|]|].
  all: destruct (CheckObstruction a w wallEntry _ _) as [result across].
  all: destruct (negb (Status.eqb (Error result) Status.Ok)) eqn:Hst; [|discriminate].
  all: inversion H; subst; intros Hok; apply Status_eqb_eq in Hok;
    rewrite Hok in Hst; discriminate.
Qed.

Lemma Query_validate_ok a w wallEntry :
  Query_validate a w = inr wallEntry ->
  exists t s result across,
    Query_CheckTerrain a w = inr (t, s)
    /\ get_wall_entry (_wallType a) = Some wallEntry
    /\ (scrolling_mode wallEntry <> SCROLLING_MODE_NONE ->
        HasReachedBannerLimit w = false)
    /\ CheckObstruction a w wallEntry (Z.quot t 8)
         (Execute_clearanceHeight wallEntry t s) = (result, across)
    /\ Error result = Status.Ok.
Proof.
  unfold Query_validate. intros H.
  destruct (Query_CheckTerrain a w) as [e|[t s]]; [discriminate|].
  destruct (get_wall_entry (_wallType a)) as [entry|]; [|discriminate].
  destruct (negb (scrolling_mode entry =? SCROLLING_MODE_NONE)
            && HasReachedBannerLimit w) eqn:Hbanner; [discriminate|].
  destruct (Query_clearanceHeight entry t s) as [e|clearanceHeight] eqn:Hclear;
    [discriminate|].
  apply Query_clearanceHeight_ok in Hclear. subst clearanceHeight.
  destruct (CheckObstruction a w entry _ _) as [result across] eqn:Hobst.
  destruct (negb (Status.eqb (Error result) Status.Ok)) eqn:Hst; [discriminate|].
  inversion H; subst. exists t, s, result, across.
  repeat split; auto.
  - intros Hsign. apply Z.eqb_neq in Hsign. rewrite Hsign in Hbanner.
    exact Hbanner.
  - apply negb_Status_eqb_false. exact Hst.
Qed.

Lemma surface_has_tile w loc surfaceElement :
  map_get_surface_element_at w loc = Some surfaceElement ->
  tileElements w !! TileCoordsXY loc = Some (map_get_first_element_at w loc).
Proof.
  unfold map_get_surface_element_at, map_get_first_element_at.
  destruct (tileElements w !! TileCoordsXY loc); [reflexivity|discriminate].
Qed.

(** *** The banner of a failed insertion *)

Lemma first_free_slot_free (slots : list (option Banner)) (i : nat) :
  first_free_slot slots = Some i -> slots !! i = Some None.
Proof.
  revert i. induction slots as [|[b|] slots IH]; intros i H; simpl in H.
  - discriminate.
  - destruct (first_free_slot slots) as [j|]; [|discriminate].
    inversion H; subst. simpl. apply IH. reflexivity.
  - inversion H; subst. reflexivity.
Qed.

(** When [Execute_banner] yields a banner, its slot was free before and
    holds the banner after. *)
Lemma Execute_banner_allocates a wallEntry targetLoc w banner w1 :
  Execute_banner a wallEntry targetLoc w = Some (Some banner, w1) ->
  exists i : nat,
    banner_id banner = Z.of_nat i
    /\ banners w !! i = Some None
    /\ banners w1 !! i = Some (Some banner).
Proof.
  unfold Execute_banner, CreateBanner. intros H.
  destruct (negb (scrolling_mode wallEntry =? SCROLLING_MODE_NONE)); [|discriminate].
  destruct (first_free_slot (banners w)) as [i|] eqn:Hslot; [|discriminate].
  pose proof (first_free_slot_free _ _ Hslot) as Hfree.
  inversion H; subst. exists i. simpl. split; [reflexivity|]. split; [exact Hfree|].
  rewrite Nat2Z.id. apply list_lookup_insert_eq.
  rewrite length_insert. eapply lookup_lt_Some; eassumption.
Qed.

Lemma TileElementInsert_banners loc occupiedQuadrants d w :
  banners (TileElementInsert loc occupiedQuadrants d w).2 = banners w.
Proof.
  unfold TileElementInsert, MapCheckCapacityAndReorganise.
  destruct (tileElementsInUse w + 1 <=? MAX_TILE_ELEMENTS); simpl.
  - destruct (tileElements w !! TileCoordsXY loc); reflexivity.
  - destruct (live_elements w + 1 <=? MAX_TILE_ELEMENTS); simpl; [|reflexivity].
    destruct (tileElements w !! TileCoordsXY loc); reflexivity.
Qed.

(** Whenever Execute has allocated a banner and the insertion of the tile
    element fails, it returns NoFreeElements and the banner is still in the
    slot that was free before the call. *)
Lemma Execute_insertion_failure_keeps_banner
    a w t s wallEntry result across banner w1 w2 :
  ResolveTargetHeight a w = inr (t, s) ->
  get_wall_entry (_wallType a) = Some wallEntry ->
  CheckObstruction a w wallEntry (Z.quot t COORDS_Z_STEP)
    (Execute_clearanceHeight wallEntry t s) = (result, across) ->
  Error result = Status.Ok ->
  let targetLoc := mkCoordsXYZ (coord_x (_loc a)) (coord_y (_loc a)) t in
  Execute_banner a wallEntry targetLoc w = Some (Some banner, w1) ->
  TileElementInsert targetLoc 0 (WallData (mkWallElement 0 0 0 0 false 0 0)) w1
  = (None, w2) ->
  Execute a w
  = (MakeResult3 Status.NoFreeElements STR_CANT_POSITION_THIS_HERE
                 STR_TILE_ELEMENT_LIMIT_REACHED, w2)
  /\ exists i : nat,
      banner_id banner = Z.of_nat i
      /\ banners w !! i = Some None
      /\ banners w2 !! i = Some (Some banner).
Proof.
  intros Hres Hentry Hobst Hok targetLoc Hbanner Hinsert.
  split.
  - unfold Execute. rewrite Hres, Hentry, Hobst, Hok. simpl.
    fold targetLoc. rewrite Hbanner, Hinsert. reflexivity.
  - destruct (Execute_banner_allocates _ _ _ _ _ _ Hbanner) as (i & Hid & Hfree & Hheld).
    exists i. split; [exact Hid|]. split; [exact Hfree|].
    pose proof (TileElementInsert_banners targetLoc 0
                  (WallData (mkWallElement 0 0 0 0 false 0 0)) w1) as Hb.
    rewrite Hinsert in Hb. simpl in Hb. rewrite Hb. exact Hheld.
Qed.

(** What a successful Query says about the Execute that follows, on the
    world Query left or on the world before it. *)
Lemma Query_ok_Execute_facts a w :
  Error (Query a w).1 = Status.Ok ->
  exists t s wallEntry,
    Query_CheckTerrain a w = inr (t, s)
    /\ get_wall_entry (_wallType a) = Some wallEntry
    /\ forall w0, w0 = (Query a w).2 \/ w0 = w ->
       exists wallElement bannerId i,
         (Execute a w0).1
         = set_Cost_Data (wall_price wallEntry)
             (mkWallPlaceActionResult (GetBaseZ wallElement) bannerId)
             (InitialResult a)
         /\ tileElements (Execute a w0).2 !! TileCoordsXY (_loc a)
            = Some (take i (map_get_first_element_at w (_loc a))
                    ++ wallElement :: drop i (map_get_first_element_at w (_loc a)))
         /\ GetType wallElement = TILE_ELEMENT_TYPE_WALL
         /\ base_height wallElement = Z.quot t COORDS_Z_STEP
         /\ clearance_height wallElement = Execute_clearanceHeight wallEntry t s
         /\ GetDirection wallElement = Z.land (_edge a) 3
         /\ IsGhost wallElement = has_flag (GetFlags a) GAME_COMMAND_FLAG_GHOST.
Proof.
  intros HQ. unfold Query in HQ |- *.
  destruct (Query_validate a w) as [err|wallEntry] eqn:Hvalid.
  { exfalso. eapply Query_validate_error; eassumption. }
  destruct (Query_validate_ok a w wallEntry Hvalid)
    as (t & s & result & across & Hterrain & Hentry & Hfree & Hobst & Hok).
  destruct (Query_CheckTerrain_ok a w t s Hterrain) as (Hres & surf & Hsurf).
  pose proof (surface_has_tile w (_loc a) surf Hsurf) as Htile.
  pose proof (MapCheckCapacityAndReorganise_ok (_loc a) w) as Hcap.
  pose proof (has_capacity_after (_loc a) w) as Hcap'.
  pose proof (MapCheckCapacityAndReorganise_world (_loc a) w) as Hw.
  destruct (MapCheckCapacityAndReorganise (_loc a) w) as [ok w'].
  simpl in Hcap, Hcap', Hw.
  destruct ok; [|discriminate]. simpl.
  exists t, s, wallEntry. split; [exact Hterrain|]. split; [exact Hentry|].
  intros w0 Hw0.
  assert (Hsame : w0 = w \/ w0 = map_reorganise_elements w).
  { destruct Hw0 as [->| ->]; [|auto]. destruct Hw as [->|[_ ->]]; auto. }
  assert (Hcap0 : has_capacity w0 = true).
  { destruct Hw0 as [->| ->]; auto. }
  destruct Hsame as [->| ->]; eapply Execute_succeeds; eauto.
Qed.

(** C1: if Query returns Ok, then Execute with the same request, run on
    the world as Query left it (and just as well on the world before Query),
    returns Ok too and installs a wall element in the stack of the tile: the
    stack is the old one with the new wall element put in, its base height is
    the level [targetHeight / 8] that Query computed and scanned from, which
    in coordinate units is the target height itself when that is a multiple
    of the level step; the payload of the result reports that base height. *)
Theorem query_ok_then_execute_ok a w :
  Error (Query a w).1 = Status.Ok ->
  exists targetHeight edgeSlope,
    Query_CheckTerrain a w = inr (targetHeight, edgeSlope)
    /\ forall w0, w0 = (Query a w).2 \/ w0 = w ->
       exists wallElement bannerId i,
         Error (Execute a w0).1 = Status.Ok
         /\ ResultData (Execute a w0).1
            = Some (mkWallPlaceActionResult (GetBaseZ wallElement) bannerId)
         /\ map_get_first_element_at (Execute a w0).2 (_loc a)
            = take i (map_get_first_element_at w (_loc a))
              ++ wallElement :: drop i (map_get_first_element_at w (_loc a))
         /\ GetType wallElement = TILE_ELEMENT_TYPE_WALL
         /\ base_height wallElement = Z.quot targetHeight 8
         /\ (Z.rem targetHeight 8 = 0 -> GetBaseZ wallElement = targetHeight).
Proof.
  intros HQ.
  destruct (Query_ok_Execute_facts a w HQ) as (t & s & wallEntry & Hterrain & _ & HE).
  exists t, s. split; [exact Hterrain|].
  intros w0 Hw0.
  destruct (HE w0 Hw0)
    as (wallElement & bannerId & i & Hr & Hstack & Hty & Hbase & _).
  exists wallElement, bannerId, i. rewrite Hr. simpl.
  repeat split; auto.
  - unfold map_get_first_element_at at 1. rewrite Hstack. reflexivity.
  - intros Hrem. unfold GetBaseZ. rewrite Hbase. change COORDS_Z_STEP with 8.
    pose proof (Z.quot_rem' t 8). lia.
Qed.

(** Placing a wall and scanning again.  After the Execute that follows a
    successful Query of a request that is not a preview, on an edge 0-3: a
    scan for another edge of the same tile gives what it gave before the
    wall was there, whatever the interval; and, where the tile is not on
    the edge of the map and the wall has some height, the scan for the same
    request ends in NoClearance. *)
Lemma placed_wall_blocks_its_edge_only a w :
  Error (Query a w).1 = Status.Ok ->
  has_flag (GetFlags a) GAME_COMMAND_FLAG_GHOST = false ->
  0 <= _edge a <= 3 ->
  exists t s wallEntry,
    Query_CheckTerrain a w = inr (t, s)
    /\ get_wall_entry (_wallType a) = Some wallEntry
    /\ (forall a2 wall2 z0 z1,
          _loc a2 = _loc a -> _edge a2 <> _edge a ->
          WallCheckObstruction a2 (Execute a w).2 wall2 z0 z1
          = WallCheckObstruction a2 w wall2 z0 z1)
    /\ (map_is_location_at_edge (_loc a) = false ->
        Z.quot t 8 < Execute_clearanceHeight wallEntry t s ->
        Error (WallCheckObstruction a (Execute a w).2 wallEntry (Z.quot t 8)
                 (Execute_clearanceHeight wallEntry t s)).1 = Status.NoClearance).
Proof.
  intros HQ Hghost Hedge.
  destruct (Query_ok_Execute_facts a w HQ) as (t & s & wallEntry & Hterrain & Hentry & HE).
  destruct (HE w (or_intror eq_refl))
    as (wallElement & bannerId & i & _ & Hstack & Hty & Hbase & Hclear & Hdir & Hgh).
  rewrite land_3_edge in Hdir by exact Hedge. rewrite Hghost in Hgh.
  change COORDS_Z_STEP with 8 in Hbase.
  exists t, s, wallEntry. split; [exact Hterrain|]. split; [exact Hentry|]. split.
  - intros a2 wall2 z0 z1 Hloc Hne. unfold WallCheckObstruction.
    rewrite Hloc. destruct (map_is_location_at_edge (_loc a)); [reflexivity|].
    unfold map_get_first_element_at at 1. rewrite Hstack. simpl.
    rewrite loop_skip; [rewrite take_drop; reflexivity|].
    intros across. rewrite (wall_element_body a2 wall2 z0 z1 wallElement across Hty).
    rewrite Hdir. apply Z.eqb_neq in Hne. rewrite Hne.
    destruct (_ || _); reflexivity.
  - intros Hmap Hheight. unfold WallCheckObstruction. rewrite Hmap.
    unfold map_get_first_element_at at 1. rewrite Hstack. simpl.
    apply loop_conflict. intros across.
    rewrite (wall_element_body a wallEntry _ _ wallElement across Hty).
    rewrite Hgh, Hbase, Hclear, Hdir, Z.eqb_refl. simpl.
    destruct (Z.geb_spec (Z.quot t 8) (Execute_clearanceHeight wallEntry t s)); [lia|].
    destruct (Z.leb_spec (Execute_clearanceHeight wallEntry t s) (Z.quot t 8)); [lia|].
    simpl. eauto.
Qed.

End TwoPhase.

(** * Worked instances

    The theorems above at the test configuration, and the inputs at which
    the stronger readings fail. *)

(** Query succeeds on the flat tile; Execute then succeeds in the world
    Query left and in the world before it, and puts a wall at level 0. *)
Lemma query_ok_then_execute_ok_witness :
  Error (@Query (test_externals 100) (test_request 5 0) test_flat_world).1 = Status.Ok
  /\ exists targetHeight edgeSlope,
      @Query_CheckTerrain (test_externals 100) (test_request 5 0) test_flat_world
      = inr (targetHeight, edgeSlope)
      /\ forall w0,
          w0 = (@Query (test_externals 100) (test_request 5 0) test_flat_world).2
          \/ w0 = test_flat_world ->
          exists wallElement bannerId i,
            Error (@Execute (test_externals 100) (test_request 5 0) w0).1 = Status.Ok
            /\ ResultData (@Execute (test_externals 100) (test_request 5 0) w0).1
               = Some (mkWallPlaceActionResult (GetBaseZ wallElement) bannerId)
            /\ map_get_first_element_at
                 (@Execute (test_externals 100) (test_request 5 0) w0).2
                 (_loc (test_request 5 0))
               = take i (map_get_first_element_at test_flat_world (_loc (test_request 5 0)))
                 ++ wallElement
                 :: drop i (map_get_first_element_at test_flat_world (_loc (test_request 5 0)))
            /\ GetType wallElement = TILE_ELEMENT_TYPE_WALL
            /\ base_height wallElement = Z.quot targetHeight 8
            /\ (Z.rem targetHeight 8 = 0 -> GetBaseZ wallElement = targetHeight).
Proof.
  split; [vm_compute; reflexivity|].
  apply (@query_ok_then_execute_ok (test_externals 100) (test_request 5 0) test_flat_world).
  vm_compute; reflexivity.
Defined.

(** C2: Execute of a wall with a sign, with one free slot in the banner
    registry and no room in the element pool even after compaction.  The
    banner is allocated, the insertion of the tile element fails, and
    Execute returns NoFreeElements with the banner still in the registry:
    the slot that was free before the call is taken after it, so the banner
    is not released before the failure result is returned. *)
Theorem banner_kept_when_insertion_fails :
  let a := test_request 6 0 in
  let w := test_world [test_surface 0] 1 [None] in
  let r := @Execute (test_externals 1) a w in
  Error r.1 = Status.NoFreeElements
  /\ banners w = [None]
  /\ @HasReachedBannerLimit w = false
  /\ banners r.2 = [Some (mkBanner 0 0 8 String.EmptyString 2 2 65535 (1, 1))]
  /\ @HasReachedBannerLimit r.2 = true
  /\ banners (DeleteBanner 0 r.2) = banners w.
Proof. vm_compute. repeat split; reflexivity. Qed.

(** Query compacts the pool: the world it returns is not the world it got. *)
Lemma query_compacts_full_pool :
  let a := test_request 5 0 in
  let w := test_world [test_surface 0] 2 [] in
  let r := @Query (test_externals 2) a w in
  Error r.1 = Status.Ok
  /\ tileElementsInUse w = 2
  /\ tileElementsInUse r.2 = 1
  /\ r.2 <> w.
Proof.
  vm_compute. repeat split; try reflexivity.
  intros H. inversion H.
Qed.

Lemma query_changes_only_pool_accounting_witness :
  let a := test_request 5 0 in
  let w := test_world [test_surface 0] 2 [] in
  let w' := (@Query (test_externals 2) a w).2 in
  tileElements w' = tileElements w /\ banners w' = banners w
  /\ (w' = w \/ w' = map_reorganise_elements w).
Proof.
  intros a w w'.
  pose proof (@query_changes_only_pool_accounting (test_externals 2) a w)
    as (Hw & Htiles & Hbanners & _).
  split; [exact Htiles|]. split; [exact Hbanners|exact Hw].
Defined.

(** On a tile sloping along edge 3 the wall that may not stand on slopes is
    rejected by Query and built by Execute. *)
Lemma execute_builds_on_forbidden_slope :
  let a := test_request 8 3 in
  let w := test_world [test_surface 1] 1 [None] in
  @ResolveTargetHeight (test_externals 100) a w = inr (0, 64)
  /\ @edge_is_sloped (test_externals 100) 64 = true
  /\ test_wall_entry 8 = Some (mkWallSceneryEntry 4 4 35 255)
  /\ has_flag 4 (@WALL_SCENERY_CANT_BUILD_ON_SLOPE (test_externals 100)) = true
  /\ Error (@Query (test_externals 100) a w).1 = Status.Disallowed
  /\ Error (@Execute (test_externals 100) a w).1 = Status.Ok.
Proof. vm_compute. repeat split; reflexivity. Qed.

Lemma clearance_repeated_rejection_not_witness :
  @Execute_clearanceHeight (test_externals 100) test_fence 16 64 = 8
  /\ @Query_clearanceHeight (test_externals 100) test_fence 16 64 = inr 8.
Proof.
  pose proof (@clearance_repeated_rejection_not (test_externals 100) test_fence 16 64)
    as (HE & HQ & _).
  split; [exact HE|]. rewrite HQ, HE. reflexivity.
Defined.

(** A fence on edge 0: a second wall on edge 0 conflicts, one on edge 2 is
    scanned as if the fence were not there. *)
Lemma wall_conflict_iff_same_edge_witness :
  Error (@WallCheckObstruction_loop (test_externals 100) (test_request 5 0) test_fence 0 4
           ([test_surface 0] ++ test_wall_element 0 :: []) false).1
  = Status.NoClearance
  /\ @WallCheckObstruction_loop (test_externals 100) (test_request 5 2) test_fence 0 4
       ([test_surface 0] ++ test_wall_element 0 :: []) false
     = @WallCheckObstruction_loop (test_externals 100) (test_request 5 2) test_fence 0 4
         ([test_surface 0] ++ []) false.
Proof.
  split.
  - apply (@wall_conflict_iff_same_edge (test_externals 100) (test_request 5 0)
             test_fence 0 4 (test_wall_element 0));
      [reflexivity | reflexivity | simpl; lia | simpl; lia | reflexivity].
  - apply (@wall_conflict_iff_same_edge (test_externals 100) (test_request 5 2)
             test_fence 0 4 (test_wall_element 0));
      [reflexivity | reflexivity | simpl; lia | simpl; lia | simpl; lia].
Defined.

(** The same through the two entry points: build on edge 0, then ask again
    for edge 0 and for edge 2. *)
Example place_twice_same_edge_then_other_edge :
  let w1 := (@Execute (test_externals 100) (test_request 5 0) test_flat_world).2 in
  Error (@Query (test_externals 100) (test_request 5 0) w1).1 = Status.NoClearance
  /\ Error (@Query (test_externals 100) (test_request 5 2) w1).1 = Status.Ok
  /\ Error (@Query (test_externals 100) (test_request 5 1) w1).1 = Status.Ok.
Proof. vm_compute. repeat split; reflexivity. Qed.

(** A fence from level 0 to 4 is passed over by a candidate from 4 to 8. *)
Lemma height_skip_exact_witness :
  (clearance_height (test_wall_element 0) <= 4 \/ 8 <= base_height (test_wall_element 0))
  /\ @WallCheckObstruction_loop (test_externals 100) (test_request 5 0) test_fence 4 8
       ([test_surface 0] ++ test_wall_element 0 :: []) false
     = @WallCheckObstruction_loop (test_externals 100) (test_request 5 0) test_fence 4 8
         ([test_surface 0] ++ []) false.
Proof.
  assert (H : clearance_height (test_wall_element 0) <= 4
              \/ 8 <= base_height (test_wall_element 0)) by (left; simpl; lia).
  split; [exact H|].
  apply (proj2 (proj1 (@height_skip_exact (test_externals 100) (test_request 5 0)
                         test_fence 4 8 (test_wall_element 0)) H)).
Defined.

(** With request height 0 on a tile whose table entry for edge 2 is the
    elevated flag, the target height is 16 above the surface and the
    resolved flags are flat. *)
Lemma resolve_target_height_spec_witness :
  @ResolveTargetHeight (test_externals 100) (test_request 5 2)
    (test_world [test_surface 3] 1 [None])
  = inr (GetBaseZ (test_surface 3) + 16, 0).
Proof.
  apply (proj2 (proj1 (@resolve_target_height_spec (test_externals 100)
                         (test_request 5 2) (test_world [test_surface 3] 1 [None]))
                  eq_refl (mkSurfaceElement (test_surface 3) 3 0) eq_refl));
    reflexivity.
Defined.

(** An entrance with an empty occupancy mask, not a ghost and overlapping
    the candidate, is passed over: the scan, and Query with it, answer Ok. *)
Lemma entrance_with_empty_mask_passed_over :
  let e := test_entrance 0 in
  let w := test_world [test_surface 0; e] 2 [None] in
  GetType e = TILE_ELEMENT_TYPE_ENTRANCE
  /\ IsGhost e = false
  /\ 0 < clearance_height e
  /\ base_height e < 4
  /\ @WallCheckObstruction_element (test_externals 100) (test_request 5 0) test_fence 0 4 e false
     = (None, false)
  /\ Error (@WallCheckObstruction (test_externals 100) (test_request 5 0) w test_fence 0 4).1
     = Status.Ok
  /\ Error (@Query (test_externals 100) (test_request 5 0) w).1 = Status.Ok.
Proof. vm_compute. repeat split; reflexivity. Qed.

Lemma occupying_entrance_conflicts_witness :
  @WallCheckObstruction_element (test_externals 100) (test_request 5 0) test_fence 0 4
    (test_entrance 15) false
  = (Some (map_obstruction_set_error_text (test_entrance 15)
             (MakeResult2 Status.NoClearance STR_NONE)), false)
  /\ Error (@WallCheckObstruction_loop (test_externals 100) (test_request 5 0) test_fence 0 4
              ([test_surface 0] ++ test_entrance 15 :: []) false).1
     = Status.NoClearance.
Proof.
  split;
    apply (@occupying_entrance_conflicts (test_externals 100) (test_request 5 0)
             test_fence 0 4 (test_entrance 15));
    [reflexivity | reflexivity | simpl; lia | simpl; lia | simpl; lia
    |reflexivity | reflexivity | simpl; lia | simpl; lia | simpl; lia].
Defined.

(** Exhausted registry at a location off the map: Query answers NotOwned;
    and over a fence on the same edge: Execute answers NoClearance. *)
Lemma exhausted_registry_other_status :
  let off_map := mkWallPlaceAction 6 (mkCoordsXYZ (-32) 32 0) 0 0 0 0 0 in
  let w := test_world [test_surface 0; test_wall_element 0] 2 [] in
  test_wall_entry 6 = Some (mkWallSceneryEntry 0 4 50 0)
  /\ @HasReachedBannerLimit w = true
  /\ Error (@Query (test_externals 100) off_map w).1 = Status.NotOwned
  /\ Error (@Execute (test_externals 100) (test_request 6 0) w).1 = Status.NoClearance.
Proof. vm_compute. repeat split; reflexivity. Qed.

Lemma exhausted_registry_fails_witness :
  let w := test_world [test_surface 0] 1 [] in
  @Query (test_externals 100) (test_request 6 0) w
  = (MakeResult3 Status.InvalidParameters STR_CANT_BUILD_THIS_HERE
                 STR_TOO_MANY_BANNERS_IN_GAME, w)
  /\ Error (@Execute (test_externals 100) (test_request 6 0) w).1 <> Status.Ok
  /\ (@Execute (test_externals 100) (test_request 6 0) w).2 = w.
Proof.
  intros w.
  assert (Hentry : @get_wall_entry (test_externals 100) (_wallType (test_request 6 0))
                   = Some (mkWallSceneryEntry 0 4 50 0)) by reflexivity.
  assert (Hsign : scrolling_mode (mkWallSceneryEntry 0 4 50 0)
                  <> @SCROLLING_MODE_NONE (test_externals 100)) by (simpl; lia).
  assert (Hfull : @HasReachedBannerLimit w = true) by reflexivity.
  pose proof (@exhausted_registry_fails (test_externals 100) (test_request 6 0) w
                (mkWallSceneryEntry 0 4 50 0) Hentry Hsign Hfull)
    as (_ & HE & HQ & _).
  split; [|exact HE].
  apply (HQ 0 0). vm_compute; reflexivity.
Defined.

(** A door at odd level 1 over a track piece that allows walls on every
    edge: the track check answers allowed and the scan answers Ok. *)
Lemma door_at_odd_height_on_open_track_edge :
  let e := test_track_element 1 in
  has_flag (wall_flags test_door) (@WALL_SCENERY_IS_DOOR (test_externals 100)) = true
  /\ @RideTypeHasFlag (test_externals 100) 0 RIDE_TYPE_FLAG_ALLOW_DOORS_ON_TRACK = true
  /\ Z.odd 1 = true
  /\ @WallCheckObstructionWithTrack (test_externals 100) (test_request 7 0) test_door 1 e
       1 0 0 false = (true, false)
  /\ Error (@WallCheckObstruction_loop (test_externals 100) (test_request 7 0) test_door 1 5
              [test_surface 0; e] false).1 = Status.Ok.
Proof. vm_compute. repeat split; reflexivity. Qed.

Lemma odd_base_height_rejects_door_witness :
  @WallCheckObstructionWithTrack (test_externals 100) (test_request 7 0) test_door 1
    (test_track_element 0) 0 0 0 false = (false, true)
  /\ Error (@WallCheckObstruction_loop (test_externals 100) (test_request 7 0) test_door 1 5
              ([test_surface 0] ++ test_track_element 0 :: []) false).1
     = Status.NoClearance.
Proof.
  pose proof (@odd_base_height_rejects_door (test_externals 100) (test_request 7 0)
                test_door 1 (test_track_element 0) 0 0 0 (mkRide 0)
                eq_refl eq_refl eq_refl eq_refl eq_refl) as (Hcheck & Hscan).
  split; [apply Hcheck|].
  apply (Hscan eq_refl eq_refl); simpl; lia.
Defined.

(** * Further properties of the obstruction scan *)

Section ScanFurther.
Context `{X : Externals}.

Implicit Types (a : WallPlaceAction) (wall : WallSceneryEntry).
Implicit Types (e : TileElement) (across : bool).

Lemma passed_over_body a wall z0 z1 e across :
  passed_over z0 z1 e = true ->
  WallCheckObstruction_element a wall z0 z1 e across = (None, across).
Proof.
  unfold passed_over, WallCheckObstruction_element.
  destruct (data e); try reflexivity;
    destruct (IsGhost e); try reflexivity;
    destruct (z0 >=? clearance_height e); try reflexivity;
    destruct (z1 <=? base_height e); try reflexivity;
    simpl; try discriminate;
    intros ->; reflexivity.
Qed.

(** X1: the scan only sees the elements that are neither surface nor ghost,
    that overlap the candidate interval and, unless they are walls, occupy
    some quadrant: taking all other elements off the tile changes neither
    the result nor the across-track flag.  A tile that holds only such other
    elements scans Ok with the flag as it was. *)
Theorem scan_ignores_passed_over a wall z0 z1 (l : list TileElement) across :
  WallCheckObstruction_loop a wall z0 z1 l across
  = WallCheckObstruction_loop a wall z0 z1
      (List.filter (fun e => negb (passed_over z0 z1 e)) l) across
  /\ (List.forallb (passed_over z0 z1) l = true ->
      WallCheckObstruction_loop a wall z0 z1 l across = (MakeResult, across)).
Proof.
  split.
  - revert across. induction l as [|e l IH]; intros across; simpl; [reflexivity|].
    destruct (passed_over z0 z1 e) eqn:Hp; simpl.
    + rewrite (passed_over_body a wall z0 z1 e across Hp). apply IH.
    + destruct (WallCheckObstruction_element a wall z0 z1 e across) as [[r|] ac];
        [reflexivity|apply IH].
  - revert across. induction l as [|e l IH]; intros across; simpl; [reflexivity|].
    intros Hall. apply andb_true_iff in Hall as [Hp Hl].
    rewrite (passed_over_body a wall z0 z1 e across Hp). apply IH. exact Hl.
Qed.



Lemma land_pow2_testbit (v n : Z) :
  0 <= n -> Z.land v (2 ^ n) = if Z.testbit v n then 2 ^ n else 0.
Proof.
  intros Hn. apply Z.bits_inj'. intros m Hm.
  rewrite Z.land_spec, Z.pow2_bits_eqb by lia.
  destruct (Z.eqb_spec n m) as [->|Hne].
  - rewrite andb_true_r. destruct (Z.testbit v m) eqn:Hb.
    + rewrite Z.pow2_bits_true by lia. reflexivity.
    + rewrite Z.bits_0. reflexivity.
  - rewrite andb_false_r. destruct (Z.testbit v n).
    + rewrite Z.pow2_bits_false by lia. reflexivity.
    + rewrite Z.bits_0. reflexivity.
Qed.

(** [v & (1 << n)] as a condition is bit [n] of [v]. *)
Lemma has_flag_shiftl_testbit (v n : Z) :
  0 <= n -> has_flag v (Z.shiftl 1 n) = Z.testbit v n.
Proof.
  intros Hn. unfold has_flag.
  rewrite Z.shiftl_1_l, land_pow2_testbit by lia.
  destruct (Z.testbit v n); [|reflexivity].
  apply negb_true_iff, Z.eqb_neq. pose proof (Z.pow_pos_nonneg 2 n). lia.
Qed.

(** X3: a path element that is not a ghost, overlaps the candidate interval
    and occupies the tile blocks the wall exactly when bit [_edge] of its
    edge mask is set; the conflict names the path.  With the bit clear the
    path is passed over and the scan of a tile is the same with and without
    it. *)
Theorem path_conflict_iff_edge_bit a wall z0 z1 e edges :
  data e = PathData edges -> IsGhost e = false ->
  z0 < clearance_height e -> base_height e < z1 ->
  GetOccupiedQuadrants e <> 0 -> 0 <= _edge a ->
  (forall across,
      WallCheckObstruction_element a wall z0 z1 e across
      = if Z.testbit edges (_edge a)
        then (Some (map_obstruction_set_error_text e
                      (MakeResult2 Status.NoClearance STR_NONE)), across)
        else (None, across))
  /\ (Z.testbit edges (_edge a) = true ->
      forall l1 l2 across,
        Error (WallCheckObstruction_loop a wall z0 z1 (l1 ++ e :: l2) across).1
        = Status.NoClearance)
  /\ (Z.testbit edges (_edge a) = false ->
      forall l1 l2 across,
        WallCheckObstruction_loop a wall z0 z1 (l1 ++ e :: l2) across
        = WallCheckObstruction_loop a wall z0 z1 (l1 ++ l2) across).
Proof.
  intros Hdata Hghost Hc Hb Hquad Hedge.
  assert (Hbody : forall across,
            WallCheckObstruction_element a wall z0 z1 e across
            = if Z.testbit edges (_edge a)
              then (Some (map_obstruction_set_error_text e
                            (MakeResult2 Status.NoClearance STR_NONE)), across)
              else (None, across)).
  { intros across. unfold WallCheckObstruction_element. rewrite Hdata, Hghost.
    destruct (Z.geb_spec z0 (clearance_height e)); [lia|].
    destruct (Z.leb_spec z1 (base_height e)); [lia|].
    destruct (Z.eqb_spec (GetOccupiedQuadrants e) 0); [contradiction|].
    rewrite has_flag_shiftl_testbit by exact Hedge. reflexivity. }
  split; [exact Hbody|]. split.
  - intros Hbit. apply loop_conflict. intros across. rewrite Hbody, Hbit. eauto.
  - intros Hbit. apply loop_skip. intros across. rewrite Hbody, Hbit. reflexivity.
Qed.

(** X4: scenery that is not a ghost, overlaps the candidate interval and
    occupies the tile.  A small scenery item blocks the wall exactly when
    its catalog entry exists and has the no-walls flag.  A large scenery
    item blocks exactly when its catalog entry exists and bit
    8 + ((edge - direction) & 3) of the flags of its tile is clear.  Scenery
    whose catalog entry is missing is not in the way: the scan of a tile is
    the same with and without it. *)
Theorem scenery_conflict_rules a wall z0 z1 e :
  IsGhost e = false -> z0 < clearance_height e -> base_height e < z1 ->
  GetOccupiedQuadrants e <> 0 ->
  let named :=
    Some (map_obstruction_set_error_text e (MakeResult2 Status.NoClearance STR_NONE)) in
  (forall entryIndex across,
      data e = SmallSceneryData entryIndex ->
      WallCheckObstruction_element a wall z0 z1 e across
      = match get_small_scenery_entry entryIndex with
        | Some entry =>
          if has_flag (small_flags entry) SMALL_SCENERY_FLAG_NO_WALLS
          then (named, across) else (None, across)
        | None => (None, across)
        end)
  /\ (forall entryIndex sequence across,
        data e = LargeSceneryData entryIndex sequence ->
        WallCheckObstruction_element a wall z0 z1 e across
        = match get_large_scenery_entry entryIndex with
          | Some entry =>
            if Z.testbit (tile_flags (tiles entry sequence))
                 (8 + Z.land (_edge a - GetDirection e) 3)
            then (None, across) else (named, across)
          | None => (None, across)
          end)
  /\ ((exists entryIndex,
         data e = SmallSceneryData entryIndex
         /\ get_small_scenery_entry entryIndex = None)
      \/ (exists entryIndex sequence,
            data e = LargeSceneryData entryIndex sequence
            /\ get_large_scenery_entry entryIndex = None) ->
      forall l1 l2 across,
        WallCheckObstruction_loop a wall z0 z1 (l1 ++ e :: l2) across
        = WallCheckObstruction_loop a wall z0 z1 (l1 ++ l2) across).
Proof.
  intros Hghost Hc Hb Hquad named.
  assert (Hmissing :
            (exists entryIndex,
                data e = SmallSceneryData entryIndex
                /\ get_small_scenery_entry entryIndex = None)
            \/ (exists entryIndex sequence,
                  data e = LargeSceneryData entryIndex sequence
                  /\ get_large_scenery_entry entryIndex = None) ->
            forall across,
              WallCheckObstruction_element a wall z0 z1 e across = (None, across)).
  { intros Hno across. unfold WallCheckObstruction_element.
    destruct Hno as [(idx & Hdata & Hentry)|(idx & sq & Hdata & Hentry)];
      rewrite Hdata, Hghost, Hentry;
      destruct (z0 >=? clearance_height e), (z1 <=? base_height e),
        (GetOccupiedQuadrants e =? 0); reflexivity. }
  split; [|split; [|intros Hno; apply loop_skip; auto]].
  - intros entryIndex across Hdata. unfold WallCheckObstruction_element.
    rewrite Hdata, Hghost.
    destruct (Z.geb_spec z0 (clearance_height e)); [lia|].
    destruct (Z.leb_spec z1 (base_height e)); [lia|].
    destruct (Z.eqb_spec (GetOccupiedQuadrants e) 0); [contradiction|].
    reflexivity.
  - intros entryIndex sequence across Hdata. unfold WallCheckObstruction_element.
    rewrite Hdata, Hghost.
    destruct (Z.geb_spec z0 (clearance_height e)); [lia|].
    destruct (Z.leb_spec z1 (base_height e)); [lia|].
    destruct (Z.eqb_spec (GetOccupiedQuadrants e) 0); [contradiction|].
    destruct (get_large_scenery_entry entryIndex) as [entry|]; [|reflexivity].
    unfold TILE_ELEMENT_DIRECTION_MASK.
    assert (Hdir : 0 <= Z.land (_edge a - GetDirection e) 3 + 8).
    { assert (0 <= Z.land (_edge a - GetDirection e) 3)
        by (apply Z.land_nonneg; right; lia). lia. }
    rewrite has_flag_shiftl_testbit by exact Hdir.
    rewrite (Z.add_comm 8). destruct (Z.testbit _ _); reflexivity.
Qed.

End ScanFurther.

(** * Further properties of the track check *)

Section TrackFurther.
Context `{X : Externals}.

Implicit Types (a : WallPlaceAction) (wall : WallSceneryEntry).
Implicit Types (e : TileElement) (across : bool).

(** X5: for a wall that is not a door, or over track of a ride type that
    does not permit doors, the track check never raises the across-track
    flag and its answer is the allowed-edges rule alone: not allowed when
    the ride does not exist or its type forbids walls on track, otherwise
    bit ((edge - direction) & 3) of the allowed wall edges of the block. *)
Theorem track_check_without_door_rule
    a wall z0 e trackType sequence rideIndex across :
  (has_flag (wall_flags wall) WALL_SCENERY_IS_DOOR = false
   \/ forall ride, get_ride rideIndex = Some ride ->
        RideTypeHasFlag (ride_type ride) RIDE_TYPE_FLAG_ALLOW_DOORS_ON_TRACK = false) ->
  WallCheckObstructionWithTrack a wall z0 e trackType sequence rideIndex across
  = (match get_ride rideIndex with
     | None => false
     | Some ride =>
       negb (RideTypeHasFlag (ride_type ride) RIDE_TYPE_FLAG_TRACK_NO_WALLS)
       && Z.testbit
            (SequenceElementAllowedWallEdges (GetTrackElementDescriptor trackType) sequence)
            (Z.land (_edge a - GetDirection e) 3)
     end, across).
Proof.
  intros Hno. unfold WallCheckObstructionWithTrack, TrackIsAllowedWallEdges.
  unfold TILE_ELEMENT_DIRECTION_MASK.
  destruct (get_ride rideIndex) as [ride|]; [|reflexivity].
  assert (Hdir : 0 <= Z.land (_edge a - GetDirection e) 3).
  { apply Z.land_nonneg. right. lia. }
  rewrite has_flag_shiftl_testbit by exact Hdir.
  destruct (RideTypeHasFlag (ride_type ride) RIDE_TYPE_FLAG_TRACK_NO_WALLS); simpl.
  - destruct Hno as [->| Hno]; [reflexivity|].
    rewrite (Hno ride eq_refl). destruct (has_flag _ _); reflexivity.
  - destruct (Z.testbit _ _); [reflexivity|].
    destruct Hno as [->| Hno]; [reflexivity|].
    rewrite (Hno ride eq_refl). destruct (has_flag _ _); reflexivity.
Qed.

(** X6: for a door over track of an existing ride whose type permits doors,
    on an edge the block does not allow for walls, the track check raises
    the across-track flag and allows the door exactly when z0 is even, the
    first block does not disallow doors, and the door stands at the begin
    boundary of the first block or at the end boundary of the last block
    (bank, rotation, edge and height as the piece has them there). *)
Theorem door_allowed_iff_at_boundary
    a wall z0 e trackType sequence rideIndex ride across :
  get_ride rideIndex = Some ride ->
  TrackIsAllowedWallEdges (ride_type ride) trackType sequence
    (Z.land (_edge a - GetDirection e) TILE_ELEMENT_DIRECTION_MASK) = false ->
  has_flag (wall_flags wall) WALL_SCENERY_IS_DOOR = true ->
  RideTypeHasFlag (ride_type ride) RIDE_TYPE_FLAG_ALLOW_DOORS_ON_TRACK = true ->
  let ted := GetTrackElementDescriptor trackType in
  WallCheckObstructionWithTrack a wall z0 e trackType sequence rideIndex across
  = (Z.even z0
     && negb ((sequence =? 0)
              && has_flag (SequenceProperties ted 0) TRACK_SEQUENCE_FLAG_DISALLOW_DOORS)
     && (door_at_begin a z0 e ted sequence || door_at_end a z0 e ted sequence),
     true).
Proof.
  intros Hride Hedges Hdoor Hallow ted.
  unfold WallCheckObstructionWithTrack. rewrite Hride, Hedges, Hdoor, Hallow. simpl.
  fold ted. unfold door_at_begin, door_at_end, direction_reverse.
  unfold TILE_ELEMENT_DIRECTION_MASK.
  assert (Hpar : (Z.land z0 1 =? 0) = Z.even z0).
  { destruct (Z.even z0) eqn:Hev.
    - apply Z.eqb_eq. apply Z.bits_inj'. intros n Hn.
      rewrite Z.land_spec, Z.bits_0.
      destruct (Z.eqb_spec n 0) as [->|Hne].
      + rewrite Z.bit0_odd, <- Z.negb_even, Hev. reflexivity.
      + replace 1 with (2 ^ 0) by reflexivity.
        rewrite Z.pow2_bits_false by lia. apply andb_false_r.
    - apply land_1_odd. rewrite <- Z.negb_even, Hev. reflexivity. }
  rewrite Hpar. destruct (Z.even z0); simpl; [|reflexivity].
  destruct (sequence =? 0); simpl.
  - destruct (has_flag (SequenceProperties ted 0) TRACK_SEQUENCE_FLAG_DISALLOW_DOORS);
      simpl; [reflexivity|].
    destruct (bank_start ted =? 0); simpl;
      [destruct (Z.land (rotation_begin ted) 4 =? 0); simpl;
       [destruct (Z.lxor (GetDirection e) 2 =? _edge a); simpl;
        [destruct (_ + (z_begin ted - _) * 8 =? z0); simpl; [reflexivity|]|]|]|].
    all: destruct (block_index (Block ted (sequence + 1)) =? 255); simpl;
      [|reflexivity].
    all: destruct (bank_end ted =? 0); simpl; [|reflexivity].
    all: destruct (Z.land (rotation_end ted) 4 =? 0); simpl; [|reflexivity].
    all: destruct (Z.land (GetDirection e + rotation_end ted) 3 =? _edge a); simpl;
      reflexivity.
  - destruct (block_index (Block ted (sequence + 1)) =? 255); simpl; [|reflexivity].
    destruct (bank_end ted =? 0); simpl; [|reflexivity].
    destruct (Z.land (rotation_end ted) 4 =? 0); simpl; [|reflexivity].
    destruct (Z.land (GetDirection e + rotation_end ted) 3 =? _edge a); simpl;
      reflexivity.
Qed.

Lemma land_3_mod (x : Z) : Z.land x 3 = x mod 4.
Proof. change 3 with (Z.ones 2). rewrite Z.land_ones by lia. reflexivity. Qed.

Lemma lxor_2_mod (d : Z) : 0 <= d <= 3 -> Z.lxor d 2 = (d + 2) mod 4.
Proof.
  intros H.
  assert (Hd : d = 0 \/ d = 1 \/ d = 2 \/ d = 3) by lia.
  destruct Hd as [->|[->|[->| ->]]]; reflexivity.
Qed.

Lemma rotate_relative (x y k : Z) :
  Z.land (Z.land (x + k) 3 - Z.land (y + k) 3) 3 = Z.land (x - y) 3.
Proof.
  rewrite !land_3_mod. rewrite <- Zminus_mod.
  f_equal. lia.
Qed.

Lemma rotate_same (x y k : Z) :
  0 <= x <= 3 -> 0 <= y <= 3 ->
  (Z.land (x + k) 3 =? Z.land (y + k) 3) = (x =? y).
Proof.
  intros Hx Hy. rewrite !land_3_mod.
  destruct (Z.eqb_spec x y) as [->|Hne]; [apply Z.eqb_refl|].
  apply Z.eqb_neq. intros Heq. apply Hne.
  pose proof (Z.mod_pos_bound (x + k) 4). pose proof (Z.mod_pos_bound (y + k) 4).
  pose proof (Z.div_mod (x + k) 4). pose proof (Z.div_mod (y + k) 4). nia.
Qed.

Lemma rotate_reverse (d x k : Z) :
  0 <= d <= 3 -> 0 <= x <= 3 ->
  (Z.lxor (Z.land (d + k) 3) 2 =? Z.land (x + k) 3) = (Z.lxor d 2 =? x).
Proof.
  intros Hd Hx.
  rewrite (lxor_2_mod d Hd).
  rewrite lxor_2_mod by (rewrite land_3_mod; pose proof (Z.mod_pos_bound (d + k) 4); lia).
  rewrite !land_3_mod, Zplus_mod_idemp_l.
  replace (d + k + 2) with ((d + 2) + k) by lia.
  rewrite <- (Zplus_mod_idemp_l (d + 2)), <- land_3_mod, <- (land_3_mod (x + k)).
  apply rotate_same; [|exact Hx].
  pose proof (Z.mod_pos_bound (d + 2) 4). lia.
Qed.

Lemma rotate_end (d x r k : Z) :
  0 <= x <= 3 ->
  (Z.land (Z.land (d + k) 3 + r) 3 =? Z.land (x + k) 3) = (Z.land (d + r) 3 =? x).
Proof.
  intros Hx. rewrite (land_3_mod (d + k)), (land_3_mod (_ + r)), Zplus_mod_idemp_l.
  replace (d + k + r) with ((d + r) + k) by lia.
  rewrite <- (Zplus_mod_idemp_l (d + r)), <- !land_3_mod.
  apply rotate_same; [|exact Hx].
  rewrite land_3_mod. pose proof (Z.mod_pos_bound (d + r) 4). lia.
Qed.

(** The track check sees the edge of the wall only relative to the
    direction of the track. *)
Lemma track_check_rotate a wall z0 e trackType sequence rideIndex across k :
  0 <= _edge a <= 3 -> 0 <= GetDirection e <= 3 ->
  WallCheckObstructionWithTrack (rotate_action k a) wall z0 (rotate_element k e)
    trackType sequence rideIndex across
  = WallCheckObstructionWithTrack a wall z0 e trackType sequence rideIndex across.
Proof.
  intros He Hd. unfold WallCheckObstructionWithTrack, direction_reverse.
  unfold TILE_ELEMENT_DIRECTION_MASK. simpl.
  rewrite rotate_relative, (rotate_reverse _ _ k Hd He), (rotate_end _ _ _ k He).
  reflexivity.
Qed.

(** X7: the scan does not depend on how the tile is turned, paths apart.
    For an edge and a direction in 0-3, turning the candidate edge and the
    element by the same number of quarter turns gives the same outcome of
    the loop body (fall through, or conflict with the same status) and the
    same across-track flag, for every element that is not a path; the
    conflict names the turned element where it named the element. *)
Theorem scan_body_rotation_invariant a wall z0 z1 e across k :
  0 <= _edge a <= 3 -> 0 <= GetDirection e <= 3 ->
  GetType e <> TILE_ELEMENT_TYPE_PATH ->
  let r := WallCheckObstruction_element a wall z0 z1 e across in
  let r' := WallCheckObstruction_element (rotate_action k a) wall z0 z1
              (rotate_element k e) across in
  r'.2 = r.2
  /\ (Error <$> r'.1) = (Error <$> r.1)
  /\ (forall res, r.1 = Some res -> ObstructedBy res = Some e ->
        exists res', r'.1 = Some res' /\ ObstructedBy res' = Some (rotate_element k e)).
Proof.
  intros He Hd Hty. unfold WallCheckObstruction_element, GetType in *. simpl.
  destruct (data e) eqn:Hdata; try contradiction; simpl.
  - repeat split; intros; discriminate.
  - destruct (IsGhost e), (z0 >=? clearance_height e), (z1 <=? base_height e),
      (GetOccupiedQuadrants e =? 0); simpl;
      try (repeat split; intros; discriminate).
    rewrite (track_check_rotate a wall z0 e _ _ _ across k He Hd).
    destruct (WallCheckObstructionWithTrack a wall z0 e _ _ _ across) as [[|] ac];
      simpl; repeat split; intros; try discriminate.
    inversion H; subst. discriminate.
  - destruct (IsGhost e), (z0 >=? clearance_height e), (z1 <=? base_height e),
      (GetOccupiedQuadrants e =? 0); simpl;
      try (repeat split; intros; discriminate).
    destruct (get_small_scenery_entry _) as [entry|];
      [destruct (has_flag _ _)|]; simpl;
      repeat split; intros; try discriminate; eauto.
  - destruct (IsGhost e), (z0 >=? clearance_height e), (z1 <=? base_height e),
      (GetOccupiedQuadrants e =? 0); simpl;
      try (repeat split; intros; discriminate).
    repeat split; intros; eauto.
  - destruct (IsGhost e), (z0 >=? clearance_height e), (z1 <=? base_height e); simpl;
      try (repeat split; intros; discriminate).
    rewrite (rotate_same _ _ k He Hd).
    destruct (_edge a =? GetDirection e); simpl;
      repeat split; intros; try discriminate; eauto.
  - destruct (IsGhost e), (z0 >=? clearance_height e), (z1 <=? base_height e),
      (GetOccupiedQuadrants e =? 0); simpl;
      try (repeat split; intros; discriminate).
    destruct (get_large_scenery_entry _) as [entry|]; simpl;
      [|repeat split; intros; discriminate].
    unfold TILE_ELEMENT_DIRECTION_MASK. rewrite rotate_relative.
    destruct (has_flag _ _); simpl;
      repeat split; intros; try discriminate; eauto.
  - destruct (IsGhost e), (z0 >=? clearance_height e), (z1 <=? base_height e),
      (GetOccupiedQuadrants e =? 0); simpl;
      repeat split; intros; discriminate.
Qed.

(** X8: the across-track flag.  The scan hands back the flag raised only
    if the wall is a door and the tile holds a track element of a ride
    whose type permits doors on track; for any other wall, and on a tile
    without such track, the flag comes back as it went in. *)
Theorem across_track_only_for_doors a wall z0 z1 (l : list TileElement) across :
  (WallCheckObstruction_loop a wall z0 z1 l across).2 <> across ->
  has_flag (wall_flags wall) WALL_SCENERY_IS_DOOR = true
  /\ exists e trackType sequence rideIndex ride,
      In e l
      /\ data e = TrackData trackType sequence rideIndex
      /\ get_ride rideIndex = Some ride
      /\ RideTypeHasFlag (ride_type ride) RIDE_TYPE_FLAG_ALLOW_DOORS_ON_TRACK = true.
Proof.
  revert across. induction l as [|x l IH]; intros across; simpl.
  - intros H. contradiction.
  - destruct (WallCheckObstruction_element a wall z0 z1 x across) as [r ac] eqn:Hx.
    assert (Hflag : ac <> across ->
              has_flag (wall_flags wall) WALL_SCENERY_IS_DOOR = true
              /\ exists trackType sequence rideIndex ride,
                  data x = TrackData trackType sequence rideIndex
                  /\ get_ride rideIndex = Some ride
                  /\ RideTypeHasFlag (ride_type ride)
                       RIDE_TYPE_FLAG_ALLOW_DOORS_ON_TRACK = true).
    { intros Hne. unfold WallCheckObstruction_element in Hx.
      destruct (data x) eqn:Hdata;
        repeat match type of Hx with
        | context [if ?c then _ else _] => destruct c
        | context [match ?o with Some _ => _ | None => _ end] => destruct o
        end; try (inversion Hx; subst; contradiction).
      all: destruct (WallCheckObstructionWithTrack a wall z0 x TrackType
                       SequenceIndex RideIndex across) as [allowed ac'] eqn:Ht.
      all: assert (ac' = ac) by (destruct allowed; inversion Hx; reflexivity); subst ac'.
      all: unfold WallCheckObstructionWithTrack in Ht.
      all: destruct (get_ride RideIndex) as [ride|] eqn:Hride;
        [|inversion Ht; subst; contradiction].
      all: destruct (TrackIsAllowedWallEdges _ _ _ _);
        [inversion Ht; subst; contradiction|].
      all: destruct (has_flag (wall_flags wall) WALL_SCENERY_IS_DOOR) eqn:Hdoor;
        simpl in Ht; [|inversion Ht; subst; contradiction].
      all: destruct (RideTypeHasFlag (ride_type ride)
                       RIDE_TYPE_FLAG_ALLOW_DOORS_ON_TRACK) eqn:Hallow;
        simpl in Ht; [|inversion Ht; subst; contradiction].
      all: split; [reflexivity|]; eauto 10. }
    destruct r as [res|]; simpl.
    + intros Hne. destruct (Hflag Hne) as (Hdoor & tt & sq & ri & ride & H1 & H2 & H3).
      split; [exact Hdoor|]. exists x, tt, sq, ri, ride. auto.
    + intros Hne. destruct (bool_decide (ac = across)) eqn:Hac.
      * apply bool_decide_eq_true in Hac. subst ac.
        destruct (IH across Hne) as (Hdoor & e & tt & sq & ri & ride & Hin & H).
        split; [exact Hdoor|]. exists e, tt, sq, ri, ride. split; [right; exact Hin|exact H].
      * apply bool_decide_eq_false in Hac.
        destruct (Hflag Hac) as (Hdoor & tt & sq & ri & ride & H1 & H2 & H3).
        split; [exact Hdoor|]. exists x, tt, sq, ri, ride. auto.
Qed.

End TrackFurther.

(** * Further properties of Execute *)

Section ExecuteFurther.
Context `{X : Externals}.

Implicit Types (a : WallPlaceAction) (w : World).

(** [Execute_banner] touches nothing but the banner registry. *)
Lemma Execute_banner_frame a wallEntry targetLoc w banner w1 :
  Execute_banner a wallEntry targetLoc w = Some (banner, w1) ->
  w1 = set_banners (banners w1) w.
Proof.
  unfold Execute_banner, CreateBanner. intros H.
  destruct (negb (scrolling_mode wallEntry =? SCROLLING_MODE_NONE)).
  - destruct (first_free_slot (banners w)); [|discriminate].
    inversion H; subst. reflexivity.
  - inversion H; subst. destruct w1; reflexivity.
Qed.

(** What a successful Execute did. *)
Lemma Execute_ok_inv a w :
  Error (Execute a w).1 = Status.Ok ->
  exists t s wallEntry result across banner w1 elements,
    ResolveTargetHeight a w = inr (t, s)
    /\ get_wall_entry (_wallType a) = Some wallEntry
    /\ CheckObstruction a w wallEntry (Z.quot t COORDS_Z_STEP)
         (Execute_clearanceHeight wallEntry t s) = (result, across)
    /\ Error result = Status.Ok
    /\ Execute_banner a wallEntry
         (mkCoordsXYZ (coord_x (_loc a)) (coord_y (_loc a)) t) w = Some (banner, w1)
    /\ tileElements w !! TileCoordsXY (_loc a) = Some elements
    /\ let i := insert_index (Z.quot t COORDS_Z_STEP) elements in
       let wallElement :=
         Execute_wallElement a wallEntry s (Execute_clearanceHeight wallEntry t s)
           across banner (inserted_wall t) in
       (Execute a w).1
       = set_Cost_Data (wall_price wallEntry)
           (mkWallPlaceActionResult (GetBaseZ wallElement)
              (match banner with Some b => banner_id b | None => BANNER_INDEX_NULL end))
           (InitialResult a)
       /\ tileElements (Execute a w).2
          = <[TileCoordsXY (_loc a) := take i elements ++ wallElement :: drop i elements]>
              (tileElements w)
       /\ banners (Execute a w).2 = banners w1
       /\ gScreenFlags (Execute a w).2 = gScreenFlags w
       /\ gCheatsSandboxMode (Execute a w).2 = gCheatsSandboxMode w
       /\ gCheatsDisableClearanceChecks (Execute a w).2 = gCheatsDisableClearanceChecks w
       /\ _trackDesignDrawingPreview (Execute a w).2 = _trackDesignDrawingPreview w
       /\ mapAnimations (Execute a w).2
          = mapAnimations w
            ++ [(MAP_ANIMATION_TYPE_WALL,
                 mkCoordsXYZ (coord_x (_loc a)) (coord_y (_loc a)) t)]
       /\ invalidatedTiles (Execute a w).2
          = invalidatedTiles w
            ++ [(_loc a, GetBaseZ wallElement, GetBaseZ wallElement + 72)].
Proof.
  unfold Execute. intros H.
  destruct (ResolveTargetHeight a w) as [err|[t s]] eqn:Hres.
  { apply ResolveTargetHeight_error in Hres. subst. discriminate. }
  destruct (get_wall_entry (_wallType a)) as [wallEntry|]; [|discriminate].
  destruct (CheckObstruction a w wallEntry _ _) as [result across] eqn:Hobst.
  destruct (negb (Status.eqb (Error result) Status.Ok)) eqn:Hst.
  { simpl in H. rewrite H in Hst. discriminate. }
  apply negb_Status_eqb_false in Hst.
  set (targetLoc := mkCoordsXYZ (coord_x (_loc a)) (coord_y (_loc a)) t) in *.
  destruct (Execute_banner a wallEntry targetLoc w) as [[banner w1]|] eqn:Hbanner;
    [|discriminate].
  pose proof (Execute_banner_frame _ _ _ _ _ _ Hbanner) as Hw1.
  revert H. unfold TileElementInsert, MapCheckCapacityAndReorganise.
  change (TileCoordsXY targetLoc) with (TileCoordsXY (_loc a)).
  assert (Htiles : tileElements w1 = tileElements w) by (rewrite Hw1; reflexivity).
  destruct (tileElementsInUse w1 + 1 <=? MAX_TILE_ELEMENTS); simpl.
  - rewrite Htiles.
    destruct (tileElements w !! TileCoordsXY (_loc a)) as [elements|] eqn:Htile;
      [|discriminate].
    intros _. exists t, s, wallEntry, result, across, banner, w1, elements.
    repeat (split; [first [reflexivity | assumption]|]).
    simpl. unfold store_element. simpl.
    rewrite alter_insert_eq, insert_middle by apply insert_index_le.
    repeat split; try reflexivity; rewrite Hw1; reflexivity.
  - destruct (live_elements w1 + 1 <=? MAX_TILE_ELEMENTS); simpl; [|discriminate].
    rewrite Htiles.
    destruct (tileElements w !! TileCoordsXY (_loc a)) as [elements|] eqn:Htile;
      [|discriminate].
    intros _. exists t, s, wallEntry, result, across, banner, w1, elements.
    repeat (split; [first [reflexivity | assumption]|]).
    simpl. unfold store_element. simpl.
    rewrite alter_insert_eq, insert_middle by apply insert_index_le.
    repeat split; try reflexivity; rewrite Hw1; reflexivity.
Qed.

Lemma TileElementInsert_failure loc occupiedQuadrants d w w2 :
  TileElementInsert loc occupiedQuadrants d w = (None, w2) ->
  w2 = w \/ w2 = map_reorganise_elements w.
Proof.
  unfold TileElementInsert, MapCheckCapacityAndReorganise.
  destruct (tileElementsInUse w + 1 <=? MAX_TILE_ELEMENTS); simpl.
  - destruct (tileElements w !! TileCoordsXY loc); intros H; inversion H; auto.
  - destruct (live_elements w + 1 <=? MAX_TILE_ELEMENTS); simpl.
    + destruct (tileElements w !! TileCoordsXY loc); intros H; inversion H; auto.
    + intros H; inversion H; auto.
Qed.

(** X9: Execute ends in Ok, InvalidParameters, NoClearance or
    NoFreeElements.  When it ends in InvalidParameters or NoClearance the
    world is exactly as before; when it ends in NoFreeElements the stacks of
    all tiles, the global flags and the side channels are as before (no
    element was put in, nothing was animated or invalidated). *)
Theorem execute_failure_frame a w :
  (Error (Execute a w).1 = Status.Ok
   \/ Error (Execute a w).1 = Status.InvalidParameters
   \/ Error (Execute a w).1 = Status.NoClearance
   \/ Error (Execute a w).1 = Status.NoFreeElements)
  /\ (Error (Execute a w).1 = Status.InvalidParameters
      \/ Error (Execute a w).1 = Status.NoClearance ->
      (Execute a w).2 = w)
  /\ (Error (Execute a w).1 = Status.NoFreeElements ->
      tileElements (Execute a w).2 = tileElements w
      /\ mapAnimations (Execute a w).2 = mapAnimations w
      /\ invalidatedTiles (Execute a w).2 = invalidatedTiles w
      /\ gCheatsDisableClearanceChecks (Execute a w).2 = gCheatsDisableClearanceChecks w
      /\ gCheatsSandboxMode (Execute a w).2 = gCheatsSandboxMode w
      /\ gScreenFlags (Execute a w).2 = gScreenFlags w).
Proof.
  unfold Execute.
  destruct (ResolveTargetHeight a w) as [err|[t s]] eqn:Hres.
  { apply ResolveTargetHeight_error in Hres. subst. simpl.
    split; [auto|]. split; [reflexivity|discriminate]. }
  destruct (get_wall_entry (_wallType a)) as [wallEntry|];
    [|simpl; split; [auto|]; split; [reflexivity|discriminate]].
  pose proof (CheckObstruction_status a w wallEntry (Z.quot t COORDS_Z_STEP)
                (Execute_clearanceHeight wallEntry t s)) as Hst.
  destruct (CheckObstruction a w wallEntry _ _) as [result across]. simpl in Hst.
  destruct (negb (Status.eqb (Error result) Status.Ok)) eqn:Hneg.
  { simpl. split; [tauto|]. split; [reflexivity|].
    intros Hno. destruct Hst as [H|[H|H]]; rewrite H in Hno; discriminate. }
  destruct (Execute_banner a wallEntry _ w) as [[banner w1]|] eqn:Hbanner;
    [|simpl; split; [auto|]; split; [reflexivity|discriminate]].
  pose proof (Execute_banner_frame _ _ _ _ _ _ Hbanner) as Hw1.
  destruct (TileElementInsert _ 0 _ w1) as [[[handle inserted]|] w2] eqn:Hins.
  - simpl. split; [auto|]. split; [intros [H|H]; discriminate|discriminate].
  - simpl. split; [auto|]. split; [intros [H|H]; discriminate|].
    intros _. apply TileElementInsert_failure in Hins.
    destruct Hins as [->| ->]; rewrite Hw1; repeat split; reflexivity.
Qed.

(** X10: a successful Execute changes the stack of the tile of the request
    and of no other tile: the new stack is the old one with one wall element
    put in, the old elements keep their order.  The global flags are as
    before, one wall animation for the target location and one invalidation
    of the column from the base of the wall to 72 units above it are added,
    and the result carries the price of the catalog entry, the position of
    the request moved by (16,16) and the base height of the new element. *)
Theorem execute_success_frame a w :
  Error (Execute a w).1 = Status.Ok ->
  exists wallEntry wallElement elements (i : nat) t,
    get_wall_entry (_wallType a) = Some wallEntry
    /\ tileElements w !! TileCoordsXY (_loc a) = Some elements
    /\ (i <= length elements)%nat
    /\ GetType wallElement = TILE_ELEMENT_TYPE_WALL
    /\ tileElements (Execute a w).2 !! TileCoordsXY (_loc a)
       = Some (take i elements ++ wallElement :: drop i elements)
    /\ (forall k, k <> TileCoordsXY (_loc a) ->
          tileElements (Execute a w).2 !! k = tileElements w !! k)
    /\ gScreenFlags (Execute a w).2 = gScreenFlags w
    /\ gCheatsSandboxMode (Execute a w).2 = gCheatsSandboxMode w
    /\ gCheatsDisableClearanceChecks (Execute a w).2 = gCheatsDisableClearanceChecks w
    /\ mapAnimations (Execute a w).2
       = mapAnimations w
         ++ [(MAP_ANIMATION_TYPE_WALL,
              mkCoordsXYZ (coord_x (_loc a)) (coord_y (_loc a)) t)]
    /\ invalidatedTiles (Execute a w).2
       = invalidatedTiles w
         ++ [(_loc a, GetBaseZ wallElement, GetBaseZ wallElement + 72)]
    /\ Cost (Execute a w).1 = wall_price wallEntry
    /\ coord_x (Position (Execute a w).1) = coord_x (_loc a) + 16
    /\ coord_y (Position (Execute a w).1) = coord_y (_loc a) + 16
    /\ BaseHeight <$> ResultData (Execute a w).1 = Some (GetBaseZ wallElement)
    /\ ResolveTargetHeight a w = inr (t, wall_slope_of wallElement).
Proof.
  intros Hok.
  destruct (Execute_ok_inv a w Hok)
    as (t & s & wallEntry & result & across & banner & w1 & elements
        & Hres & Hentry & _ & _ & _ & Htile & Hr & Htiles & _ & Hf1 & Hf2 & Hf3 & _
        & Hanim & Hinv).
  exists wallEntry,
    (Execute_wallElement a wallEntry s (Execute_clearanceHeight wallEntry t s)
       across banner (inserted_wall t)),
    elements, (insert_index (Z.quot t COORDS_Z_STEP) elements), t.
  split; [exact Hentry|]. split; [exact Htile|].
  split; [apply insert_index_le|]. split; [reflexivity|].
  split; [rewrite Htiles; apply lookup_insert_eq|].
  split; [intros k Hk; rewrite Htiles; apply lookup_insert_ne; congruence|].
  split; [exact Hf1|]. split; [exact Hf2|]. split; [exact Hf3|].
  split; [exact Hanim|]. split; [exact Hinv|].
  rewrite Hr. simpl. repeat split; try reflexivity.
  - unfold InitialResult. simpl. destruct (coord_z (_loc a) =? 0); reflexivity.
  - unfold InitialResult. simpl. destruct (coord_z (_loc a) =? 0); reflexivity.
  - exact Hres.
Qed.

(** The slope flags the height resolution yields never carry the elevated
    flag. *)
Lemma ResolveTargetHeight_not_elevated a w t s :
  ResolveTargetHeight a w = inr (t, s) -> has_flag s EDGE_SLOPE_ELEVATED = false.
Proof.
  unfold ResolveTargetHeight. intros H.
  destruct (coord_z (_loc a) =? 0).
  - destruct (map_get_surface_element_at w (_loc a)) as [surf|]; [|discriminate].
    destruct (has_flag _ EDGE_SLOPE_ELEVATED) eqn:Helev; inversion H; subst.
    + apply has_flag_cleared.
    + exact Helev.
  - inversion H; subst. reflexivity.
Qed.

Lemma Execute_clearanceHeight_closed wallEntry t s :
  Execute_clearanceHeight wallEntry t s
  = (Z.quot t 8 + (if edge_is_sloped s then 2 else 0) + wall_height wallEntry) mod 256.
Proof.
  unfold Execute_clearanceHeight. change COORDS_Z_STEP with 8.
  destruct (edge_is_sloped s).
  - rewrite u8_add_l, <- Z.add_assoc, u8_add_l, Z.add_assoc. reflexivity.
  - rewrite u8_add_l, Z.add_0_r. reflexivity.
Qed.

(** For a wall that is not a door the flag goes through the track check,
    the loop body and the scan as it came in. *)
Lemma loop_flag_without_door a wall z0 z1 (l : list TileElement) across :
  has_flag (wall_flags wall) WALL_SCENERY_IS_DOOR = false ->
  (WallCheckObstruction_loop a wall z0 z1 l across).2 = across.
Proof.
  intros Hdoor. revert across. induction l as [|x l IH]; intros across; simpl;
    [reflexivity|].
  assert (Hx : (WallCheckObstruction_element a wall z0 z1 x across).2 = across).
  { unfold WallCheckObstruction_element.
    destruct (data x);
      repeat match goal with
      | |- context [if ?c then _ else _] => destruct c
      | |- context [match ?o with Some _ => _ | None => _ end] => destruct o
      end; try reflexivity.
    all: unfold WallCheckObstructionWithTrack; rewrite Hdoor; simpl.
    all: destruct (get_ride _) as [ride|]; [|reflexivity].
    all: destruct (TrackIsAllowedWallEdges _ _ _ _); reflexivity. }
  destruct (WallCheckObstruction_element a wall z0 z1 x across) as [[r|] ac];
    simpl in *; subst; [reflexivity|apply IH].
Qed.

(** X11: the wall element a successful Execute puts in.  Its direction is
    the edge of the request reduced to 0-3, its ghost flag is the ghost flag
    of the request, it occupies no quadrant, it carries the catalog index
    and the first two colours of the request, the third colour only if the
    catalog entry has a third colour; its slope flags are the resolved ones
    and never carry the elevated flag; its clearance height is its base
    height plus 2 if the edge slopes plus the height of the catalog entry,
    as an 8-bit value; it is marked across track only if the entry is a
    door and the obstruction scan ran. *)
Theorem installed_wall_fields a w :
  Error (Execute a w).1 = Status.Ok ->
  exists wallEntry wallElement wl elements (i : nat),
    get_wall_entry (_wallType a) = Some wallEntry
    /\ tileElements w !! TileCoordsXY (_loc a) = Some elements
    /\ tileElements (Execute a w).2 !! TileCoordsXY (_loc a)
       = Some (take i elements ++ wallElement :: drop i elements)
    /\ data wallElement = WallData wl
    /\ GetDirection wallElement = Z.land (_edge a) 3
    /\ 0 <= GetDirection wallElement <= 3
    /\ IsGhost wallElement = has_flag (GetFlags a) GAME_COMMAND_FLAG_GHOST
    /\ GetOccupiedQuadrants wallElement = 0
    /\ wall_EntryIndex wl = _wallType a
    /\ wall_PrimaryColour wl = _primaryColour a
    /\ wall_SecondaryColour wl = _secondaryColour a
    /\ wall_TertiaryColour wl
       = (if has_flag (wall_flags wallEntry) WALL_SCENERY_HAS_TERNARY_COLOUR
          then _tertiaryColour a else 0)
    /\ has_flag (wall_Slope wl) EDGE_SLOPE_ELEVATED = false
    /\ clearance_height wallElement
       = (base_height wallElement
          + (if edge_is_sloped (wall_Slope wl) then 2 else 0)
          + wall_height wallEntry) mod 256
    /\ (wall_AcrossTrack wl = true ->
        has_flag (wall_flags wallEntry) WALL_SCENERY_IS_DOOR = true
        /\ has_flag (GetFlags a) GAME_COMMAND_FLAG_PATH_SCENERY = false
        /\ gCheatsDisableClearanceChecks w = false).
Proof.
  intros Hok.
  destruct (Execute_ok_inv a w Hok)
    as (t & s & wallEntry & result & across & banner & w1 & elements
        & Hres & Hentry & Hobst & _ & _ & Htile & _ & Htiles & _).
  exists wallEntry,
    (Execute_wallElement a wallEntry s (Execute_clearanceHeight wallEntry t s)
       across banner (inserted_wall t)),
    (mkWallElement s (_primaryColour a) (_secondaryColour a)
       (if has_flag (wall_flags wallEntry) WALL_SCENERY_HAS_TERNARY_COLOUR
        then _tertiaryColour a else 0)
       across (_wallType a)
       (match banner with Some b => banner_id b | None => BANNER_INDEX_NULL end)),
    elements, (insert_index (Z.quot t COORDS_Z_STEP) elements).
  split; [exact Hentry|]. split; [exact Htile|].
  split; [rewrite Htiles; apply lookup_insert_eq|].
  split; [reflexivity|]. simpl. unfold TILE_ELEMENT_DIRECTION_MASK.
  split; [reflexivity|].
  split.
  { rewrite land_3_mod. pose proof (Z.mod_pos_bound (_edge a) 4). lia. }
  repeat (split; [reflexivity|]).
  split; [eapply ResolveTargetHeight_not_elevated; eassumption|].
  split; [apply Execute_clearanceHeight_closed|].
  intros Hacross. subst across.
  unfold CheckObstruction in Hobst.
  destruct (has_flag (GetFlags a) GAME_COMMAND_FLAG_PATH_SCENERY);
    [simpl in Hobst; inversion Hobst|].
  destruct (gCheatsDisableClearanceChecks w); [simpl in Hobst; inversion Hobst|].
  simpl in Hobst. split; [|auto].
  destruct (has_flag (wall_flags wallEntry) WALL_SCENERY_IS_DOOR) eqn:Hdoor;
    [reflexivity|].
  unfold WallCheckObstruction in Hobst.
  destruct (map_is_location_at_edge (_loc a)); [inversion Hobst|].
  pose proof (loop_flag_without_door a wallEntry (Z.quot t COORDS_Z_STEP)
                (Execute_clearanceHeight wallEntry t s)
                (map_get_first_element_at w (_loc a)) false Hdoor) as Hflag.
  rewrite Hobst in Hflag. simpl in Hflag. discriminate.
Qed.

(** X12: the banner of a successful Execute.  For a catalog entry without
    sign the registry is as before and the result and the wall element
    carry the null banner index.  For an entry with a sign one slot that
    was free holds a banner afterwards and the registry is otherwise as
    before; the banner has the index of its slot, which the result and the
    wall element carry, type 0, empty text, white colours, the tile of the
    request as position, and the wall flag, together with the ride link and
    the ride index exactly when a closest ride is found. *)
Theorem installed_banner a w :
  Error (Execute a w).1 = Status.Ok ->
  exists wallEntry wallElement wl elements (i : nat),
    get_wall_entry (_wallType a) = Some wallEntry
    /\ tileElements w !! TileCoordsXY (_loc a) = Some elements
    /\ tileElements (Execute a w).2 !! TileCoordsXY (_loc a)
       = Some (take i elements ++ wallElement :: drop i elements)
    /\ data wallElement = WallData wl
    /\ BannerId <$> ResultData (Execute a w).1 = Some (wall_BannerIndex wl)
    /\ (scrolling_mode wallEntry = SCROLLING_MODE_NONE ->
        banners (Execute a w).2 = banners w
        /\ wall_BannerIndex wl = BANNER_INDEX_NULL)
    /\ (scrolling_mode wallEntry <> SCROLLING_MODE_NONE ->
        exists (slot : nat) b t,
          banners w !! slot = Some None
          /\ banners (Execute a w).2 = <[slot := Some b]> (banners w)
          /\ banner_id b = Z.of_nat slot
          /\ wall_BannerIndex wl = Z.of_nat slot
          /\ banner_type b = 0
          /\ banner_text b = String.EmptyString
          /\ banner_colour b = COLOUR_WHITE
          /\ banner_text_colour b = COLOUR_WHITE
          /\ banner_position b = TileCoordsXY (_loc a)
          /\ ResolveTargetHeight a w = inr (t, wall_Slope wl)
          /\ let rideIndex :=
               banner_get_closest_ride_index
                 (mkCoordsXYZ (coord_x (_loc a)) (coord_y (_loc a)) t) in
             if rideIndex =? RIDE_ID_NULL
             then banner_flags b = BANNER_FLAG_IS_WALL
                  /\ banner_ride_index b = RIDE_ID_NULL
             else banner_flags b = Z.lor BANNER_FLAG_IS_WALL BANNER_FLAG_LINKED_TO_RIDE
                  /\ banner_ride_index b = rideIndex).
Proof.
  intros Hok.
  destruct (Execute_ok_inv a w Hok)
    as (t & s & wallEntry & result & across & banner & w1 & elements
        & Hres & Hentry & _ & _ & Hbanner & Htile & Hr & Htiles & Hbanners & _).
  exists wallEntry,
    (Execute_wallElement a wallEntry s (Execute_clearanceHeight wallEntry t s)
       across banner (inserted_wall t)),
    (mkWallElement s (_primaryColour a) (_secondaryColour a)
       (if has_flag (wall_flags wallEntry) WALL_SCENERY_HAS_TERNARY_COLOUR
        then _tertiaryColour a else 0)
       across (_wallType a)
       (match banner with Some b => banner_id b | None => BANNER_INDEX_NULL end)),
    elements, (insert_index (Z.quot t COORDS_Z_STEP) elements).
  split; [exact Hentry|]. split; [exact Htile|].
  split; [rewrite Htiles; apply lookup_insert_eq|].
  split; [reflexivity|].
  split; [rewrite Hr; reflexivity|].
  rewrite Hbanners. simpl.
  unfold Execute_banner, CreateBanner in Hbanner. split.
  - intros Hnone. apply Z.eqb_eq in Hnone. rewrite Hnone in Hbanner.
    simpl in Hbanner. inversion Hbanner; subst. auto.
  - intros Hsign. apply Z.eqb_neq in Hsign. rewrite Hsign in Hbanner.
    simpl in Hbanner.
    destruct (first_free_slot (banners w)) as [slot|] eqn:Hslot; [|discriminate].
    pose proof (first_free_slot_free _ _ Hslot) as Hfree.
    inversion Hbanner; subst. simpl. rewrite Nat2Z.id, list_insert_insert_eq.
    eexists slot, _, t. split; [exact Hfree|]. split; [reflexivity|]. simpl.
    repeat (split; [first [reflexivity|exact Hres]|]).
    destruct (banner_get_closest_ride_index _ =? RIDE_ID_NULL); simpl; auto.
Qed.

(** X19: placing at the height of the ground.  With request height 0 a
    successful Execute puts the wall on the level of the surface element,
    or two levels above it when the slope table has the elevated flag for
    the slope of the surface and the edge; the result reports that height
    in coordinate units, and the slope flags of the wall are the table
    entry without the elevated flag. *)
Theorem auto_height_placement a w :
  coord_z (_loc a) = 0 ->
  Error (Execute a w).1 = Status.Ok ->
  exists surfaceElement wallElement elements (i : nat),
    map_get_surface_element_at w (_loc a) = Some surfaceElement
    /\ tileElements w !! TileCoordsXY (_loc a) = Some elements
    /\ tileElements (Execute a w).2 !! TileCoordsXY (_loc a)
       = Some (take i elements ++ wallElement :: drop i elements)
    /\ let entry := LandSlopeToWallSlope (GetSlope surfaceElement) (Z.land (_edge a) 3) in
       let raised := has_flag entry EDGE_SLOPE_ELEVATED in
       base_height wallElement
       = base_height (surface_element surfaceElement) + (if raised then 2 else 0)
       /\ BaseHeight <$> ResultData (Execute a w).1
          = Some (GetBaseZ (surface_element surfaceElement) + (if raised then 16 else 0))
       /\ wall_slope_of wallElement
          = (if raised then Z.land entry (Z.lnot EDGE_SLOPE_ELEVATED) else entry).
Proof.
  intros Hz Hok.
  destruct (Execute_ok_inv a w Hok)
    as (t & s & wallEntry & result & across & banner & w1 & elements
        & Hres & Hentry & _ & _ & _ & Htile & Hr & Htiles & _).
  unfold ResolveTargetHeight in Hres. rewrite Hz in Hres. simpl in Hres.
  destruct (map_get_surface_element_at w (_loc a)) as [surf|]; [|discriminate].
  exists surf,
    (Execute_wallElement a wallEntry s (Execute_clearanceHeight wallEntry t s)
       across banner (inserted_wall t)),
    elements, (insert_index (Z.quot t COORDS_Z_STEP) elements).
  split; [reflexivity|]. split; [exact Htile|].
  split; [rewrite Htiles; apply lookup_insert_eq|].
  rewrite Hr. simpl.
  assert (Hq : forall b k, Z.quot (b * 8 + k * 8) 8 = b + k).
  { intros b k. rewrite <- Z.mul_add_distr_r. apply Z.quot_mul. lia. }
  destruct (has_flag _ EDGE_SLOPE_ELEVATED); inversion Hres; subst t s;
    unfold GetBaseZ; simpl; change COORDS_Z_STEP with 8.
  - change 16 with (2 * 8). rewrite Hq. repeat split.
    f_equal. lia.
  - rewrite Z.quot_mul by lia. rewrite !Z.add_0_r. repeat split.
Qed.

End ExecuteFurther.

(** * Further properties of Query *)

Section QueryFurther.
Context `{X : Externals}.

Implicit Types (a : WallPlaceAction) (w : World).

(** The request is placed in normal play: not in the scenario editor, not
    as a path accessory, not in sandbox mode (line 81). *)
Lemma Query_CheckTerrain_inv a w t s :
  Query_CheckTerrain a w = inr (t, s) ->
  LocationValid (_loc a) = true
  /\ _edge a <= 3
  /\ (if negb (has_flag (gScreenFlags w) SCREEN_FLAGS_SCENARIO_EDITOR)
         && negb (has_flag (GetFlags a) GAME_COMMAND_FLAG_PATH_SCENERY)
         && negb (gCheatsSandboxMode w)
      then (if coord_z (_loc a) =? 0
            then map_is_location_in_park (_loc a)
            else map_is_location_owned (_loc a)) = true
      else _trackDesignDrawingPreview w = false ->
           coord_x (_loc a) <= GetMapSizeMaxXY /\ coord_y (_loc a) <= GetMapSizeMaxXY)
  /\ ResolveTargetHeight a w = inr (t, s)
  /\ exists surfaceElement,
      map_get_surface_element_at w (_loc a) = Some surfaceElement
      /\ (gCheatsDisableClearanceChecks w = false ->
          GetBaseZ (surface_element surfaceElement) <= t
          /\ (0 < GetWaterHeight surfaceElement ->
              GetWaterHeight surfaceElement mod 65536 <= t))
      /\ (edge_is_sloped s = false ->
          Query_BelowRaisedCorner a surfaceElement t = false).
Proof.
  unfold Query_CheckTerrain. intros H.
  destruct (LocationValid (_loc a)); simpl in H; [|discriminate].
  split; [reflexivity|].
  destruct (negb (has_flag (gScreenFlags w) SCREEN_FLAGS_SCENARIO_EDITOR)
            && negb (has_flag (GetFlags a) GAME_COMMAND_FLAG_PATH_SCENERY)
            && negb (gCheatsSandboxMode w)) eqn:Hnormal.
  - destruct (if coord_z (_loc a) =? 0
              then negb (map_is_location_in_park (_loc a))
              else negb (map_is_location_owned (_loc a))) eqn:Hown; [discriminate|].
    destruct (Z.gtb_spec (_edge a) 3); [discriminate|].
    split; [lia|]. split.
    { destruct (coord_z (_loc a) =? 0); apply negb_false_iff in Hown; exact Hown. }
    destruct (ResolveTargetHeight a w) as [e|[t' s']]; [discriminate|].
    destruct (map_get_surface_element_at w (_loc a)) as [surf|]; [|discriminate].
    destruct (_ && _ && negb (gCheatsDisableClearanceChecks w)) eqn:Hwater;
      [discriminate|].
    destruct ((t' <? GetBaseZ (surface_element surf))
              && negb (gCheatsDisableClearanceChecks w)) eqn:Hground; [discriminate|].
    destruct (negb (edge_is_sloped s') && Query_BelowRaisedCorner a surf t') eqn:Hcorner;
      [discriminate|].
    inversion H; subst. split; [reflexivity|]. exists surf. split; [reflexivity|].
    split.
    + intros Hcheat. rewrite Hcheat in Hwater, Hground. simpl in *.
      rewrite andb_true_r in Hwater, Hground.
      apply Z.ltb_ge in Hground. split; [exact Hground|].
      intros Hw. apply andb_false_iff in Hwater as [Hwater|Hwater].
      * rewrite Z.gtb_ltb in Hwater. apply Z.ltb_ge in Hwater. lia.
      * apply Z.ltb_ge in Hwater. exact Hwater.
    + intros Hflat. rewrite Hflat in Hcorner. exact Hcorner.
  - destruct (negb (_trackDesignDrawingPreview w)
              && ((coord_x (_loc a) >? GetMapSizeMaxXY)
                  || (coord_y (_loc a) >? GetMapSizeMaxXY))) eqn:Hmap; [discriminate|].
    destruct (Z.gtb_spec (_edge a) 3); [discriminate|].
    split; [lia|]. split.
    { intros Hprev. rewrite Hprev in Hmap. simpl in Hmap.
      apply orb_false_iff in Hmap as [Hx Hy].
      rewrite Z.gtb_ltb in Hx, Hy. apply Z.ltb_ge in Hx. apply Z.ltb_ge in Hy. lia. }
    destruct (ResolveTargetHeight a w) as [e|[t' s']]; [discriminate|].
    destruct (map_get_surface_element_at w (_loc a)) as [surf|]; [|discriminate].
    destruct (_ && _ && negb (gCheatsDisableClearanceChecks w)) eqn:Hwater;
      [discriminate|].
    destruct ((t' <? GetBaseZ (surface_element surf))
              && negb (gCheatsDisableClearanceChecks w)) eqn:Hground; [discriminate|].
    destruct (negb (edge_is_sloped s') && Query_BelowRaisedCorner a surf t') eqn:Hcorner;
      [discriminate|].
    inversion H; subst. split; [reflexivity|]. exists surf. split; [reflexivity|].
    split.
    + intros Hcheat. rewrite Hcheat in Hwater, Hground. simpl in *.
      rewrite andb_true_r in Hwater, Hground.
      apply Z.ltb_ge in Hground. split; [exact Hground|].
      intros Hw. apply andb_false_iff in Hwater as [Hwater|Hwater].
      * rewrite Z.gtb_ltb in Hwater. apply Z.ltb_ge in Hwater. lia.
      * apply Z.ltb_ge in Hwater. exact Hwater.
    + intros Hflat. rewrite Hflat in Hcorner. exact Hcorner.
Qed.

Lemma Query_CheckTerrain_error_status a w err :
  Query_CheckTerrain a w = inl err ->
  Error err = Status.NotOwned \/ Error err = Status.InvalidParameters
  \/ Error err = Status.Disallowed.
Proof.
  unfold Query_CheckTerrain. intros H.
  repeat match type of H with
  | context [if ?c then _ else _] => destruct c eqn:?
  end;
  try (inversion H; subst; simpl; auto; fail).
  all: destruct (ResolveTargetHeight a w) as [e|[t s]] eqn:Hres;
    [ apply ResolveTargetHeight_error in Hres; inversion H; subst; simpl; auto |].
  all: destruct (map_get_surface_element_at w (_loc a));
    [| inversion H; subst; simpl; auto].
  all: repeat match type of H with
       | context [if ?c then _ else _] => destruct c eqn:?
       end; inversion H; subst; simpl; auto.
Qed.

(** X13: what Ok from Query guarantees.  The location is valid, and owned
    or in the park as the mode of play requires; the edge is at most 3; the
    tile has a surface and the catalog has the wall; unless clearance checks
    are disabled the target height is at or above the ground and at or
    above the water; a wall that may not stand on slopes is not on a sloping
    edge; a wall with a sign has a free banner; the obstruction check
    passes; tile storage has room.  The result carries the price of the
    catalog entry and the placeholder payload. *)
Theorem query_ok_guarantees a w :
  Error (Query a w).1 = Status.Ok ->
  LocationValid (_loc a) = true
  /\ _edge a <= 3
  /\ (negb (has_flag (gScreenFlags w) SCREEN_FLAGS_SCENARIO_EDITOR)
      && negb (has_flag (GetFlags a) GAME_COMMAND_FLAG_PATH_SCENERY)
      && negb (gCheatsSandboxMode w) = true ->
      (if coord_z (_loc a) =? 0
       then map_is_location_in_park (_loc a)
       else map_is_location_owned (_loc a)) = true)
  /\ exists wallEntry surfaceElement t s,
      get_wall_entry (_wallType a) = Some wallEntry
      /\ map_get_surface_element_at w (_loc a) = Some surfaceElement
      /\ ResolveTargetHeight a w = inr (t, s)
      /\ (gCheatsDisableClearanceChecks w = false ->
          GetBaseZ (surface_element surfaceElement) <= t
          /\ (0 < GetWaterHeight surfaceElement ->
              GetWaterHeight surfaceElement mod 65536 <= t))
      /\ (edge_is_sloped s = false ->
          Query_BelowRaisedCorner a surfaceElement t = false)
      /\ (edge_is_sloped s = true ->
          has_flag (wall_flags wallEntry) WALL_SCENERY_CANT_BUILD_ON_SLOPE = false)
      /\ (scrolling_mode wallEntry <> SCROLLING_MODE_NONE ->
          HasReachedBannerLimit w = false)
      /\ Error (CheckObstruction a w wallEntry (Z.quot t 8)
                  (Execute_clearanceHeight wallEntry t s)).1 = Status.Ok
      /\ has_capacity w = true
      /\ Cost (Query a w).1 = wall_price wallEntry
      /\ ResultData (Query a w).1 = Some (mkWallPlaceActionResult 0 BANNER_INDEX_NULL)
      /\ coord_x (Position (Query a w).1) = coord_x (_loc a) + 16
      /\ coord_y (Position (Query a w).1) = coord_y (_loc a) + 16.
Proof.
  intros HQ. unfold Query in HQ |- *.
  destruct (Query_validate a w) as [err|wallEntry] eqn:Hvalid.
  { exfalso. eapply Query_validate_error; eassumption. }
  pose proof (MapCheckCapacityAndReorganise_ok (_loc a) w) as Hcap.
  destruct (MapCheckCapacityAndReorganise (_loc a) w) as [ok w']. simpl in Hcap.
  destruct ok; [|discriminate]. simpl.
  unfold Query_validate in Hvalid.
  destruct (Query_CheckTerrain a w) as [e|[t s]] eqn:Hterrain; [discriminate|].
  destruct (Query_CheckTerrain_inv a w t s Hterrain)
    as (Hloc & Hedge & Hown & Hres & surf & Hsurf & Hground & Hcorner).
  destruct (get_wall_entry (_wallType a)) as [entry|] eqn:Hentry; [|discriminate].
  destruct (negb (scrolling_mode entry =? SCROLLING_MODE_NONE)
            && HasReachedBannerLimit w) eqn:Hbanner; [discriminate|].
  destruct (Query_clearanceHeight entry t s) as [e|clearanceHeight] eqn:Hclear;
    [discriminate|].
  pose proof (Query_clearanceHeight_ok _ _ _ _ Hclear) as ->.
  destruct (CheckObstruction a w entry _ _) as [result across] eqn:Hobst.
  destruct (negb (Status.eqb (Error result) Status.Ok)) eqn:Hst; [discriminate|].
  apply negb_Status_eqb_false in Hst. inversion Hvalid; subst entry.
  split; [exact Hloc|]. split; [exact Hedge|]. split.
  { intros Hnormal. rewrite Hnormal in Hown. exact Hown. }
  exists wallEntry, surf, t, s.
  split; [reflexivity|]. split; [exact Hsurf|]. split; [exact Hres|].
  split; [exact Hground|]. split; [exact Hcorner|]. split.
  { intros Hslope. unfold Query_clearanceHeight in Hclear. rewrite Hslope in Hclear.
    destruct (has_flag _ _); [discriminate|reflexivity]. }
  split.
  { intros Hsign. apply Z.eqb_neq in Hsign. rewrite Hsign in Hbanner. exact Hbanner. }
  split; [rewrite Hobst; exact Hst|]. split; [symmetry; exact Hcap|].
  repeat split; unfold InitialResult; simpl;
    destruct (coord_z (_loc a) =? 0); reflexivity.
Qed.

(** X14: a conflict found by Query is found by Execute.  If Query ends in
    NoClearance, Execute with the same request on the same world ends in
    the very same result, naming the same element, and neither changes the
    world. *)
Theorem query_conflict_repeated_by_execute a w :
  Error (Query a w).1 = Status.NoClearance ->
  Execute a w = Query a w /\ (Query a w).2 = w.
Proof.
  intros HQ. unfold Query in HQ |- *.
  destruct (Query_validate a w) as [err|wallEntry] eqn:Hvalid.
  - simpl in HQ |- *. split; [|reflexivity].
    unfold Query_validate in Hvalid.
    destruct (Query_CheckTerrain a w) as [e|[t s]] eqn:Hterrain.
    { inversion Hvalid; subst e.
      destruct (Query_CheckTerrain_error_status a w err Hterrain) as [H|[H|H]];
        rewrite H in HQ; discriminate. }
    destruct (Query_CheckTerrain_inv a w t s Hterrain) as (_ & _ & _ & Hres & _).
    destruct (get_wall_entry (_wallType a)) as [entry|] eqn:Hentry;
      [|inversion Hvalid; subst; discriminate].
    destruct (negb (scrolling_mode entry =? SCROLLING_MODE_NONE)
              && HasReachedBannerLimit w); [inversion Hvalid; subst; discriminate|].
    destruct (Query_clearanceHeight entry t s) as [e|clearanceHeight] eqn:Hclear.
    { unfold Query_clearanceHeight in Hclear.
      destruct (edge_is_sloped s); [destruct (has_flag _ _)|];
        inversion Hclear; subst; inversion Hvalid; subst; discriminate. }
    pose proof (Query_clearanceHeight_ok _ _ _ _ Hclear) as ->.
    destruct (CheckObstruction a w entry _ _) as [result across] eqn:Hobst.
    destruct (negb (Status.eqb (Error result) Status.Ok)) eqn:Hst; [|discriminate].
    inversion Hvalid; subst result.
    unfold Execute. rewrite Hres, Hentry. change COORDS_Z_STEP with 8.
    change (Z.quot t 8) with (Z.quot t 8) in Hobst.
    unfold Execute_clearanceHeight in Hobst |- *. change COORDS_Z_STEP with 8 in *.
    rewrite Hobst, Hst. reflexivity.
  - destruct (MapCheckCapacityAndReorganise (_loc a) w) as [ok w'].
    destruct ok; simpl in HQ; discriminate.
Qed.

(** X15: with clearance checks disabled, or for a path accessory, what
    stands on the tile does not matter to Execute.  It succeeds as soon as
    the height resolves, the catalog has the wall, a banner is free if the
    wall has a sign, the tile exists and tile storage has room; the wall it
    puts in is not marked across track; and neither Query nor Execute ever
    ends in NoClearance. *)
Theorem no_obstruction_check_when_disabled a w :
  gCheatsDisableClearanceChecks w = true
  \/ has_flag (GetFlags a) GAME_COMMAND_FLAG_PATH_SCENERY = true ->
  Error (Query a w).1 <> Status.NoClearance
  /\ Error (Execute a w).1 <> Status.NoClearance
  /\ (forall t s wallEntry elements,
        ResolveTargetHeight a w = inr (t, s) ->
        get_wall_entry (_wallType a) = Some wallEntry ->
        (scrolling_mode wallEntry <> SCROLLING_MODE_NONE ->
         HasReachedBannerLimit w = false) ->
        tileElements w !! TileCoordsXY (_loc a) = Some elements ->
        has_capacity w = true ->
        Error (Execute a w).1 = Status.Ok
        /\ exists wallElement (i : nat),
            tileElements (Execute a w).2 !! TileCoordsXY (_loc a)
            = Some (take i elements ++ wallElement :: drop i elements)
            /\ exists wl, data wallElement = WallData wl /\ wall_AcrossTrack wl = false).
Proof.
  intros Hoff.
  assert (Hcheck : forall wallEntry z0 z1,
            CheckObstruction a w wallEntry z0 z1 = (MakeResult, false)).
  { intros wallEntry z0 z1. unfold CheckObstruction.
    destruct Hoff as [->| ->]; [rewrite andb_false_r|]; reflexivity. }
  split; [|split].
  - unfold Query. destruct (Query_validate a w) as [err|wallEntry] eqn:Hvalid.
    + simpl. intros HQ. unfold Query_validate in Hvalid.
      destruct (Query_CheckTerrain a w) as [e|[t s]] eqn:Hterrain.
      { inversion Hvalid; subst e.
        destruct (Query_CheckTerrain_error_status a w err Hterrain) as [H|[H|H]];
          rewrite H in HQ; discriminate. }
      destruct (get_wall_entry (_wallType a)) as [entry|];
        [|inversion Hvalid; subst; discriminate].
      destruct (negb (scrolling_mode entry =? SCROLLING_MODE_NONE)
                && HasReachedBannerLimit w); [inversion Hvalid; subst; discriminate|].
      destruct (Query_clearanceHeight entry t s) as [e|clearanceHeight] eqn:Hclear.
      { unfold Query_clearanceHeight in Hclear.
        destruct (edge_is_sloped s);
          [destruct (has_flag (wall_flags entry) WALL_SCENERY_CANT_BUILD_ON_SLOPE)|];
          inversion Hclear; subst; inversion Hvalid; subst; discriminate. }
      rewrite Hcheck in Hvalid. simpl in Hvalid. discriminate.
    + destruct (MapCheckCapacityAndReorganise (_loc a) w) as [ok w'].
      destruct ok; simpl; discriminate.
  - unfold Execute.
    destruct (ResolveTargetHeight a w) as [err|[t s]] eqn:Hres.
    { apply ResolveTargetHeight_error in Hres. subst. discriminate. }
    destruct (get_wall_entry (_wallType a)) as [entry|]; [|discriminate].
    rewrite Hcheck. simpl.
    destruct (Execute_banner a entry _ w) as [[banner w1]|]; [|discriminate].
    destruct (TileElementInsert _ 0 _ w1) as [[[handle inserted]|] w2]; discriminate.
  - intros t s wallEntry elements Hres Hentry Hfree Htile Hcap.
    assert (Hok : Error (Execute a w).1 = Status.Ok).
    { destruct (Execute_succeeds a w t s wallEntry elements MakeResult false
                  Hres Hentry (Hcheck _ _ _) eq_refl Hfree Htile Hcap)
        as (we & bid & i & Hr & _). rewrite Hr. reflexivity. }
    split; [exact Hok|].
    destruct (Execute_ok_inv a w Hok)
      as (t' & s' & wallEntry' & result & across & banner & w1 & elements'
          & Hres' & Hentry' & Hobst & _ & _ & Htile' & _ & Htiles & _).
    rewrite Hcheck in Hobst. inversion Hobst; subst across.
    rewrite Htile in Htile'. inversion Htile'; subst elements'.
    eexists _, _. split; [rewrite Htiles; apply lookup_insert_eq|].
    eexists. split; reflexivity.
Qed.

Lemma u8_bound (v : Z) : 0 <= u8 v < 256.
Proof. unfold u8. apply Z.mod_pos_bound. lia. Qed.

Ltac corner_cases H :=
  repeat match type of H with
  | context [if ?c then _ else _] => destruct c eqn:?
  end;
  repeat match goal with
  | |- context [if ?c then _ else _] => destruct c eqn:?
  end;
  try reflexivity; try discriminate; try congruence;
  repeat match goal with
  | Hc : (_ <? _) = true |- _ => apply Z.ltb_lt in Hc
  | Hc : (_ <? _) = false |- _ => apply Z.ltb_ge in Hc
  end.

(** X16: the check of a flat wall against the raised corners next to its
    edge.  It can only fail for low walls: if it rejects a target height it
    rejects every lower one, and it never rejects a target height of level
    255 or more.  It looks at the two corners behind the edge only: if
    neither corner (edge + 2) & 3 nor corner (edge + 3) & 3 of the surface
    is raised it accepts every height. *)
Theorem raised_corner_check_monotone a (surfaceElement : SurfaceElement) (t t' : Z) :
  (t <= t' ->
   Query_BelowRaisedCorner a surfaceElement t' = true ->
   Query_BelowRaisedCorner a surfaceElement t = true)
  /\ (255 <= Z.quot t 8 -> Query_BelowRaisedCorner a surfaceElement t = false)
  /\ (corner_raised surfaceElement (Z.land (_edge a + 2) 3) = false ->
      corner_raised surfaceElement (Z.land (_edge a + 3) 3) = false ->
      Query_BelowRaisedCorner a surfaceElement t = false).
Proof.
  split; [|split].
  - intros Hle H.
    assert (Hq : Z.quot t 8 <= Z.quot t' 8) by (apply Z.quot_le_mono; lia).
    unfold Query_BelowRaisedCorner in *.
    corner_cases H; lia.
  - intros Hhigh. unfold Query_BelowRaisedCorner.
    pose proof (u8_bound (u8 (base_height (surface_element surfaceElement)) + 2)) as B1.
    pose proof (u8_bound
                  (u8 (u8 (base_height (surface_element surfaceElement)) + 2) + 2)) as B2.
    pose proof (u8_bound
                  (u8 (u8 (u8 (base_height (surface_element surfaceElement)) + 2) + 2)
                   - 2)) as B3.
    pose proof (u8_bound
                  (u8 (u8 (u8 (u8 (base_height (surface_element surfaceElement)) + 2)
                           + 2) - 2) + 2)) as B4.
    corner_cases B1; lia.
  - intros H2 H3. unfold Query_BelowRaisedCorner. rewrite H2, H3. reflexivity.
Qed.

Lemma find_surface_insert (l : list TileElement) (i : nat) (e : TileElement) :
  AsSurface e = None ->
  find_surface (take i l ++ e :: drop i l) = find_surface l.
Proof.
  intros He. revert i. induction l as [|x l IH]; intros [|i]; simpl.
  - rewrite He. reflexivity.
  - rewrite He. reflexivity.
  - rewrite He. reflexivity.
  - destruct (AsSurface x); [reflexivity|apply IH].
Qed.

(** X17: placing the same wall twice.  After a successful Execute of a
    request that is not a preview, with the obstruction check in force, on
    an edge 0-3 and with a wall that reaches above its base, Execute of the
    same request ends in NoClearance and leaves the world as the first
    Execute left it, and Query of the same request does not end in Ok. *)
Theorem repeated_placement_conflicts a w :
  Error (Execute a w).1 = Status.Ok ->
  has_flag (GetFlags a) GAME_COMMAND_FLAG_GHOST = false ->
  has_flag (GetFlags a) GAME_COMMAND_FLAG_PATH_SCENERY = false ->
  gCheatsDisableClearanceChecks w = false ->
  0 <= _edge a <= 3 ->
  (forall t s wallEntry,
      ResolveTargetHeight a w = inr (t, s) ->
      get_wall_entry (_wallType a) = Some wallEntry ->
      Z.quot t 8 < Execute_clearanceHeight wallEntry t s) ->
  Error (Execute a (Execute a w).2).1 = Status.NoClearance
  /\ (Execute a (Execute a w).2).2 = (Execute a w).2
  /\ Error (Query a (Execute a w).2).1 <> Status.Ok.
Proof.
  intros Hok Hghost Hpath Hcheat Hedge Hheight.
  destruct (Execute_ok_inv a w Hok)
    as (t & s & wallEntry & result & across & banner & w1 & elements
        & Hres & Hentry & Hobst & Hresult & _ & Htile & _ & Htiles & _ & _ & _
        & Hcheat' & _).
  specialize (Hheight t s wallEntry Hres Hentry).
  set (w' := (Execute a w).2) in *.
  set (wallElement :=
         Execute_wallElement a wallEntry s (Execute_clearanceHeight wallEntry t s)
           across banner (inserted_wall t)) in *.
  set (i := insert_index (Z.quot t COORDS_Z_STEP) elements) in *.
  assert (Hstack : map_get_first_element_at w' (_loc a)
                   = take i elements ++ wallElement :: drop i elements).
  { unfold map_get_first_element_at. rewrite Htiles, lookup_insert_eq. reflexivity. }
  assert (Hold : map_get_first_element_at w (_loc a) = elements).
  { unfold map_get_first_element_at. rewrite Htile. reflexivity. }
  assert (Hres' : ResolveTargetHeight a w' = inr (t, s)).
  { rewrite <- Hres. unfold ResolveTargetHeight, map_get_surface_element_at.
    rewrite Hstack, Hold, find_surface_insert by reflexivity. reflexivity. }
  assert (Hedge' : map_is_location_at_edge (_loc a) = false).
  { unfold CheckObstruction, WallCheckObstruction in Hobst.
    rewrite Hpath, Hcheat in Hobst. simpl in Hobst.
    destruct (map_is_location_at_edge (_loc a)); [|reflexivity].
    inversion Hobst; subst. discriminate. }
  assert (Hscan : Error (CheckObstruction a w' wallEntry (Z.quot t COORDS_Z_STEP)
                           (Execute_clearanceHeight wallEntry t s)).1
                  = Status.NoClearance).
  { unfold CheckObstruction, WallCheckObstruction.
    rewrite Hpath, Hcheat', Hcheat, Hedge', Hstack. simpl.
    apply loop_conflict. intros ac.
    rewrite (wall_element_body a wallEntry _ _ wallElement ac eq_refl).
    simpl. rewrite Hghost. unfold TILE_ELEMENT_DIRECTION_MASK.
    rewrite land_3_edge by exact Hedge. rewrite Z.eqb_refl.
    change COORDS_Z_STEP with 8.
    destruct (Z.geb_spec (Z.quot t 8) (Execute_clearanceHeight wallEntry t s)); [lia|].
    destruct (Z.leb_spec (Execute_clearanceHeight wallEntry t s) (Z.quot t 8)); [lia|].
    simpl. eauto. }
  assert (HE : Execute a w'
               = ((CheckObstruction a w' wallEntry (Z.quot t COORDS_Z_STEP)
                     (Execute_clearanceHeight wallEntry t s)).1, w')).
  { unfold Execute at 1. rewrite Hres', Hentry.
    destruct (CheckObstruction a w' wallEntry _ _) as [r ac]. simpl in Hscan |- *.
    rewrite Hscan. reflexivity. }
  split; [rewrite HE; exact Hscan|]. split; [rewrite HE; reflexivity|].
  intros HQ. unfold Query in HQ.
  destruct (Query_validate a w') as [err|entry] eqn:Hvalid.
  { eapply Query_validate_error; eassumption. }
  destruct (Query_validate_ok a w' entry Hvalid)
    as (t2 & s2 & r2 & ac2 & Hterrain & Hentry2 & _ & Hobst2 & Hr2).
  destruct (Query_CheckTerrain_ok a w' t2 s2 Hterrain) as (Hres2 & _).
  rewrite Hres' in Hres2. inversion Hres2; subst t2 s2.
  rewrite Hentry in Hentry2. inversion Hentry2; subst entry.
  change (Z.quot t 8) with (Z.quot t COORDS_Z_STEP) in Hobst2.
  rewrite Hobst2 in Hscan. simpl in Hscan. congruence.
Qed.

(** X18: asking twice.  Query on the world a Query left gives the same
    result and leaves that world as it is. *)
Theorem query_twice a w :
  Query a (Query a w).2 = ((Query a w).1, (Query a w).2).
Proof.
  unfold Query at 2 3 4.
  destruct (Query_validate a w) as [err|wallEntry] eqn:Hvalid.
  { simpl. unfold Query. rewrite Hvalid. reflexivity. }
  unfold MapCheckCapacityAndReorganise.
  destruct (tileElementsInUse w + 1 <=? MAX_TILE_ELEMENTS) eqn:Hfree; simpl.
  - unfold Query, MapCheckCapacityAndReorganise. rewrite Hvalid, Hfree. reflexivity.
  - assert (Hvalid' : Query_validate a (map_reorganise_elements w) = inr wallEntry)
      by exact Hvalid.
    destruct (live_elements w + 1 <=? MAX_TILE_ELEMENTS) eqn:Hlive; simpl.
    + unfold Query, MapCheckCapacityAndReorganise. rewrite Hvalid'. simpl.
      rewrite Hlive. reflexivity.
    + unfold Query, MapCheckCapacityAndReorganise. rewrite Hvalid'. simpl.
      rewrite Hlive. simpl.
      change (live_elements (map_reorganise_elements w)) with (live_elements w).
      rewrite Hlive. reflexivity.
Qed.

End QueryFurther.

(** * Strong enum operators *)

Section EnumOperators.
Variable bits : Z.
Hypothesis bits_pos : 0 < bits.

Lemma cast_land (v : Z) : Enum.cast bits v = Z.land v (Z.ones bits).
Proof. unfold Enum.cast. rewrite Z.land_ones by lia. reflexivity. Qed.

Lemma in_range_cast (v : Z) : Enum.in_range bits v -> Enum.cast bits v = v.
Proof. intros H. unfold Enum.cast. apply Z.mod_small. exact H. Qed.

Lemma cast_in_range (v : Z) : Enum.in_range bits (Enum.cast bits v).
Proof.
  unfold Enum.cast, Enum.in_range. apply Z.mod_pos_bound.
  apply Z.pow_pos_nonneg; lia.
Qed.

Lemma testbit_cast (v n : Z) :
  0 <= n -> Z.testbit (Enum.cast bits v) n = (n <? bits) && Z.testbit v n.
Proof.
  intros Hn. rewrite cast_land, Z.land_spec, Z.testbit_ones_nonneg by lia.
  destruct (Z.ltb_spec n bits); [rewrite andb_true_r|rewrite andb_false_r];
    reflexivity.
Qed.

Lemma testbit_in_range (v n : Z) :
  Enum.in_range bits v -> bits <= n -> Z.testbit v n = false.
Proof.
  intros Hv Hn. rewrite <- (in_range_cast v Hv), testbit_cast by lia.
  destruct (Z.ltb_spec n bits); [lia|reflexivity].
Qed.

Ltac enum_bits :=
  apply Z.bits_inj'; intros n Hn;
  unfold Enum.bit_not, Enum.bit_or, Enum.bit_and, Enum.bit_xor, Enum.underlying;
  repeat first
    [ rewrite testbit_cast by lia
    | rewrite Z.land_spec | rewrite Z.lor_spec | rewrite Z.lxor_spec
    | rewrite Z.lnot_spec by lia | rewrite Z.bits_0 ];
  destruct (Z.ltb_spec n bits); simpl;
  repeat match goal with
  | Hr : Enum.in_range bits ?v |- context [Z.testbit ?v n] =>
      first [ rewrite (testbit_in_range v n Hr) by lia
            | destruct (Z.testbit v n) ]
  end;
  try reflexivity.

(** X20: the bitwise operators on flag values of [bits] bits.  Their
    results are values of the enum again; inversion is an involution; a
    flag that was set with [|] tests as set with [&], a flag that was
    cleared with [& ~] tests as zero; [x ^ x] is zero; the inversion of an
    [|] is the [&] of the inversions; and [!(x & f)] is 1 exactly when [x]
    and [f] have no bit in common. *)
Theorem enum_flag_algebra (x f : Z) :
  Enum.in_range bits x -> Enum.in_range bits f ->
  Enum.in_range bits (Enum.bit_not bits x)
  /\ Enum.in_range bits (Enum.bit_or bits x f)
  /\ Enum.in_range bits (Enum.bit_and bits x f)
  /\ Enum.in_range bits (Enum.bit_xor bits x f)
  /\ Enum.bit_not bits (Enum.bit_not bits x) = x
  /\ Enum.bit_and bits (Enum.bit_or bits x f) f = f
  /\ Enum.bit_and bits (Enum.bit_and bits x (Enum.bit_not bits f)) f = 0
  /\ Enum.bit_xor bits x x = 0
  /\ Enum.bit_not bits (Enum.bit_or bits x f)
     = Enum.bit_and bits (Enum.bit_not bits x) (Enum.bit_not bits f)
  /\ (Enum.is_zero (Enum.bit_and bits x f) = 1
      <-> forall n, 0 <= n -> Z.testbit x n && Z.testbit f n = false).
Proof.
  intros Hx Hf.
  split; [apply cast_in_range|]. split; [apply cast_in_range|].
  split; [apply cast_in_range|]. split; [apply cast_in_range|].
  split; [enum_bits|]. split; [enum_bits|]. split; [enum_bits|].
  split; [enum_bits|]. split; [enum_bits|].
  unfold Enum.is_zero, Enum.underlying. split.
  - intros Hz n Hn.
    destruct (Z.eqb_spec (Enum.bit_and bits x f) 0) as [H0|]; [|discriminate].
    assert (Hb : Z.testbit (Enum.bit_and bits x f) n = false)
      by (rewrite H0; apply Z.bits_0).
    unfold Enum.bit_and, Enum.underlying in Hb.
    rewrite testbit_cast, Z.land_spec in Hb by lia.
    destruct (Z.ltb_spec n bits); [exact Hb|].
    rewrite (testbit_in_range x n Hx) by lia. reflexivity.
  - intros Hno.
    assert (H0 : Enum.bit_and bits x f = 0).
    { apply Z.bits_inj'. intros n Hn. unfold Enum.bit_and, Enum.underlying.
      rewrite testbit_cast, Z.land_spec, Z.bits_0, (Hno n Hn) by lia.
      apply andb_false_r. }
    rewrite H0. reflexivity.
Qed.

Lemma pre_increment_value (a : Z) :
  Enum.in_range bits a ->
  (Enum.pre_increment bits a).2 = if a =? 2 ^ bits - 1 then 0 else a + 1.
Proof.
  unfold Enum.in_range, Enum.pre_increment, Enum.cast, Enum.underlying. intros Ha. simpl.
  destruct (Z.eqb_spec a (2 ^ bits - 1)) as [->|Hne].
  - replace (2 ^ bits - 1 + 1) with (2 ^ bits) by lia. apply Z_mod_same_full.
  - apply Z.mod_small. lia.
Qed.

(** X21: the increment operators.  Both leave the variable at the next
    value, which is 0 after the last value of the underlying type; the
    prefix form returns the new value and the postfix form the old one.  A
    loop [for (e = first; e != last; ++e)] with first <= last visits first,
    first + 1, ..., last - 1 in this order and then stops. *)
Theorem enum_increment_traverses (first last : Z) :
  Enum.in_range bits first -> Enum.in_range bits last -> first <= last ->
  (Enum.pre_increment bits first).1 = (Enum.pre_increment bits first).2
  /\ (Enum.post_increment bits first).1 = first
  /\ (Enum.post_increment bits first).2 = (Enum.pre_increment bits first).2
  /\ (Enum.pre_increment bits first).2
     = (if first =? 2 ^ bits - 1 then 0 else first + 1)
  /\ forall fuel : nat,
       (Z.to_nat (last - first) <= fuel)%nat ->
       Enum.traverse bits fuel first last = Some (seqZ first (last - first)).
Proof.
  intros Hfirst Hlast Hle.
  split; [reflexivity|]. split; [reflexivity|]. split; [reflexivity|].
  split; [apply pre_increment_value; exact Hfirst|].
  intros fuel. revert first Hfirst Hle.
  induction fuel as [|fuel IH]; intros first Hfirst Hle Hfuel.
  - assert (first = last) by lia. subst. simpl.
    rewrite Z.eqb_refl, Z.sub_diag. reflexivity.
  - cbn [Enum.traverse]. destruct (Z.eqb_spec first last) as [->|Hne].
    + rewrite Z.sub_diag. reflexivity.
    + rewrite pre_increment_value by exact Hfirst.
      unfold Enum.in_range in *.
      destruct (Z.eqb_spec first (2 ^ bits - 1)); [lia|].
      rewrite IH by (unfold Enum.in_range; lia).
      rewrite (seqZ_cons first (last - first)) by lia.
      replace (Z.pred (last - first)) with (last - (first + 1)) by lia.
      reflexivity.
Qed.

End EnumOperators.

Section EnumArrays.
Context {ValueType : Type}.

Implicit Types (store : gmap Z (list ValueType)) (v : ValueType).


End EnumArrays.

(** * Worked instances of the further properties *)

Lemma scan_ignores_passed_over_witness :
  @WallCheckObstruction_loop (test_externals 100) (test_request 5 0) test_fence 0 4
    [test_surface 0; test_ghost (test_wall_element 0)] false
  = (MakeResult, false).
Proof.
  apply (proj2 (@scan_ignores_passed_over (test_externals 100) (test_request 5 0)
                  test_fence 0 4
                  [test_surface 0; test_ghost (test_wall_element 0)] false)).
  reflexivity.
Defined.


Lemma path_conflict_iff_edge_bit_witness :
  Error (@WallCheckObstruction_loop (test_externals 100) (test_request 5 0) test_fence 0 4
           ([test_surface 0] ++ test_path 1 :: []) false).1 = Status.NoClearance
  /\ @WallCheckObstruction_loop (test_externals 100) (test_request 5 1) test_fence 0 4
       ([test_surface 0] ++ test_path 1 :: []) false
     = @WallCheckObstruction_loop (test_externals 100) (test_request 5 1) test_fence 0 4
         ([test_surface 0] ++ []) false.
Proof.
  split.
  - apply (proj1 (proj2 (@path_conflict_iff_edge_bit (test_externals 100)
             (test_request 5 0) test_fence 0 4 (test_path 1) 1
             eq_refl eq_refl eq_refl eq_refl
             ltac:(simpl; lia) ltac:(simpl; lia)))).
    reflexivity.
  - apply (proj2 (proj2 (@path_conflict_iff_edge_bit (test_externals 100)
             (test_request 5 1) test_fence 0 4 (test_path 1) 1
             eq_refl eq_refl eq_refl eq_refl
             ltac:(simpl; lia) ltac:(simpl; lia)))).
    reflexivity.
Defined.

Lemma scenery_conflict_rules_witness :
  @WallCheckObstruction_loop (test_externals 100) (test_request 5 0) test_fence 0 4
    ([test_surface 0] ++ test_large_scenery 1 3 :: []) false
  = @WallCheckObstruction_loop (test_externals 100) (test_request 5 0) test_fence 0 4
      ([test_surface 0] ++ []) false.
Proof.
  apply (proj2 (proj2 (@scenery_conflict_rules (test_externals 100) (test_request 5 0)
           test_fence 0 4 (test_large_scenery 1 3)
           eq_refl eq_refl eq_refl ltac:(simpl; lia)))).
  right. exists 3, 0. split; reflexivity.
Defined.

Lemma track_check_without_door_rule_witness :
  @WallCheckObstructionWithTrack (test_externals 100) (test_request 5 0) test_fence 0
    (test_track_element 1) 1 0 0 false = (true, false)
  /\ @WallCheckObstructionWithTrack (test_externals 100) (test_request 5 0) test_fence 0
       (test_track_element 0) 0 0 0 false = (false, false).
Proof.
  split.
  - exact (@track_check_without_door_rule (test_externals 100) (test_request 5 0)
             test_fence 0 (test_track_element 1) 1 0 0 false (or_introl eq_refl)).
  - exact (@track_check_without_door_rule (test_externals 100) (test_request 5 0)
             test_fence 0 (test_track_element 0) 0 0 0 false (or_introl eq_refl)).
Defined.

Lemma door_allowed_iff_at_boundary_witness :
  @WallCheckObstructionWithTrack (test_externals 100) (test_request 7 2) test_door 0
    (test_track_element 0) 0 0 0 false = (true, true)
  /\ @WallCheckObstructionWithTrack (test_externals 100) (test_request 7 2) test_door 2
       (test_track_element 0) 0 0 0 false = (false, true).
Proof.
  split.
  - exact (@door_allowed_iff_at_boundary (test_externals 100) (test_request 7 2)
             test_door 0 (test_track_element 0) 0 0 0 (mkRide 0) false
             eq_refl eq_refl eq_refl eq_refl).
  - exact (@door_allowed_iff_at_boundary (test_externals 100) (test_request 7 2)
             test_door 2 (test_track_element 0) 0 0 0 (mkRide 0) false
             eq_refl eq_refl eq_refl eq_refl).
Defined.

Lemma scan_body_rotation_invariant_witness :
  (@WallCheckObstruction_element (test_externals 100)
     (rotate_action 3 (test_request 7 2)) test_door 0 4
     (rotate_element 3 (test_track_element 0)) false).2
  = (@WallCheckObstruction_element (test_externals 100) (test_request 7 2) test_door 0 4
       (test_track_element 0) false).2.
Proof.
  apply (@scan_body_rotation_invariant (test_externals 100) (test_request 7 2)
           test_door 0 4 (test_track_element 0) false 3);
    [simpl; lia | simpl; lia | discriminate].
Defined.

Lemma across_track_only_for_doors_witness :
  (@WallCheckObstruction_loop (test_externals 100) (test_request 7 2) test_door 0 4
     [test_surface 0; test_track_element 0] false).2 <> false
  /\ has_flag (wall_flags test_door) (@WALL_SCENERY_IS_DOOR (test_externals 100)) = true.
Proof.
  assert (H : (@WallCheckObstruction_loop (test_externals 100) (test_request 7 2)
                 test_door 0 4 [test_surface 0; test_track_element 0] false).2 <> false)
    by (vm_compute; discriminate).
  split; [exact H|].
  exact (proj1 (@across_track_only_for_doors (test_externals 100) (test_request 7 2)
                  test_door 0 4 [test_surface 0; test_track_element 0] false H)).
Defined.

Lemma execute_failure_frame_witness :
  Error (@Execute (test_externals 100) (test_request 5 0) test_fenced_world).1
  = Status.NoClearance
  /\ (@Execute (test_externals 100) (test_request 5 0) test_fenced_world).2
     = test_fenced_world.
Proof.
  assert (H : Error (@Execute (test_externals 100) (test_request 5 0)
                       test_fenced_world).1 = Status.NoClearance)
    by (vm_compute; reflexivity).
  split; [exact H|].
  apply (proj1 (proj2 (@execute_failure_frame (test_externals 100) (test_request 5 0)
                         test_fenced_world))).
  right. exact H.
Defined.

Lemma execute_success_frame_witness :
  Error (@Execute (test_externals 100) (test_request 5 0) test_flat_world).1 = Status.Ok
  /\ exists wallElement (i : nat),
      GetType wallElement = TILE_ELEMENT_TYPE_WALL
      /\ tileElements (@Execute (test_externals 100) (test_request 5 0) test_flat_world).2
           !! TileCoordsXY (_loc (test_request 5 0))
         = Some (take i [test_surface 0] ++ wallElement :: drop i [test_surface 0]).
Proof.
  assert (H : Error (@Execute (test_externals 100) (test_request 5 0)
                       test_flat_world).1 = Status.Ok) by (vm_compute; reflexivity).
  split; [exact H|].
  destruct (@execute_success_frame (test_externals 100) (test_request 5 0)
              test_flat_world H)
    as (wallEntry & wallElement & elements & i & t & _ & Htile & _ & Hty & Hstack & _).
  assert (elements = [test_surface 0]) as ->
    by (vm_compute in Htile; inversion Htile; reflexivity).
  exists wallElement, i. split; assumption.
Defined.

Lemma installed_wall_fields_witness :
  Error (@Execute (test_externals 100) (test_request 5 0) test_flat_world).1 = Status.Ok
  /\ exists wallElement (i : nat),
      0 <= GetDirection wallElement <= 3
      /\ tileElements (@Execute (test_externals 100) (test_request 5 0) test_flat_world).2
           !! TileCoordsXY (_loc (test_request 5 0))
         = Some (take i [test_surface 0] ++ wallElement :: drop i [test_surface 0]).
Proof.
  assert (H : Error (@Execute (test_externals 100) (test_request 5 0)
                       test_flat_world).1 = Status.Ok) by (vm_compute; reflexivity).
  split; [exact H|].
  destruct (@installed_wall_fields (test_externals 100) (test_request 5 0)
              test_flat_world H)
    as (wallEntry & wallElement & wl & elements & i & _ & Htile & Hstack & _ & _ & Hdir & _).
  assert (elements = [test_surface 0]) as ->
    by (vm_compute in Htile; inversion Htile; reflexivity).
  exists wallElement, i. split; assumption.
Defined.

Lemma installed_banner_witness :
  Error (@Execute (test_externals 100) (test_request 6 0) test_flat_world).1 = Status.Ok
  /\ exists (slot : nat) b,
      banners test_flat_world !! slot = Some None
      /\ banners (@Execute (test_externals 100) (test_request 6 0) test_flat_world).2
         = <[slot := Some b]> (banners test_flat_world)
      /\ banner_id b = Z.of_nat slot.
Proof.
  assert (H : Error (@Execute (test_externals 100) (test_request 6 0)
                       test_flat_world).1 = Status.Ok) by (vm_compute; reflexivity).
  split; [exact H|].
  destruct (@installed_banner (test_externals 100) (test_request 6 0) test_flat_world H)
    as (wallEntry & wallElement & wl & elements & i & Hentry & _ & _ & _ & _ & _ & Hsign).
  assert (wallEntry = mkWallSceneryEntry 0 4 50 0) as ->
    by (vm_compute in Hentry; inversion Hentry; reflexivity).
  destruct (Hsign ltac:(simpl; lia)) as (slot & b & t & Hfree & Hafter & Hid & _).
  exists slot, b. split; [exact Hfree|]. split; [exact Hafter|exact Hid].
Defined.

Lemma auto_height_placement_witness :
  Error (@Execute (test_externals 100) (test_request 5 2)
           (test_world [test_surface 3] 1 [None])).1 = Status.Ok
  /\ exists surfaceElement,
      @map_get_surface_element_at (test_world [test_surface 3] 1 [None])
        (_loc (test_request 5 2)) = Some surfaceElement
      /\ BaseHeight <$> ResultData (@Execute (test_externals 100) (test_request 5 2)
                                      (test_world [test_surface 3] 1 [None])).1
         = Some (GetBaseZ (surface_element surfaceElement)
                 + (if has_flag (test_slope_table (GetSlope surfaceElement) 2) 1
                    then 16 else 0)).
Proof.
  assert (H : Error (@Execute (test_externals 100) (test_request 5 2)
                       (test_world [test_surface 3] 1 [None])).1 = Status.Ok)
    by (vm_compute; reflexivity).
  split; [exact H|].
  destruct (@auto_height_placement (test_externals 100) (test_request 5 2)
              (test_world [test_surface 3] 1 [None]) eq_refl H)
    as (surf & wallElement & elements & i & Hsurf & _ & _ & _ & Hbase & _).
  exists surf. split; [exact Hsurf|exact Hbase].
Defined.

Lemma query_ok_guarantees_witness :
  Error (@Query (test_externals 100) (test_request 5 0) test_flat_world).1 = Status.Ok
  /\ @LocationValid (test_externals 100) (_loc (test_request 5 0)) = true
  /\ _edge (test_request 5 0) <= 3.
Proof.
  assert (H : Error (@Query (test_externals 100) (test_request 5 0) test_flat_world).1
              = Status.Ok) by (vm_compute; reflexivity).
  split; [exact H|].
  destruct (@query_ok_guarantees (test_externals 100) (test_request 5 0)
              test_flat_world H) as (Hloc & Hedge & _).
  split; [exact Hloc|exact Hedge].
Defined.

Lemma query_conflict_repeated_by_execute_witness :
  Error (@Query (test_externals 100) (test_request 5 0) test_fenced_world).1
  = Status.NoClearance
  /\ @Execute (test_externals 100) (test_request 5 0) test_fenced_world
     = @Query (test_externals 100) (test_request 5 0) test_fenced_world.
Proof.
  assert (H : Error (@Query (test_externals 100) (test_request 5 0)
                       test_fenced_world).1 = Status.NoClearance)
    by (vm_compute; reflexivity).
  split; [exact H|].
  exact (proj1 (@query_conflict_repeated_by_execute (test_externals 100)
                  (test_request 5 0) test_fenced_world H)).
Defined.

Lemma no_obstruction_check_when_disabled_witness :
  has_flag (GetFlags (test_path_accessory 5 0))
    (@GAME_COMMAND_FLAG_PATH_SCENERY (test_externals 100)) = true
  /\ Error (@Execute (test_externals 100) (test_path_accessory 5 0)
              test_fenced_world).1 = Status.Ok.
Proof.
  split; [reflexivity|].
  apply (proj2 (proj2 (@no_obstruction_check_when_disabled (test_externals 100)
                         (test_path_accessory 5 0) test_fenced_world
                         (or_intror eq_refl)))
           0 0 test_fence [test_surface 0; test_wall_element 0]);
    [ vm_compute; reflexivity | reflexivity | intros; reflexivity
    | vm_compute; reflexivity | vm_compute; reflexivity ].
Defined.

Lemma raised_corner_check_monotone_witness :
  @Query_BelowRaisedCorner (test_externals 100) (test_request 5 0)
    test_raised_surface 8 = true
  /\ @Query_BelowRaisedCorner (test_externals 100) (test_request 5 0)
       test_raised_surface 0 = true.
Proof.
  assert (H : @Query_BelowRaisedCorner (test_externals 100) (test_request 5 0)
                test_raised_surface 8 = true) by reflexivity.
  split; [exact H|].
  apply (proj1 (@raised_corner_check_monotone (test_externals 100) (test_request 5 0)
                  test_raised_surface 0 8)); [lia|exact H].
Defined.

Lemma repeated_placement_conflicts_witness :
  Error (@Execute (test_externals 100) (test_request 5 0) test_flat_world).1 = Status.Ok
  /\ Error (@Execute (test_externals 100) (test_request 5 0)
              (@Execute (test_externals 100) (test_request 5 0) test_flat_world).2).1
     = Status.NoClearance.
Proof.
  assert (H : Error (@Execute (test_externals 100) (test_request 5 0)
                       test_flat_world).1 = Status.Ok) by (vm_compute; reflexivity).
  split; [exact H|].
  apply (@repeated_placement_conflicts (test_externals 100) (test_request 5 0)
           test_flat_world H); [reflexivity | reflexivity | reflexivity | simpl; lia |].
  intros t s wallEntry Hres Hentry.
  vm_compute in Hres. inversion Hres; subst t s.
  vm_compute in Hentry. inversion Hentry; subst wallEntry.
  vm_compute. reflexivity.
Defined.

Lemma enum_flag_algebra_witness :
  Enum.bit_and 8 (Enum.bit_or 8 5 2) 2 = 2
  /\ Enum.bit_and 8 (Enum.bit_and 8 7 (Enum.bit_not 8 2)) 2 = 0.
Proof.
  split.
  - apply (enum_flag_algebra 8 ltac:(lia) 5 2);
      unfold Enum.in_range; simpl; lia.
  - apply (enum_flag_algebra 8 ltac:(lia) 7 2);
      unfold Enum.in_range; simpl; lia.
Defined.

Lemma enum_increment_traverses_witness :
  Enum.traverse 8 5 3 6 = Some [3; 4; 5].
Proof.
  apply (proj2 (proj2 (proj2 (proj2
           (enum_increment_traverses 8 ltac:(lia) 3 6
              ltac:(unfold Enum.in_range; simpl; lia)
              ltac:(unfold Enum.in_range; simpl; lia)
              ltac:(lia)))))).
  simpl. lia.
Defined.

